(** * ErrorHandler: retry loop, backoff, error classification, circuit breaker

    A shallow embedding of [script.js] (class [ErrorHandler] and the object
    [ErrorUtils]).

    Conventions of the embedding.
    - JavaScript numbers that the code uses as counters, millisecond
      timestamps and delays are integers of [Z].  The code computes them as
      IEEE doubles, which are exact on the integers up to
      [Number.MAX_SAFE_INTEGER] and round, or overflow to [Infinity] and
      [NaN], beyond them: the arithmetic of [Z] is that of the code as long
      as the operands and the result are such integers ([exact_delay]).  A
      statement that gives the value of a delay by its formula is made
      within that range; the others name a delay as what [calculateDelay]
      returns.
      A [NaN] out of [parseInt] is not modelled (in the loop condition it
      behaves as a negative [maxRetries] does).
    - [Math.random()] yields a rational of [Q] taken from a stream carried by
      the environment.  The latency [r * 2000 + 500] of the simulated
      request is computed exactly, where the code rounds to a double twice:
      the two agree up to the rounding, so that the latency of the code
      reaches 2500 at the largest [r] below 1, where the exact one stays
      below it.
    - [Date.now()] reads a clock carried by the environment.  A timer
      ([setTimeout]) advances that clock by exactly its duration.  This is
      what a timer does for a duration up to [TIMEOUT_MAX], the largest
      delay it takes; a longer one overflows the 32-bit delay of the timer
      and is not waited for in full.  A statement about the time a call
      takes, or one that depends on it, is made for waits within that
      range.
    - [stats.errorTypes] maps the names of the errors to their counts; the
      keys an object inherits from [Object.prototype] are not modelled.
    - One top-level call runs from its start to its completion without
      another call interleaved at its [await] points.
    - An [async] method completes either normally ([Returned]) or abruptly
      ([Thrown], a rejected promise).
    - The DOM updates of [updateStats], [updateCurrentRequest] and
      [renderLog] are not modelled, nor is the rendered text of the log: the
      calls to [this.log] that matter are kept as structured events in
      [trace], together with one event per invocation of the operation. *)

From Stdlib Require Import ZArith QArith Qround String Ascii List Bool Lia Lqa.
From stdpp Require Import gmap strings.
Import ListNotations.

Local Open Scope string_scope.
Local Open Scope Z_scope.

(** ** Strings and the regular expressions of [isRetryableError] *)

Module Js.

(** [s.startsWith(p)] *)
Fixpoint startsWith (p s : string) : bool :=
  match p, s with
  | EmptyString, _ => true
  | String a p', String b s' => if Ascii.eqb a b then startsWith p' s' else false
  | String _ _, EmptyString => false
  end.

(** [s.includes(p)]: [p] occurs in [s] as a contiguous substring. *)
Fixpoint includes (p s : string) : bool :=
  if startsWith p s then true
  else match s with
       | EmptyString => false
       | String _ s' => includes p s'
       end.

(** Lower-casing of the ASCII letters; every other byte is kept. *)
Definition lower (c : ascii) : ascii :=
  let n := nat_of_ascii c in
  if ((65 <=? n)%nat && (n <=? 90)%nat)%bool then ascii_of_nat (n + 32) else c.

Fixpoint toLowerCase (s : string) : string :=
  match s with
  | EmptyString => EmptyString
  | String c s' => String (lower c) (toLowerCase s')
  end.

(** The regular expressions of the source are all literals without
    metacharacters, some with the flag [i]: [/500/], [/timeout/i].  The
    literal of an [i] pattern is written in lower case, as in the source. *)
Record RegExp := { source : string; ignoreCase : bool }.

(** [pattern.test(s)] *)
Definition test (r : RegExp) (s : string) : bool :=
  if ignoreCase r then includes (source r) (toLowerCase s)
  else includes (source r) s.

(** [s.split(sep)[0]] for a non-empty [sep]: the text before the first
    occurrence of [sep], the whole of [s] when there is none. *)
Fixpoint split_head (sep s : string) : string :=
  if startsWith sep s then EmptyString
  else match s with
       | EmptyString => EmptyString
       | String c s' => String c (split_head sep s')
       end.

(** [Math.round] of the quotient [a / b] for [b > 0]: the nearest integer,
    halves rounded up. *)
Definition round_div (a b : Z) : Z := (2 * a + b) / (2 * b).

(** [Number.MAX_SAFE_INTEGER] and [Number.isSafeInteger]: the integers a
    double holds exactly, together with their neighbours. *)
Definition MAX_SAFE_INTEGER : Z := 2 ^ 53 - 1.

Definition isSafeInteger (x : Z) : bool := Z.abs x <=? MAX_SAFE_INTEGER.

End Js.

(** ** Errors and the classifier *)

(** [new Error(message)] *)
Record Error := mkError { message : string }.

Definition retryablePatterns : list Js.RegExp :=
  [ {| Js.source := "timeout"; Js.ignoreCase := true |};
    {| Js.source := "500"; Js.ignoreCase := false |};
    {| Js.source := "502"; Js.ignoreCase := false |};
    {| Js.source := "503"; Js.ignoreCase := false |};
    {| Js.source := "504"; Js.ignoreCase := false |};
    {| Js.source := "429"; Js.ignoreCase := false |};
    {| Js.source := "network"; Js.ignoreCase := true |};
    {| Js.source := "connection"; Js.ignoreCase := true |} ].

Definition nonRetryablePatterns : list Js.RegExp :=
  [ {| Js.source := "400"; Js.ignoreCase := false |};
    {| Js.source := "401"; Js.ignoreCase := false |};
    {| Js.source := "403"; Js.ignoreCase := false |};
    {| Js.source := "404"; Js.ignoreCase := false |};
    {| Js.source := "422"; Js.ignoreCase := false |} ].

(** [isRetryableError(error)] *)
Definition isRetryableError (error : Error) : bool :=
  if existsb (fun pattern => Js.test pattern (message error)) nonRetryablePatterns
  then false
  else if existsb (fun pattern => Js.test pattern (message error)) retryablePatterns
  then true
  else false.

(** ** Backoff *)

(** [ErrorUtils.calculateDelay(attempt, baseDelay, backoffType)];
    [Math.pow(2, attempt)] is [2 ^ attempt] for the attempt indices
    [0 <= attempt] the callers pass.  The products are those of integers:
    they are the products of the code where [exact_delay] holds. *)
Definition calculateDelay (attempt baseDelay : Z) (backoffType : string) : Z :=
  if String.eqb backoffType "exponential" then baseDelay * 2 ^ attempt
  else if String.eqb backoffType "linear" then baseDelay * (attempt + 1)
  else if String.eqb backoffType "fixed" then baseDelay
  else baseDelay.

(** ** The environment: clock and random numbers *)

Record Env := mkEnv {
  clock : Z;            (* the value [Date.now()] returns *)
  draws : nat -> Q;     (* the values of successive [Math.random()] calls *)
  drawn : nat           (* how many of them have been consumed *)
}.

(** [Math.random()] *)
Definition Math_random (env : Env) : Q * Env :=
  (draws env (drawn env),
   {| clock := clock env; draws := draws env; drawn := S (drawn env) |}).

(** The largest delay [setTimeout] takes, a 32-bit signed integer. *)
Definition TIMEOUT_MAX : Z := 2 ^ 31 - 1.

(** Suspension on a timer of [ms] milliseconds: [setTimeout(resolve, ms)]
    for [0 <= ms <= TIMEOUT_MAX]. *)
Definition sleep (ms : Z) (env : Env) : Env :=
  {| clock := clock env + ms; draws := draws env; drawn := drawn env |}.

Definition Q_ltb (x y : Q) : bool := negb (Qle_bool y x).

(** ** The simulated request *)

Record Response := mkResponse { data : string; timestamp : Z }.

(** How the promise of an operation settles. *)
Inductive Settled :=
| Resolve (result : Response)
| Reject (error : Error).

(** An operation as the retry loop sees it: called with the attempt index,
    it runs in the environment and settles. *)
Definition Operation := Z -> Env -> Settled * Env.

(** [simulateAPIRequest(errorType, attempt)]; the latency and the
    comparisons with 0.7 and 0.6 are those of the rationals. *)
Definition simulateAPIRequest (errorType : string) : Operation :=
  fun attempt env =>
    let '(r, env) := Math_random env in
    let requestTime := (r * 2000 + 500)%Q in
    let env := sleep (Qfloor requestTime) env in
    if String.eqb errorType "timeout" then
      let '(p, env) := Math_random env in
      if Q_ltb p (7 # 10) then (Reject (mkError "Request timeout"), env)
      else (Resolve (mkResponse "Success after timeout risk" (clock env)), env)
    else if String.eqb errorType "server-error" then
      let '(p, env) := Math_random env in
      if Q_ltb p (6 # 10) then (Reject (mkError "Internal Server Error (500)"), env)
      else (Resolve (mkResponse "Server recovered" (clock env)), env)
    else if String.eqb errorType "rate-limit" then
      if attempt <? 2 then (Reject (mkError "Too Many Requests (429)"), env)
      else (Resolve (mkResponse "Rate limit cleared" (clock env)), env)
    else if String.eqb errorType "unauthorized" then
      (Reject (mkError "Unauthorized (401) - Invalid credentials"), env)
    else if String.eqb errorType "not-found" then
      (Reject (mkError "Not Found (404) - Resource does not exist"), env)
    else if String.eqb errorType "bad-request" then
      (Reject (mkError "Bad Request (400) - Invalid request format"), env)
    else (Resolve (mkResponse "Default success response" (clock env)), env).

(** ** The handler's state *)

Record Stats := mkStats {
  totalRequests : Z;
  successfulRequests : Z;
  failedRequests : Z;
  totalRetries : Z;
  responseTimes : list Z;
  errorTypes : gmap string Z
}.

Record CircuitBreakerState := mkBreaker {
  isOpen : bool;
  failureCount : Z;
  lastFailureTime : option Z;   (* [None] is [null] *)
  threshold : Z;
  timeout : Z
}.

Record CurrentRequest := mkCurrent {
  status : string;
  attempt : Z;
  maxAttempts : Z;
  nextRetryTime : option Z
}.

(** What the handler reports through [this.log], and one event per call of
    the operation. *)
Inductive Event :=
| Attempt (number total : Z) (at_time : Z)   (* "Attempt n/total for ..." *)
| Invoked (index : Z) (started settled : Z)  (* the operation was called *)
| Failure (error : Error)                    (* "Error: ..." *)
| Retrying (delayMs : Z)                     (* "Retrying in ...ms..." *)
| GaveUp (attempts : Z) (error : Error)      (* "Request failed after ..." *)
| Completed                                  (* "Successfully completed ..." *)
| HalfOpened                                 (* "... entering recovery mode (half-open)" *)
| Opened (failures : Z).                     (* "Circuit breaker opened after ..." *)

Record ErrorHandler := mkHandler {
  stats : Stats;
  circuitBreakerState : CircuitBreakerState;
  currentRequest : CurrentRequest;
  maxRetries : Z;
  baseDelay : Z;
  backoffType : string;
  requestTimeout : Z;
  trace : list Event
}.

(** The values of the settings form after [parseInt]. *)
Record Settings := mkSettings {
  form_maxRetries : Z;
  form_baseDelay : Z;
  form_backoffType : string;
  form_requestTimeout : Z
}.

(** Field updates *)

Definition with_stats (f : Stats -> Stats) (h : ErrorHandler) : ErrorHandler :=
  mkHandler (f (stats h)) (circuitBreakerState h) (currentRequest h)
            (maxRetries h) (baseDelay h) (backoffType h) (requestTimeout h) (trace h).

Definition with_breaker (f : CircuitBreakerState -> CircuitBreakerState)
  (h : ErrorHandler) : ErrorHandler :=
  mkHandler (stats h) (f (circuitBreakerState h)) (currentRequest h)
            (maxRetries h) (baseDelay h) (backoffType h) (requestTimeout h) (trace h).

Definition with_current (f : CurrentRequest -> CurrentRequest)
  (h : ErrorHandler) : ErrorHandler :=
  mkHandler (stats h) (circuitBreakerState h) (f (currentRequest h))
            (maxRetries h) (baseDelay h) (backoffType h) (requestTimeout h) (trace h).

(** [this.currentRequest.attempt = n] *)
Definition begin_attempt (n : Z) (c : CurrentRequest) : CurrentRequest :=
  mkCurrent (status c) n (maxAttempts c) (nextRetryTime c).

(** [this.currentRequest.status = st; this.currentRequest.nextRetryTime = next] *)
Definition settle_current (st : string) (next : option Z) (c : CurrentRequest)
  : CurrentRequest :=
  mkCurrent st (attempt c) (maxAttempts c) next.

(** [this.log(...)], as an event appended to the trace *)
Definition log (ev : Event) (h : ErrorHandler) : ErrorHandler :=
  mkHandler (stats h) (circuitBreakerState h) (currentRequest h)
            (maxRetries h) (baseDelay h) (backoffType h) (requestTimeout h)
            (trace h ++ [ev]).

(** The handler the constructor builds (after [initializeSettings]). *)
Definition new_ErrorHandler : ErrorHandler :=
  {| stats := mkStats 0 0 0 0 [] ∅;
     circuitBreakerState := mkBreaker false 0 None 3 30000;
     currentRequest := mkCurrent "ready" 0 0 None;
     maxRetries := 3;
     baseDelay := 1000;
     backoffType := "exponential";
     requestTimeout := 5000;
     trace := [] |}.

(** [updateSettings()] *)
Definition updateSettings (form : Settings) (h : ErrorHandler) : ErrorHandler :=
  mkHandler (stats h) (circuitBreakerState h) (currentRequest h)
            (form_maxRetries form) (form_baseDelay form) (form_backoffType form)
            (form_requestTimeout form) (trace h).

(** [calculateBackoffDelay(attemptNumber)]; the products are those of
    integers, as in [calculateDelay]. *)
Definition calculateBackoffDelay (h : ErrorHandler) (attemptNumber : Z) : Z :=
  if String.eqb (backoffType h) "exponential" then baseDelay h * 2 ^ attemptNumber
  else if String.eqb (backoffType h) "linear" then baseDelay h * (attemptNumber + 1)
  else if String.eqb (backoffType h) "fixed" then baseDelay h
  else baseDelay h.

(** ** The circuit breaker of the handler *)

(** [resetCircuitBreaker()] *)
Definition resetCircuitBreaker (h : ErrorHandler) : ErrorHandler :=
  with_breaker (fun cb => mkBreaker false 0 None (threshold cb) (timeout cb)) h.

(** [isCircuitBreakerOpen()] at the time [now]; [null] in the subtraction
    is [0]. *)
Definition isCircuitBreakerOpen (now : Z) (h : ErrorHandler) : bool * ErrorHandler :=
  if isOpen (circuitBreakerState h) then
    let timeSinceLastFailure :=
      now - default 0 (lastFailureTime (circuitBreakerState h)) in
    if timeout (circuitBreakerState h) <=? timeSinceLastFailure then
      (false, resetCircuitBreaker (log HalfOpened h))
    else (true, h)
  else (false, h).

(** [incrementCircuitBreakerFailures()] at the time [now] *)
Definition incrementCircuitBreakerFailures (now : Z) (h : ErrorHandler) : ErrorHandler :=
  let h := with_breaker (fun cb =>
             mkBreaker (isOpen cb) (failureCount cb + 1) (Some now)
                       (threshold cb) (timeout cb)) h in
  if threshold (circuitBreakerState h) <=? failureCount (circuitBreakerState h) then
    let h := with_breaker (fun cb =>
               mkBreaker true (failureCount cb) (lastFailureTime cb)
                         (threshold cb) (timeout cb)) h in
    log (Opened (failureCount (circuitBreakerState h))) h
  else h.

(** [updateStats()] computes the displayed average of [responseTimes]. *)
Definition avgResponseTime (s : Stats) : Z :=
  if (0 <? Z.of_nat (length (responseTimes s)))
  then Js.round_div (fold_left Z.add (responseTimes s) 0)
                    (Z.of_nat (length (responseTimes s)))
  else 0.

(** ** The retry loop of [makeRequestWithRetry] *)

(** How a call of an [async] method completes: [return result], the end of
    the body ([Returned None], the value [undefined]), or [throw error]. *)
Inductive Completion :=
| Returned (result : option Response)
| Thrown (error : Error).

Definition circuitOpenError : Error :=
  mkError "Circuit breaker is open - blocking request".

(** The [try] block up to the settling of the awaited request: either the
    breaker blocks and the block throws, or the operation is called. *)
Definition attempt_request (operation : Operation) (attempt : Z)
  (h : ErrorHandler) (env : Env) : Settled * ErrorHandler * Env :=
  let h := with_current (begin_attempt (attempt + 1)) h in
  let h := log (Attempt (attempt + 1) (maxRetries h + 1) (clock env)) h in
  let '(blocked, h) := isCircuitBreakerOpen (clock env) h in
  if blocked then (Reject circuitOpenError, h, env)
  else
    let '(outcome, env') := operation attempt env in
    (outcome, log (Invoked attempt (clock env) (clock env')) h, env').

(** The rest of the [try] block, after the request has resolved. *)
Definition on_success (startTime : Z) (h : ErrorHandler) (env : Env) : ErrorHandler :=
  let endTime := clock env in
  let h := with_stats (fun s =>
             mkStats (totalRequests s) (successfulRequests s + 1) (failedRequests s)
                     (totalRetries s) (responseTimes s ++ [endTime - startTime])
                     (errorTypes s)) h in
  let h := resetCircuitBreaker h in
  let h := with_current (settle_current "success" None) h in
  log Completed h.

(** The [catch] block before its [if]: the error type is counted and the
    breaker is told of a failure. *)
Definition on_error (error : Error) (h : ErrorHandler) (env : Env) : ErrorHandler :=
  let head := Js.split_head " (" (message error) in
  let errorName := if String.eqb head "" then message error else head in
  let h := with_stats (fun s =>
             mkStats (totalRequests s) (successfulRequests s) (failedRequests s)
                     (totalRetries s) (responseTimes s)
                     (<[errorName := default 0 (errorTypes s !! errorName) + 1]>
                        (errorTypes s))) h in
  let h := incrementCircuitBreakerFailures (clock env) h in
  log (Failure error) h.

(** The branch of the [catch] block that schedules a retry; [attempt] is
    already incremented. *)
Definition schedule_retry (attempt : Z) (h : ErrorHandler) (env : Env)
  : ErrorHandler * Env :=
  let h := with_stats (fun s =>
             mkStats (totalRequests s) (successfulRequests s) (failedRequests s)
                     (totalRetries s + 1) (responseTimes s) (errorTypes s)) h in
  let delayMs := calculateBackoffDelay h (attempt - 1) in
  let h := with_current (settle_current "retrying" (Some (clock env + delayMs))) h in
  let h := log (Retrying delayMs) h in
  (h, sleep (Z.max 0 delayMs) env).

(** The branch of the [catch] block that rethrows. *)
Definition rethrow (attempt : Z) (error : Error) (h : ErrorHandler) : ErrorHandler :=
  let h := with_stats (fun s =>
             mkStats (totalRequests s) (successfulRequests s) (failedRequests s + 1)
                     (totalRetries s) (responseTimes s) (errorTypes s)) h in
  let h := with_current (settle_current "failed" None) h in
  log (GaveUp attempt error) h.

(** [while (attempt <= this.maxRetries) { try { ... } catch (error) { ... } }].
    The fuel bounds the number of iterations; [None] is the fuel running
    out, which [execute_completes] excludes. *)
Fixpoint retry_loop (operation : Operation) (fuel : nat) (startTime attempt : Z)
  (h : ErrorHandler) (env : Env) : option (Completion * ErrorHandler * Env) :=
  match fuel with
  | O => None
  | S fuel =>
      if attempt <=? maxRetries h then
        match attempt_request operation attempt h env with
        | (Resolve result, h, env) =>
            Some (Returned (Some result), on_success startTime h env, env)
        | (Reject error, h, env) =>
            let attempt := attempt + 1 in
            let h := on_error error h env in
            if (attempt <=? maxRetries h) && isRetryableError error then
              let '(h, env) := schedule_retry attempt h env in
              retry_loop operation fuel startTime attempt h env
            else
              Some (Thrown error, rethrow attempt error h, env)
        end
      else Some (Returned None, h, env)
  end.

(** The body of [makeRequestWithRetry], with the request it awaits,
    [this.simulateAPIRequest(errorType, attempt)], abstracted as
    [operation attempt]; [form] is what [updateSettings] reads. *)
Definition execute (operation : Operation) (form : Settings)
  (h : ErrorHandler) (env : Env) : option (Completion * ErrorHandler * Env) :=
  let h := updateSettings form h in
  let h := with_stats (fun s =>
             mkStats (totalRequests s + 1) (successfulRequests s) (failedRequests s)
                     (totalRetries s) (responseTimes s) (errorTypes s)) h in
  let startTime := clock env in
  let h := with_current (fun _ => mkCurrent "loading" 0 (maxRetries h + 1) None) h in
  retry_loop operation (S (Z.to_nat (maxRetries h + 1))) startTime 0 h env.

(** [makeRequestWithRetry(errorType, requestName)] *)
Definition makeRequestWithRetry (errorType : string) (form : Settings)
  (h : ErrorHandler) (env : Env) : option (Completion * ErrorHandler * Env) :=
  execute (simulateAPIRequest errorType) form h env.

(** ** [ErrorUtils.createCircuitBreaker]

    The closure's variables [failureCount], [lastFailureTime], [isOpen] as
    a record; one call of the returned function at the time [now], the
    wrapped [fn] taking [latency] milliseconds to settle as [outcome]. *)
Record Guard := mkGuard {
  g_failureCount : Z;
  g_lastFailureTime : option Z;
  g_isOpen : bool
}.

Definition guarded_call (threshold timeout : Z) (outcome : Settled) (latency : Z)
  (now : Z) (g : Guard) : Completion * Guard :=
  let blocked :=
    g_isOpen g && (now - default 0 (g_lastFailureTime g) <? timeout) in
  if blocked then (Thrown (mkError "Circuit breaker is open"), g)
  else
    let g := mkGuard (g_failureCount g) (g_lastFailureTime g) false in
    match outcome with
    | Resolve result => (Returned (Some result), mkGuard 0 (g_lastFailureTime g) (g_isOpen g))
    | Reject error =>
        let g := mkGuard (g_failureCount g + 1) (Some (now + latency)) (g_isOpen g) in
        let g := if threshold <=? g_failureCount g
                 then mkGuard (g_failureCount g) (g_lastFailureTime g) true else g in
        (Thrown error, g)
    end.

(** ** Reading a trace *)

(** The attempt indices the operation was called with, in order. *)
Definition invocations (evs : list Event) : list Z :=
  flat_map (fun ev => match ev with Invoked i _ _ => [i] | _ => [] end) evs.

(** The attempts, the calls of the operation and the backoff waits of a
    trace, in order, without the other events. *)
Definition timeline (evs : list Event) : list Event :=
  flat_map (fun ev => match ev with
                      | Attempt _ _ _ | Invoked _ _ _ | Retrying _ => [ev]
                      | _ => []
                      end) evs.

(** The backoff delays of the scheduled retries, in order. *)
Definition waits (evs : list Event) : list Z :=
  flat_map (fun ev => match ev with Retrying d => [d] | _ => [] end) evs.

(** The time an event takes: the latency of a call of the operation, the
    length of a backoff wait (a negative timer fires at once). *)
Definition busy (ev : Event) : Z :=
  match ev with
  | Invoked _ started settled => settled - started
  | Retrying d => Z.max 0 d
  | _ => 0
  end.

Definition total_busy (evs : list Event) : Z :=
  fold_right Z.add 0 (map busy evs).

(** Every backoff wait of the trace is a delay a timer takes, so that the
    timer waits for all of it. *)
Definition waits_fit_timer (evs : list Event) : Prop :=
  Forall (fun d => d <= TIMEOUT_MAX) (waits evs).

(** The breaker asked in isolation at each of the [times], in order: the
    answers of [admit()], which is [!isCircuitBreakerOpen()], and the
    handler the checks leave. *)
Fixpoint admits (times : list Z) (h : ErrorHandler) : list bool * ErrorHandler :=
  match times with
  | [] => ([], h)
  | now :: times =>
      let '(blocked, h) := isCircuitBreakerOpen now h in
      let '(answers, h) := admits times h in
      (negb blocked :: answers, h)
  end.

(** ** The notions of the statements *)

(** The classifier with the names of the specification. *)
Inductive Classification := Retryable | NonRetryable.

Definition classify (error : Error) : Classification :=
  if isRetryableError error then Retryable else NonRetryable.

(** [p] occurs in [s]. *)
Definition occurs (p s : string) : Prop :=
  exists pre post : string, s = String.append pre (String.append p post).

Definition clientCodes : list string := ["400"; "401"; "403"; "404"; "422"].
Definition transientCodes : list string := ["500"; "502"; "503"; "504"; "429"].
Definition transientWords : list string := ["timeout"; "network"; "connection"].

(** The message carries one of the client or authentication codes. *)
Definition matches_client (msg : string) : Prop :=
  exists code, In code clientCodes /\ occurs code msg.

(** The message carries one of the transient codes, or one of the transient
    words in any mix of upper and lower case. *)
Definition matches_transient (msg : string) : Prop :=
  (exists code, In code transientCodes /\ occurs code msg) \/
  (exists word, In word transientWords /\ occurs word (Js.toLowerCase msg)).

(** The operands and the result of the delay formula of the kind are safe
    integers: there the doubles of the code compute the products of [Z]. *)
Definition exact_delay (attempt baseDelay : Z) (backoffType : string) : bool :=
  Js.isSafeInteger attempt && Js.isSafeInteger baseDelay &&
  (if String.eqb backoffType "exponential" then
     Js.isSafeInteger (2 ^ attempt) && Js.isSafeInteger (baseDelay * 2 ^ attempt)
   else if String.eqb backoffType "linear" then
     Js.isSafeInteger (attempt + 1) && Js.isSafeInteger (baseDelay * (attempt + 1))
   else true).

(** The counters and the response times of the statistics, without the
    histogram of error types. *)
Definition counts (h : ErrorHandler) : Z * Z * Z * Z * list Z :=
  (totalRequests (stats h), successfulRequests (stats h),
   failedRequests (stats h), totalRetries (stats h), responseTimes (stats h)).

(** The retry policy in force. *)
Definition policy (h : ErrorHandler) : Z * Z * string :=
  (maxRetries h, baseDelay h, backoffType h).

(** The statistics balance: every counted request has been counted as a
    success or as a failure. *)
Definition balanced (h : ErrorHandler) : Prop :=
  totalRequests (stats h)
  = successfulRequests (stats h) + failedRequests (stats h).

(** The answer of [isCircuitBreakerOpen] and the breaker it leaves, as
    functions of the breaker alone. *)
Definition breaker_blocks (now : Z) (cb : CircuitBreakerState) : bool :=
  isOpen cb && negb (timeout cb <=? now - default 0 (lastFailureTime cb)).

Definition breaker_checked (now : Z) (cb : CircuitBreakerState) : CircuitBreakerState :=
  if isOpen cb && (timeout cb <=? now - default 0 (lastFailureTime cb))
  then mkBreaker false 0 None (threshold cb) (timeout cb)
  else cb.

(** The breaker [incrementCircuitBreakerFailures] leaves. *)
Definition breaker_failed (now : Z) (cb : CircuitBreakerState) : CircuitBreakerState :=
  mkBreaker (isOpen cb || (threshold cb <=? failureCount cb + 1))
            (failureCount cb + 1) (Some now) (threshold cb) (timeout cb).

(** An operation that fails at every call, with an error the classifier
    retries. *)
Definition always_fails_retryably (operation : Operation) : Prop :=
  forall (a : Z) (env : Env),
    exists e, fst (operation a env) = Reject e /\ isRetryableError e = true.

(** What one run of the loop, entered at the attempt index [a] in the
    handler [h] at the time [clock env], does when it completes as [c] in
    [h'] at [clock env'], having logged [evs].  [st] is [startTime]. *)
Definition loop_effect (operation : Operation) (st a : Z) (h : ErrorHandler) (env : Env)
  (c : Completion) (h' : ErrorHandler) (env' : Env) (evs : list Event) : Prop :=
  trace h' = (trace h ++ evs)%list /\
  clock env' - clock env = total_busy evs /\
  policy h' = policy h /\
  totalRequests (stats h') = totalRequests (stats h) /\
  totalRetries (stats h') = totalRetries (stats h) + Z.of_nat (length (waits evs)) /\
  match c with
  | Returned (Some r) =>
      successfulRequests (stats h') = successfulRequests (stats h) + 1 /\
      failedRequests (stats h') = failedRequests (stats h) /\
      responseTimes (stats h') = (responseTimes (stats h) ++ [clock env' - st])%list /\
      exists evs0 i env0,
        evs = (evs0 ++ [Invoked i (clock env0) (clock env'); Completed])%list /\
        operation i env0 = (Resolve r, env')
  | Returned None =>
      maxRetries h < a /\ evs = [] /\
      successfulRequests (stats h') = successfulRequests (stats h) /\
      failedRequests (stats h') = failedRequests (stats h) /\
      responseTimes (stats h') = responseTimes (stats h)
  | Thrown e =>
      successfulRequests (stats h') = successfulRequests (stats h) /\
      failedRequests (stats h') = failedRequests (stats h) + 1 /\
      responseTimes (stats h') = responseTimes (stats h) /\
      (exists evs0 n, evs = (evs0 ++ [Failure e; GaveUp n e])%list) /\
      (e = circuitOpenError \/
       exists i env0, operation i env0 = (Reject e, env'))
  end.

(** Unfolding of the field updates under the projections. *)
Ltac fields :=
  cbn [with_stats with_breaker with_current log updateSettings
       begin_attempt settle_current
       stats circuitBreakerState currentRequest maxRetries baseDelay
       backoffType requestTimeout trace
       isOpen failureCount lastFailureTime threshold timeout
       totalRequests successfulRequests failedRequests totalRetries
       responseTimes errorTypes
       clock draws drawn fst snd default from_option id] in *.

(** ** The rest of the handler and of [ErrorUtils] *)

(** The key of the histogram of error types:
    [error.message.split(' (')[0] || error.message]. *)
Definition errorName (error : Error) : string :=
  let head := Js.split_head " (" (message error) in
  if String.eqb head "" then message error else head.

(** [this.requestTimeout = ms] *)
Definition set_requestTimeout (ms : Z) (h : ErrorHandler) : ErrorHandler :=
  mkHandler (stats h) (circuitBreakerState h) (currentRequest h)
            (maxRetries h) (baseDelay h) (backoffType h) ms (trace h).

(** [await call;] as the last statement of an [async] method: the value
    of the call is dropped and the method returns [undefined]; what the call
    throws, the method throws. *)
Definition await_last (call : option (Completion * ErrorHandler * Env))
  : option (Completion * ErrorHandler * Env) :=
  match call with
  | Some (Returned _, h, env) => Some (Returned None, h, env)
  | Some (Thrown error, h, env) => Some (Thrown error, h, env)
  | None => None
  end.

(** [testNetworkTimeout()]; [form] is what the settings form holds. *)
Definition testNetworkTimeout (form : Settings) (h : ErrorHandler) (env : Env)
  : option (Completion * ErrorHandler * Env) :=
  await_last (makeRequestWithRetry "timeout" form h env).

(** [demonstrateTimeout()] *)
Definition demonstrateTimeout (form : Settings) (h : ErrorHandler) (env : Env)
  : option (Completion * ErrorHandler * Env) :=
  let h := set_requestTimeout 2000 h in
  await_last (testNetworkTimeout form h env).

(** The object [demonstrateFallback] returns from its [catch] block. *)
Record FallbackData := mkFallback {
  fallback_data : string;
  fallback_source : string;
  fallback_timestamp : Z;
  fallback_flag : bool
}.

(** How [demonstrateFallback] completes: [return fallbackData], the end of
    the body ([undefined]), or an error it lets through. *)
Inductive FallbackCompletion :=
| FallbackReturned (result : option FallbackData)
| FallbackThrown (error : Error).

(** [demonstrateFallback()] *)
Definition demonstrateFallback (form : Settings) (h : ErrorHandler) (env : Env)
  : option (FallbackCompletion * ErrorHandler * Env) :=
  match makeRequestWithRetry "server-error" form h env with
  | Some (Returned _, h, env) => Some (FallbackReturned None, h, env)
  | Some (Thrown error, h, env) =>
      let fallbackData :=
        mkFallback "Default cached or static data" "fallback" (clock env) true in
      Some (FallbackReturned (Some fallbackData), h, env)
  | None => None
  end.

(** Successive top-level calls on the one handler of the page, each after
    some idle time; what a call returns or throws is left to its caller. *)
Record Call := mkCall {
  call_idle : Z;
  call_request : Operation;
  call_form : Settings
}.

Fixpoint session (calls : list Call) (h : ErrorHandler) (env : Env)
  : option (ErrorHandler * Env) :=
  match calls with
  | [] => Some (h, env)
  | call :: calls =>
      match execute (call_request call) (call_form call) h
                    (sleep (call_idle call) env) with
      | Some (_, h, env) => session calls h env
      | None => None
      end
  end.

(** [ErrorUtils.retryWithBackoff(fn, maxRetries, baseDelay, backoffType)].
    [fn] takes no argument; [lastError] starts as [undefined] ([None]), so
    what is thrown in the end is an [option].  The calls of [fn] and the
    waits are collected as events. *)
Definition Thunk := Env -> Settled * Env.

Inductive Settlement :=
| Fulfilled (result : Response)
| Rejected (lastError : option Error).

Fixpoint backoff_loop (fn : Thunk) (fuel : nat) (maxRetries baseDelay : Z)
  (backoffType : string) (attempt : Z) (lastError : option Error)
  (env : Env) (evs : list Event) : option (Settlement * Env * list Event) :=
  match fuel with
  | O => None
  | S fuel =>
      if attempt <=? maxRetries then
        let '(outcome, env') := fn env in
        let evs := (evs ++ [Invoked attempt (clock env) (clock env')])%list in
        match outcome with
        | Resolve result => Some (Fulfilled result, env', evs)
        | Reject error =>
            let lastError := Some error in
            if attempt =? maxRetries then Some (Rejected lastError, env', evs)
            else
              let delay := calculateDelay attempt baseDelay backoffType in
              backoff_loop fn fuel maxRetries baseDelay backoffType (attempt + 1)
                lastError (sleep (Z.max 0 delay) env')
                (evs ++ [Retrying delay])%list
        end
      else Some (Rejected lastError, env, evs)
  end.

Definition retryWithBackoff (fn : Thunk) (maxRetries baseDelay : Z)
  (backoffType : string) (env : Env) : option (Settlement * Env * list Event) :=
  backoff_loop fn (S (Z.to_nat (maxRetries + 1))) maxRetries baseDelay backoffType
    0 None env [].

(** Successive calls of the function [ErrorUtils.createCircuitBreaker]
    returns: the time of each call, how the wrapped function would settle
    and after how long. *)
Record GuardedCall := mkGuardedCall {
  guarded_now : Z;
  guarded_outcome : Settled;
  guarded_latency : Z
}.

Definition guarded_session (threshold timeout : Z) (calls : list GuardedCall)
  (g : Guard) : Guard :=
  fold_left (fun g call =>
               snd (guarded_call threshold timeout (guarded_outcome call)
                      (guarded_latency call) (guarded_now call) g))
            calls g.

(** The consecutive indices [a], [a + 1], ... ([n] of them). *)
Definition indices (a : Z) (n : nat) : list Z :=
  map (fun i => a + Z.of_nat i) (seq 0 n).

(** The last [n] elements of a list: [l.slice(-n)]. *)
Definition last_n {A : Type} (n : nat) (l : list A) : list A :=
  skipn (length l - n) l.

(** The log as the page keeps it. *)
Module Log.

Record Entry := mkEntry { timestamp : string; message : string; type : string }.

(** [log(message, type)]: the entry is pushed, and the oldest one is
    dropped once there are more than 50; [timestamp] is the time of day the
    clock shows. *)
Definition log (timestamp message type : string) (logEntries : list Entry)
  : list Entry :=
  let logEntries := (logEntries ++ [mkEntry timestamp message type])%list in
  if (50 <? length logEntries)%nat then tl logEntries else logEntries.

(** The entries [renderLog()] shows: [this.logEntries.slice(-20)]. *)
Definition renderLog (logEntries : list Entry) : list Entry :=
  last_n 20 logEntries.

(** Logging a list of entries in order. *)
Definition log_all (entries : list Entry) (logEntries : list Entry) : list Entry :=
  fold_left (fun l e => log (timestamp e) (message e) (type e) l) entries logEntries.

End Log.

(** What the breaker keeps between calls: it is open exactly when the
    failures counted have reached the threshold; an open breaker has a time
    of last failure; threshold and timeout are those of the constructor. *)
Definition breaker_consistent (cb : CircuitBreakerState) : Prop :=
  isOpen cb = (threshold cb <=? failureCount cb) /\
  (isOpen cb = true -> lastFailureTime cb <> None) /\
  0 <= failureCount cb /\
  threshold cb = 3 /\ timeout cb = 30000.

(** The same for the guard of [ErrorUtils.createCircuitBreaker]. *)
Definition guard_consistent (threshold : Z) (g : Guard) : Prop :=
  g_isOpen g = (threshold <=? g_failureCount g) /\
  (g_isOpen g = true -> g_lastFailureTime g <> None) /\
  0 <= g_failureCount g.

(** What the statistics keep: one response time per success, no counter
    below zero, successes and failures within the requests counted. *)
Definition stats_consistent (s : Stats) : Prop :=
  Z.of_nat (length (responseTimes s)) = successfulRequests s /\
  0 <= successfulRequests s /\ 0 <= failedRequests s /\ 0 <= totalRetries s /\
  successfulRequests s + failedRequests s <= totalRequests s.

(** * Properties *)

(** ** Substring search *)

Lemma append_cons (c : ascii) (s t : string) :
  String.append (String c s) t = String c (String.append s t).
Proof. reflexivity. Qed.

Lemma append_empty (t : string) : String.append "" t = t.
Proof. reflexivity. Qed.

Lemma startsWith_spec (p s : string) :
  Js.startsWith p s = true <-> exists post, s = String.append p post.
Proof.
  revert s; induction p as [|a p IH]; intros s; simpl.
  - split; [intros _; exists s; reflexivity | reflexivity].
  - destruct s as [|b s].
    + split; [discriminate | intros [post H]; discriminate].
    + destruct (Ascii.eqb_spec a b) as [->|Hab].
      * rewrite IH. split; intros [post H]; exists post;
          rewrite append_cons in *; congruence.
      * split; [discriminate | intros [post H]].
        rewrite append_cons in H. congruence.
Qed.

Lemma includes_spec (p s : string) : Js.includes p s = true <-> occurs p s.
Proof.
  induction s as [|c s IH].
  - simpl. destruct (Js.startsWith p "") eqn:E.
    + split; [intros _ | reflexivity].
      apply startsWith_spec in E as [post E]. exists "", post. exact E.
    + split; [discriminate|]. intros [pre [post H]].
      destruct pre; [rewrite append_empty in H | discriminate].
      assert (Js.startsWith p "" = true) by (apply startsWith_spec; eauto).
      congruence.
  - simpl. destruct (Js.startsWith p (String c s)) eqn:E.
    + split; [intros _ | reflexivity].
      apply startsWith_spec in E as [post E]. exists "", post. exact E.
    + rewrite IH. split.
      * intros [pre [post H]]. exists (String c pre), post.
        rewrite append_cons. congruence.
      * intros [pre [post H]]. destruct pre as [|c' pre].
        -- rewrite append_empty in H.
           assert (Js.startsWith p (String c s) = true)
             by (apply startsWith_spec; eauto).
           congruence.
        -- rewrite append_cons in H. exists pre, post. congruence.
Qed.

Lemma test_spec (r : Js.RegExp) (s : string) :
  Js.test r s = true <->
  occurs (Js.source r) (if Js.ignoreCase r then Js.toLowerCase s else s).
Proof. unfold Js.test. destruct (Js.ignoreCase r); apply includes_spec. Qed.

(** ** The classifier *)

Lemma nonRetryable_scan (msg : string) :
  existsb (fun pattern => Js.test pattern msg) nonRetryablePatterns = true
  <-> matches_client msg.
Proof.
  rewrite existsb_exists. split.
  - intros [r [Hin Ht]]. apply test_spec in Ht.
    exists (Js.source r). split; [|].
    + simpl in Hin. unfold clientCodes.
      repeat (destruct Hin as [<-|Hin]; [simpl; tauto|]). destruct Hin.
    + simpl in Hin.
      repeat (destruct Hin as [<-|Hin]; [exact Ht|]). destruct Hin.
  - intros [code [Hin Hocc]].
    exists {| Js.source := code; Js.ignoreCase := false |}. split.
    + unfold clientCodes in Hin. simpl in Hin |- *.
      repeat (destruct Hin as [<-|Hin]; [tauto|]). destruct Hin.
    + apply test_spec. exact Hocc.
Qed.

Lemma retryable_scan (msg : string) :
  existsb (fun pattern => Js.test pattern msg) retryablePatterns = true
  <-> matches_transient msg.
Proof.
  rewrite existsb_exists. split.
  - intros [r [Hin Ht]]. apply test_spec in Ht. simpl in Hin.
    unfold matches_transient, transientCodes, transientWords.
    repeat (destruct Hin as [<-|Hin];
            [simpl in Ht;
             first [ left; eexists; split; [|exact Ht]; simpl; tauto
                   | right; eexists; split; [|exact Ht]; simpl; tauto ]|]).
    destruct Hin.
  - intros [[code [Hin Hocc]]|[word [Hin Hocc]]].
    + exists {| Js.source := code; Js.ignoreCase := false |}. split.
      * unfold transientCodes in Hin. simpl in Hin |- *.
        repeat (destruct Hin as [<-|Hin]; [tauto|]). destruct Hin.
      * apply test_spec. exact Hocc.
    + exists {| Js.source := word; Js.ignoreCase := true |}. split.
      * unfold transientWords in Hin. simpl in Hin |- *.
        repeat (destruct Hin as [<-|Hin]; [tauto|]). destruct Hin.
      * apply test_spec. exact Hocc.
Qed.

(** C5.  The classifier is a total function into the two classes.  A
    message that carries one of the codes 400, 401, 403, 404, 422 is
    non-retryable whether or not it also matches the transient set
    (timeout, 429, 500, 502, 503, 504, network, connection): the
    non-retryable patterns are scanned first.  A message that matches
    neither set is non-retryable, and one that matches only the transient
    set is retryable. *)
Theorem classify_total_client_first (error : Error) :
  (exists! c, classify error = c) /\
  (matches_client (message error) -> classify error = NonRetryable) /\
  (~ matches_client (message error) -> ~ matches_transient (message error) ->
   classify error = NonRetryable) /\
  (~ matches_client (message error) -> matches_transient (message error) ->
   classify error = Retryable).
Proof.
  unfold classify, isRetryableError.
  pose proof (nonRetryable_scan (message error)) as Hc.
  pose proof (retryable_scan (message error)) as Ht.
  destruct (existsb _ nonRetryablePatterns);
    destruct (existsb _ retryablePatterns);
    (split; [eexists; split; [reflexivity | intros ? <-; reflexivity] |]);
    repeat split; intros; try reflexivity; exfalso; intuition congruence.
Qed.

(** A message with a client code and a transient word, and one with
    neither, both end as non-retryable; a message with only a transient
    code is retryable. *)
Lemma classify_total_client_first_witness :
  classify (mkError "Gateway Timeout (504) after 404") = NonRetryable /\
  classify (mkError "Circuit breaker is open - blocking request") = NonRetryable /\
  classify (mkError "Too Many Requests (429)") = Retryable.
Proof.
  split; [|split].
  - apply (proj1 (proj2 (classify_total_client_first
                           (mkError "Gateway Timeout (504) after 404")))).
    exists "404". split; [simpl; tauto|]. apply includes_spec. reflexivity.
  - apply (proj1 (proj2 (proj2 (classify_total_client_first circuitOpenError)))).
    + intros H. apply nonRetryable_scan in H. discriminate H.
    + intros H. apply retryable_scan in H. discriminate H.
  - apply (proj2 (proj2 (proj2 (classify_total_client_first
                                  (mkError "Too Many Requests (429)"))))).
    + intros H. apply nonRetryable_scan in H. discriminate H.
    + left. exists "429". split; [simpl; tauto|]. apply includes_spec. reflexivity.
Defined.

Lemma circuitOpenError_not_retryable : isRetryableError circuitOpenError = false.
Proof. reflexivity. Qed.

(** ** Backoff *)

Lemma calculateDelay_nonneg (a b : Z) (kind : string) :
  0 <= a -> 0 <= b -> 0 <= calculateDelay a b kind.
Proof.
  intros Ha Hb. unfold calculateDelay.
  destruct (String.eqb kind "exponential"); [nia|].
  destruct (String.eqb kind "linear"); [nia|].
  destruct (String.eqb kind "fixed"); lia.
Qed.

Lemma calculateBackoffDelay_policy (h : ErrorHandler) (a : Z) :
  calculateBackoffDelay h a = calculateDelay a (baseDelay h) (backoffType h).
Proof. reflexivity. Qed.

Lemma calculateDelay_grows (a b : Z) (kind : string) :
  0 <= a -> 0 <= b -> calculateDelay a b kind <= calculateDelay (a + 1) b kind.
Proof.
  intros Ha Hb. unfold calculateDelay.
  assert (Hpow : 2 ^ (a + 1) = 2 * 2 ^ a) by (rewrite Z.pow_add_r by lia; lia).
  assert (Hpos : 0 < 2 ^ a) by (apply Z.pow_pos_nonneg; lia).
  destruct (String.eqb kind "exponential"); [rewrite Hpow; nia|].
  destruct (String.eqb kind "linear"); [nia|].
  destruct (String.eqb kind "fixed"); lia.
Qed.

Lemma isSafeInteger_iff (x : Z) :
  Js.isSafeInteger x = true <-> - Js.MAX_SAFE_INTEGER <= x <= Js.MAX_SAFE_INTEGER.
Proof. unfold Js.isSafeInteger. rewrite Z.leb_le. lia. Qed.

Lemma exact_delay_safe (a b : Z) (kind : string) :
  exact_delay a b kind = true -> Js.isSafeInteger (calculateDelay a b kind) = true.
Proof.
  unfold exact_delay, calculateDelay. intros H.
  apply andb_prop in H as (Hab & H). apply andb_prop in Hab as (Ha & Hb).
  destruct (String.eqb kind "exponential");
    [apply andb_prop in H as (_ & H); exact H|].
  destruct (String.eqb kind "linear");
    [apply andb_prop in H as (_ & H); exact H|].
  destruct (String.eqb kind "fixed"); exact Hb.
Qed.

Lemma exact_delay_before (a b : Z) (kind : string) :
  0 <= a -> 0 <= b ->
  exact_delay (a + 1) b kind = true -> exact_delay a b kind = true.
Proof.
  intros Ha Hb. unfold exact_delay. intros H.
  assert (Hpow : 2 ^ (a + 1) = 2 * 2 ^ a) by (rewrite Z.pow_add_r by lia; lia).
  assert (Hpos : 0 < 2 ^ a) by (apply Z.pow_pos_nonneg; lia).
  apply andb_prop in H as (Hab & H). apply andb_prop in Hab as (Ha1 & Hb1).
  apply isSafeInteger_iff in Ha1.
  apply andb_true_intro. split.
  { apply andb_true_intro. split; [apply isSafeInteger_iff; lia | exact Hb1]. }
  destruct (String.eqb kind "exponential").
  { apply andb_prop in H as (H1 & H2).
    apply isSafeInteger_iff in H1. apply isSafeInteger_iff in H2.
    apply andb_true_intro. split; apply isSafeInteger_iff; nia. }
  destruct (String.eqb kind "linear"); [|reflexivity].
  apply andb_prop in H as (H1 & H2).
  apply isSafeInteger_iff in H1. apply isSafeInteger_iff in H2.
  apply andb_true_intro. split; apply isSafeInteger_iff; nia.
Qed.

(** C6.  For an attempt index and a base delay that are not negative, and
    such that the operands and the result of the formula are integers a
    double holds exactly (below 2 ^ 53), the delay is
    [baseDelay * 2 ^ attemptIndex] for the kind exponential,
    [baseDelay * (attemptIndex + 1)] for linear, [baseDelay] for fixed and
    for every other kind.  The method of the handler and the function of
    [ErrorUtils] agree, the result is not negative and is again such an
    integer, and it depends on nothing but the index, the base delay and the
    kind. *)
Theorem calculateBackoffDelay_by_kind (h : ErrorHandler) (attemptIndex : Z) :
  0 <= attemptIndex -> 0 <= baseDelay h ->
  exact_delay attemptIndex (baseDelay h) (backoffType h) = true ->
  (backoffType h = "exponential" ->
   calculateBackoffDelay h attemptIndex = baseDelay h * 2 ^ attemptIndex) /\
  (backoffType h = "linear" ->
   calculateBackoffDelay h attemptIndex = baseDelay h * (attemptIndex + 1)) /\
  (backoffType h = "fixed" ->
   calculateBackoffDelay h attemptIndex = baseDelay h) /\
  (backoffType h <> "exponential" -> backoffType h <> "linear" ->
   calculateBackoffDelay h attemptIndex = baseDelay h) /\
  calculateBackoffDelay h attemptIndex
    = calculateDelay attemptIndex (baseDelay h) (backoffType h) /\
  0 <= calculateBackoffDelay h attemptIndex /\
  Js.isSafeInteger (calculateBackoffDelay h attemptIndex) = true /\
  (forall h' : ErrorHandler,
     baseDelay h' = baseDelay h -> backoffType h' = backoffType h ->
     calculateBackoffDelay h' attemptIndex = calculateBackoffDelay h attemptIndex).
Proof.
  intros Ha Hb Hexact.
  pose proof (exact_delay_safe _ _ _ Hexact) as Hsafe.
  rewrite <- calculateBackoffDelay_policy in Hsafe.
  unfold calculateBackoffDelay, calculateDelay in *.
  repeat split.
  - intros ->. reflexivity.
  - intros ->. reflexivity.
  - intros ->. reflexivity.
  - intros H1 H2.
    destruct (String.eqb_spec (backoffType h) "exponential"); [congruence|].
    destruct (String.eqb_spec (backoffType h) "linear"); [congruence|].
    destruct (String.eqb (backoffType h) "fixed"); reflexivity.
  - destruct (String.eqb (backoffType h) "exponential"); [nia|].
    destruct (String.eqb (backoffType h) "linear"); [nia|].
    destruct (String.eqb (backoffType h) "fixed"); lia.
  - exact Hsafe.
  - intros h' -> ->. reflexivity.
Qed.

(** The default settings at the third retry, and a kind the code does not
    know. *)
Lemma calculateBackoffDelay_by_kind_witness :
  calculateBackoffDelay new_ErrorHandler 2 = 1000 * 2 ^ 2 /\
  calculateBackoffDelay
    (updateSettings (mkSettings 3 250 "fibonacci" 5000) new_ErrorHandler) 5 = 250.
Proof.
  split.
  - apply (proj1 (calculateBackoffDelay_by_kind new_ErrorHandler 2
                    ltac:(lia) ltac:(simpl; lia) eq_refl)).
    reflexivity.
  - apply (proj1 (proj2 (proj2 (proj2
             (calculateBackoffDelay_by_kind
                (updateSettings (mkSettings 3 250 "fibonacci" 5000) new_ErrorHandler)
                5 ltac:(lia) ltac:(simpl; lia) eq_refl))))); simpl; discriminate.
Defined.

(** ** The circuit breaker in isolation *)

Lemma increment_breaker (now : Z) (h : ErrorHandler) :
  circuitBreakerState (incrementCircuitBreakerFailures now h)
  = let cb := circuitBreakerState h in
    mkBreaker (isOpen cb || (threshold cb <=? failureCount cb + 1))
              (failureCount cb + 1) (Some now) (threshold cb) (timeout cb).
Proof.
  unfold incrementCircuitBreakerFailures. fields.
  destruct (threshold (circuitBreakerState h) <=? _); fields;
    rewrite ?orb_true_r, ?orb_false_r; reflexivity.
Qed.

Lemma increment_trace (now : Z) (h : ErrorHandler) :
  trace (incrementCircuitBreakerFailures now h)
  = (trace h ++
     if threshold (circuitBreakerState h) <=? failureCount (circuitBreakerState h) + 1
     then [Opened (failureCount (circuitBreakerState h) + 1)] else [])%list.
Proof.
  unfold incrementCircuitBreakerFailures. fields.
  destruct (threshold (circuitBreakerState h) <=? _); fields;
    rewrite ?app_nil_r; reflexivity.
Qed.

Lemma increment_frame (now : Z) (h : ErrorHandler) :
  stats (incrementCircuitBreakerFailures now h) = stats h /\
  maxRetries (incrementCircuitBreakerFailures now h) = maxRetries h /\
  baseDelay (incrementCircuitBreakerFailures now h) = baseDelay h /\
  backoffType (incrementCircuitBreakerFailures now h) = backoffType h.
Proof.
  unfold incrementCircuitBreakerFailures. fields.
  destruct (threshold (circuitBreakerState h) <=? _); fields; auto.
Qed.

Lemma isCircuitBreakerOpen_breaker (now : Z) (h : ErrorHandler) :
  fst (isCircuitBreakerOpen now h) = breaker_blocks now (circuitBreakerState h) /\
  circuitBreakerState (snd (isCircuitBreakerOpen now h))
  = breaker_checked now (circuitBreakerState h).
Proof.
  unfold isCircuitBreakerOpen, breaker_blocks, breaker_checked, resetCircuitBreaker.
  destruct (isOpen (circuitBreakerState h)); [|split; reflexivity].
  destruct (timeout (circuitBreakerState h) <=? _); split; reflexivity.
Qed.

Lemma breaker_checked_closed (now fc : Z) (last : option Z) (thr to : Z) :
  breaker_checked now (mkBreaker false fc last thr to) = mkBreaker false fc last thr to.
Proof. reflexivity. Qed.

Lemma breaker_failed_closed (now fc : Z) (last : option Z) (thr to : Z) :
  breaker_failed now (mkBreaker false fc last thr to)
  = mkBreaker (thr <=? fc + 1) (fc + 1) (Some now) thr to.
Proof. reflexivity. Qed.

Lemma admits_closed (times : list Z) (h : ErrorHandler) :
  isOpen (circuitBreakerState h) = false ->
  admits times h = (repeat true (length times), h).
Proof.
  intros Hclosed. induction times as [|now times IH]; [reflexivity|].
  simpl. unfold isCircuitBreakerOpen. rewrite Hclosed, IH. reflexivity.
Qed.

Lemma admits_open (times : list Z) (h : ErrorHandler) (last : Z) :
  isOpen (circuitBreakerState h) = true ->
  lastFailureTime (circuitBreakerState h) = Some last ->
  Forall (fun now => now - last < timeout (circuitBreakerState h)) times ->
  admits times h = (repeat false (length times), h).
Proof.
  intros Hopen Hlast. induction 1 as [|now times Hnow _ IH]; [reflexivity|].
  simpl. unfold isCircuitBreakerOpen. rewrite Hopen, Hlast. simpl.
  apply Z.leb_gt in Hnow. rewrite Hnow, IH. reflexivity.
Qed.

(** C4.  Three failures in a row on a closed breaker (threshold 3) open
    it.  From then on every [admit()] asked less than 30000 ms after the
    last failure is refused, however many are asked, and leaves the breaker
    as it is; the first one asked 30000 ms or more after the last failure is
    granted.  Once a success is then recorded, [failureCount] is 0 and every
    later [admit()] is granted. *)
Theorem breaker_trips_and_recovers (h : ErrorHandler) (t1 t2 t3 : Z) :
  isOpen (circuitBreakerState h) = false ->
  0 <= failureCount (circuitBreakerState h) ->
  threshold (circuitBreakerState h) = 3 ->
  timeout (circuitBreakerState h) = 30000 ->
  let tripped :=
    incrementCircuitBreakerFailures t3
      (incrementCircuitBreakerFailures t2
         (incrementCircuitBreakerFailures t1 h)) in
  isOpen (circuitBreakerState tripped) = true /\
  lastFailureTime (circuitBreakerState tripped) = Some t3 /\
  (forall times : list Z,
     Forall (fun now => now - t3 < 30000) times ->
     admits times tripped = (repeat false (length times), tripped)) /\
  (forall now : Z,
     30000 <= now - t3 ->
     exists trial,
       isCircuitBreakerOpen now tripped = (false, trial) /\
       failureCount (circuitBreakerState (resetCircuitBreaker trial)) = 0 /\
       forall times : list Z,
         admits times (resetCircuitBreaker trial)
         = (repeat true (length times), resetCircuitBreaker trial)).
Proof.
  intros Hclosed Hcount Hthr Hto tripped.
  assert (Hcb : circuitBreakerState tripped
                = mkBreaker true (failureCount (circuitBreakerState h) + 1 + 1 + 1)
                            (Some t3) 3 30000).
  { subst tripped. rewrite !increment_breaker. fields.
    rewrite Hthr, Hto. f_equal.
    replace (3 <=? failureCount (circuitBreakerState h) + 1 + 1 + 1) with true
      by (symmetry; apply Z.leb_le; lia).
    apply orb_true_r. }
  split; [rewrite Hcb; reflexivity|]. split; [rewrite Hcb; reflexivity|]. split.
  - intros times Hbefore. apply admits_open with (last := t3).
    + rewrite Hcb; reflexivity.
    + rewrite Hcb; reflexivity.
    + rewrite Hcb. exact Hbefore.
  - intros now Hnow. unfold isCircuitBreakerOpen. rewrite Hcb. fields.
    apply Z.leb_le in Hnow. rewrite Hnow.
    eexists. split; [reflexivity|]. split; [reflexivity|].
    intros times. apply admits_closed. reflexivity.
Qed.

(** A new handler, failures at 100, 200 and 300 ms. *)
Lemma breaker_trips_and_recovers_witness :
  admits [300; 15000; 30299]
    (incrementCircuitBreakerFailures 300
       (incrementCircuitBreakerFailures 200
          (incrementCircuitBreakerFailures 100 new_ErrorHandler)))
  = ([false; false; false],
     incrementCircuitBreakerFailures 300
       (incrementCircuitBreakerFailures 200
          (incrementCircuitBreakerFailures 100 new_ErrorHandler))).
Proof.
  apply (proj1 (proj2 (proj2
           (breaker_trips_and_recovers new_ErrorHandler 100 200 300
              eq_refl ltac:(simpl; lia) eq_refl eq_refl))) [300; 15000; 30299]).
  repeat constructor; lia.
Defined.

(** ** Traces *)

Lemma total_busy_app (evs1 evs2 : list Event) :
  total_busy (evs1 ++ evs2) = total_busy evs1 + total_busy evs2.
Proof.
  unfold total_busy. induction evs1 as [|ev evs1 IH]; simpl; [reflexivity|].
  rewrite IH. lia.
Qed.

Lemma waits_app (evs1 evs2 : list Event) :
  waits (evs1 ++ evs2) = (waits evs1 ++ waits evs2)%list.
Proof. apply flat_map_app. Qed.

Lemma invocations_app (evs1 evs2 : list Event) :
  invocations (evs1 ++ evs2) = (invocations evs1 ++ invocations evs2)%list.
Proof. apply flat_map_app. Qed.

Lemma timeline_app (evs1 evs2 : list Event) :
  timeline (evs1 ++ evs2) = (timeline evs1 ++ timeline evs2)%list.
Proof. apply flat_map_app. Qed.

Lemma invocations_timeline (evs : list Event) :
  invocations (timeline evs) = invocations evs.
Proof.
  induction evs as [|ev evs IH]; [reflexivity|].
  destruct ev; simpl; rewrite <- ?IH; reflexivity.
Qed.

Lemma waits_timeline (evs : list Event) : waits (timeline evs) = waits evs.
Proof.
  induction evs as [|ev evs IH]; [reflexivity|].
  destruct ev; simpl; rewrite <- ?IH; reflexivity.
Qed.

Create Rewrite HintDb readers.
#[local] Hint Rewrite total_busy_app waits_app invocations_app timeline_app : readers.

(** ** The blocks of the retry loop *)

Lemma counts_inv (h1 h2 : ErrorHandler) :
  counts h1 = counts h2 ->
  totalRequests (stats h1) = totalRequests (stats h2) /\
  successfulRequests (stats h1) = successfulRequests (stats h2) /\
  failedRequests (stats h1) = failedRequests (stats h2) /\
  totalRetries (stats h1) = totalRetries (stats h2) /\
  responseTimes (stats h1) = responseTimes (stats h2).
Proof. unfold counts. intros [= -> -> -> -> ->]. repeat split. Qed.

Lemma policy_inv (h1 h2 : ErrorHandler) :
  policy h1 = policy h2 ->
  maxRetries h1 = maxRetries h2 /\ baseDelay h1 = baseDelay h2 /\
  backoffType h1 = backoffType h2.
Proof. unfold policy. intros [= -> -> ->]. repeat split. Qed.

Lemma counts_is (h : ErrorHandler) (q s f r : Z) (times : list Z) :
  counts h = (q, s, f, r, times) ->
  totalRequests (stats h) = q /\ successfulRequests (stats h) = s /\
  failedRequests (stats h) = f /\ totalRetries (stats h) = r /\
  responseTimes (stats h) = times.
Proof. unfold counts. intros [= -> -> -> -> ->]. repeat split. Qed.

Lemma policy_is (h : ErrorHandler) (m b : Z) (kind : string) :
  policy h = (m, b, kind) ->
  maxRetries h = m /\ baseDelay h = b /\ backoffType h = kind.
Proof. unfold policy. intros [= -> -> ->]. repeat split. Qed.

(** What [isCircuitBreakerOpen] leaves alone. *)
Lemma isCircuitBreakerOpen_frame (now : Z) (h : ErrorHandler) :
  counts (snd (isCircuitBreakerOpen now h)) = counts h /\
  policy (snd (isCircuitBreakerOpen now h)) = policy h /\
  exists evs, trace (snd (isCircuitBreakerOpen now h)) = (trace h ++ evs)%list /\
              total_busy evs = 0 /\ waits evs = [] /\ timeline evs = [].
Proof.
  unfold isCircuitBreakerOpen, resetCircuitBreaker.
  destruct (isOpen (circuitBreakerState h)).
  - destruct (timeout (circuitBreakerState h) <=? _); fields.
    + repeat split. exists [HalfOpened]. repeat split.
    + repeat split. exists []. rewrite app_nil_r. repeat split.
  - fields. repeat split. exists []. rewrite app_nil_r. repeat split.
Qed.

(** The [catch] block before its [if]: only the histogram and the breaker
    change. *)
Lemma on_error_frame (error : Error) (h : ErrorHandler) (env : Env) :
  counts (on_error error h env) = counts h /\
  policy (on_error error h env) = policy h /\
  exists evs, trace (on_error error h env) = (trace h ++ evs ++ [Failure error])%list /\
              total_busy evs = 0 /\ waits evs = [] /\ timeline evs = [].
Proof.
  unfold on_error.
  set (h0 := with_stats _ h).
  pose proof (increment_frame (clock env) h0) as (Hs & Hm & Hb & Hk).
  pose proof (increment_trace (clock env) h0) as Ht.
  unfold counts, policy. fields. rewrite Hs, Hm, Hb, Hk, Ht.
  subst h0. fields. repeat split.
  eexists. rewrite <- app_assoc. split; [reflexivity|].
  destruct (_ <=? _); repeat split; reflexivity.
Qed.

Lemma on_error_breaker (error : Error) (h : ErrorHandler) (env : Env) :
  circuitBreakerState (on_error error h env)
  = breaker_failed (clock env) (circuitBreakerState h).
Proof. unfold on_error. fields. rewrite increment_breaker. reflexivity. Qed.

(** ** The retry loop around an arbitrary operation *)

Section RetryLoop.

Variable operation : Operation.

(** The first part of the [try] block: the statistics and the policy are
    untouched, the trace grows by the attempt and, when the breaker lets
    the request through, by one call of the operation. *)
Lemma attempt_request_frame (a : Z)
  (h : ErrorHandler) (env : Env) (o : Settled) (h1 : ErrorHandler) (env1 : Env) :
  attempt_request operation a h env = (o, h1, env1) ->
  counts h1 = counts h /\ policy h1 = policy h /\
  exists evs, trace h1 = (trace h ++ evs)%list /\
              total_busy evs = clock env1 - clock env /\ waits evs = [] /\
              match o with
              | Resolve r =>
                  exists evs0 env0,
                    evs = (evs0 ++ [Invoked a (clock env0) (clock env1)])%list /\
                    operation a env0 = (Resolve r, env1)
              | Reject e =>
                  e = circuitOpenError \/
                  exists env0, operation a env0 = (Reject e, env1)
              end.
Proof.
  unfold attempt_request.
  set (first := Attempt (a + 1) (maxRetries (with_current (begin_attempt (a + 1)) h) + 1)
                        (clock env)).
  set (h0 := log first (with_current _ h)).
  assert (Hc0 : counts h0 = counts h) by reflexivity.
  assert (Hp0 : policy h0 = policy h) by reflexivity.
  assert (Ht0 : trace h0 = (trace h ++ [first])%list) by reflexivity.
  pose proof (isCircuitBreakerOpen_frame (clock env) h0)
    as (Hc & Hp & evs & Ht & Hb & Hw & _).
  destruct (isCircuitBreakerOpen (clock env) h0) as [blocked h0'].
  cbn [snd] in *. rewrite Hc0 in Hc. rewrite Hp0 in Hp. rewrite Ht0 in Ht.
  clearbody h0. destruct blocked.
  - intros [= <- <- <-]. split; [exact Hc|]. split; [exact Hp|].
    exists ([first] ++ evs)%list. rewrite Ht, <- app_assoc.
    split; [reflexivity|]. rewrite total_busy_app, waits_app, Hb, Hw.
    split; [unfold total_busy; simpl; lia|].
    split; [reflexivity|]. left; reflexivity.
  - destruct (operation a env) as [o' env'] eqn:Eop.
    intros [= <- <- <-]. split; [exact Hc|]. split; [exact Hp|].
    exists ([first] ++ evs ++ [Invoked a (clock env) (clock env')])%list.
    fields. rewrite Ht, <- !app_assoc. split; [reflexivity|].
    rewrite !total_busy_app, !waits_app, Hb, Hw.
    split; [unfold total_busy; simpl; lia|].
    split; [reflexivity|]. destruct o'.
    + exists ([first] ++ evs)%list, env. rewrite <- app_assoc. split; [reflexivity|assumption].
    + right. exists env. assumption.
Qed.

(** The [try] block when the breaker lets the request through. *)
Lemma attempt_request_admitted (a : Z)
  (h : ErrorHandler) (env : Env) (o : Settled) (env1 : Env) :
  breaker_blocks (clock env) (circuitBreakerState h) = false ->
  operation a env = (o, env1) ->
  exists h1 evs,
    attempt_request operation a h env = (o, h1, env1) /\
    counts h1 = counts h /\ policy h1 = policy h /\
    circuitBreakerState h1 = breaker_checked (clock env) (circuitBreakerState h) /\
    trace h1 = (trace h ++ evs)%list /\
    timeline evs = [Attempt (a + 1) (maxRetries h + 1) (clock env);
                    Invoked a (clock env) (clock env1)].
Proof.
  intros Hadmit Hop. unfold attempt_request.
  set (first := Attempt _ _ _).
  set (h0 := log first (with_current _ h)).
  pose proof (isCircuitBreakerOpen_frame (clock env) h0) as (Hc & Hp & evs & Ht & _ & _ & Htl).
  pose proof (isCircuitBreakerOpen_breaker (clock env) h0) as (Hb1 & Hb2).
  change (circuitBreakerState h0) with (circuitBreakerState h) in Hb1, Hb2.
  rewrite Hadmit in Hb1.
  destruct (isCircuitBreakerOpen (clock env) h0) as [blocked h0'].
  cbn [fst snd] in *. subst blocked. rewrite Hop.
  exists (log (Invoked a (clock env) (clock env1)) h0'),
         ([first] ++ evs ++ [Invoked a (clock env) (clock env1)])%list.
  split; [reflexivity|]. split; [exact Hc|]. split; [exact Hp|].
  split; [exact Hb2|]. fields. rewrite Ht. subst h0. fields.
  rewrite <- !app_assoc. split; [reflexivity|].
  rewrite !timeline_app, Htl. reflexivity.
Qed.

(** The [try] block when the breaker blocks: the operation is not called. *)
Lemma attempt_request_blocked (a : Z)
  (h : ErrorHandler) (env : Env) :
  breaker_blocks (clock env) (circuitBreakerState h) = true ->
  exists h1 evs,
    attempt_request operation a h env = (Reject circuitOpenError, h1, env) /\
    counts h1 = counts h /\ policy h1 = policy h /\
    circuitBreakerState h1 = circuitBreakerState h /\
    trace h1 = (trace h ++ evs)%list /\
    timeline evs = [Attempt (a + 1) (maxRetries h + 1) (clock env)].
Proof.
  intros Hblock. unfold attempt_request.
  set (first := Attempt _ _ _).
  set (h0 := log first (with_current _ h)).
  pose proof (isCircuitBreakerOpen_breaker (clock env) h0) as (Hb1 & _).
  change (circuitBreakerState h0) with (circuitBreakerState h) in Hb1.
  rewrite Hblock in Hb1.
  unfold isCircuitBreakerOpen in *.
  change (circuitBreakerState h0) with (circuitBreakerState h) in *.
  destruct (isOpen (circuitBreakerState h)); [|discriminate Hb1].
  destruct (timeout (circuitBreakerState h) <=? _); [discriminate Hb1|].
  exists h0, [first]. repeat split.
Qed.

(** With fuel for the iterations that remain, the loop completes, and in
    one of three ways: it returns the result of a call that resolved, it
    throws the error of its last attempt, or it was never entered. *)
Lemma retry_loop_completes (fuel : nat) :
  forall (st a : Z) (h : ErrorHandler) (env : Env),
    (Z.to_nat (maxRetries h + 1 - a) < fuel)%nat ->
    exists c h' env' evs,
      retry_loop operation fuel st a h env = Some (c, h', env') /\
      loop_effect operation st a h env c h' env' evs.
Proof.
  induction fuel as [|fuel IH]; intros st a h env Hfuel; [lia|].
  cbn [retry_loop]. destruct (Z.leb_spec a (maxRetries h)) as [Hle|Hgt].
  2:{ exists (Returned None), h, env, []. split; [reflexivity|].
      unfold loop_effect. rewrite app_nil_r, Z.sub_diag. cbn.
      repeat split; try lia. }
  destruct (attempt_request operation a h env) as [[o h1] env1] eqn:Ereq.
  apply attempt_request_frame in Ereq as (Hc1 & Hp1 & evs1 & Ht1 & Hb1 & Hw1 & Hres).
  apply counts_inv in Hc1 as (Hc1a & Hc1b & Hc1c & Hc1d & Hc1e).
  destruct o as [result|error].
  - (* the request resolved *)
    exists (Returned (Some result)), (on_success st h1 env1), env1,
           (evs1 ++ [Completed])%list.
    split; [reflexivity|]. unfold loop_effect, on_success, resetCircuitBreaker.
    fields. rewrite Ht1, Hc1a, Hc1b, Hc1c, Hc1d, Hc1e, total_busy_app, waits_app, Hw1, Hb1.
    rewrite <- app_assoc. unfold policy in *. fields.
    repeat split; try (cbn; lia); try assumption.
    destruct Hres as (evs0 & env0 & -> & Hop).
    exists evs0, a, env0. rewrite <- app_assoc. split; [reflexivity|exact Hop].
  - (* the request was rejected, or the breaker blocked it *)
    pose proof (on_error_frame error h1 env1) as (Hc2 & Hp2 & evs2 & Ht2 & Hb2 & Hw2 & _).
    apply counts_inv in Hc2 as (Hc2a & Hc2b & Hc2c & Hc2d & Hc2e).
    set (h2 := on_error error h1 env1) in *.
    assert (Hmax : maxRetries h2 = maxRetries h).
    { pose proof (policy_inv _ _ Hp1) as [Hm1 _].
      pose proof (policy_inv _ _ Hp2) as [Hm2 _]. congruence. }
    rewrite Hmax.
    destruct ((a + 1 <=? maxRetries h) && isRetryableError error) eqn:Eretry.
    + (* a retry is scheduled *)
      apply andb_true_iff in Eretry as [Hnext _]. apply Z.leb_le in Hnext.
      unfold schedule_retry.
      set (d := calculateBackoffDelay _ (a + 1 - 1)).
      set (h3 := log (Retrying d) _).
      assert (Hp3 : policy h3 = policy h).
      { rewrite <- Hp1, <- Hp2. reflexivity. }
      destruct (IH st (a + 1) h3 (sleep (Z.max 0 d) env1))
        as (c & h' & env' & evs & Hrun & Ht & Hb & Hp & Hreq & Hret & Hc).
      { pose proof (policy_inv _ _ Hp3) as [-> _]. lia. }
      exists c, h', env', (evs1 ++ evs2 ++ [Failure error] ++ [Retrying d] ++ evs)%list.
      split; [exact Hrun|]. unfold loop_effect.
      rewrite Ht, Hp, Hreq, Hret. subst h3. fields.
      rewrite Ht2, Ht1, Hc2a, Hc1a, Hc2d, Hc1d.
      rewrite !total_busy_app, !waits_app, Hw1, Hw2, Hb1, Hb2, <- Hb.
      rewrite <- !app_assoc.
      split; [reflexivity|]. split; [unfold total_busy; cbn; lia|].
      split; [exact Hp3|]. split; [reflexivity|].
      split; [cbn; lia|].
      destruct c as [[r|]|e]; fields.
      * destruct Hc as (-> & -> & -> & evs0 & i & env0 & -> & Hop).
        rewrite Hc2b, Hc1b, Hc2c, Hc1c, Hc2e, Hc1e. repeat split.
        exists (evs1 ++ evs2 ++ [Failure error] ++ [Retrying d] ++ evs0)%list, i, env0.
        rewrite <- !app_assoc. split; [reflexivity|exact Hop].
      * destruct Hc as (Hc & _). lia.
      * destruct Hc as (-> & -> & -> & (evs0 & n & ->) & Hsrc).
        rewrite Hc2b, Hc1b, Hc2c, Hc1c, Hc2e, Hc1e. repeat split; [|exact Hsrc].
        exists (evs1 ++ evs2 ++ [Failure error] ++ [Retrying d] ++ evs0)%list, n.
        rewrite <- !app_assoc. reflexivity.
    + (* the error is rethrown *)
      exists (Thrown error), (rethrow (a + 1) error h2), env1,
             (evs1 ++ evs2 ++ [Failure error] ++ [GaveUp (a + 1) error])%list.
      split; [reflexivity|]. unfold loop_effect, rethrow. fields.
      rewrite Ht2, Ht1, Hc2a, Hc1a, Hc2b, Hc1b, Hc2c, Hc1c, Hc2d, Hc1d, Hc2e, Hc1e.
      rewrite !total_busy_app, !waits_app, Hw1, Hw2, Hb1, Hb2.
      rewrite <- !app_assoc.
      split; [reflexivity|]. split; [unfold total_busy; cbn; lia|].
      split; [rewrite <- Hp1, <- Hp2; reflexivity|].
      repeat split; try (cbn; lia).
      * exists (evs1 ++ evs2)%list, (a + 1). rewrite <- !app_assoc. reflexivity.
      * destruct Hres as [->|[env0 Hop]]; [left; reflexivity|].
        right. exists a, env0. exact Hop.
Qed.

(** The breaker blocks: the iteration throws the breaker's error without a
    call of the operation and without a retry; the [catch] block counts the
    blocked attempt as a failure of the breaker all the same. *)
Lemma iteration_blocked (fuel : nat) (st a : Z)
  (h : ErrorHandler) (env : Env) :
  a <= maxRetries h ->
  breaker_blocks (clock env) (circuitBreakerState h) = true ->
  exists h' evs,
    retry_loop operation (S fuel) st a h env
    = Some (Thrown circuitOpenError, h', env) /\
    counts h' = (totalRequests (stats h), successfulRequests (stats h),
                 failedRequests (stats h) + 1, totalRetries (stats h),
                 responseTimes (stats h)) /\
    circuitBreakerState h' = breaker_failed (clock env) (circuitBreakerState h) /\
    trace h' = (trace h ++ evs)%list /\
    timeline evs = [Attempt (a + 1) (maxRetries h + 1) (clock env)].
Proof.
  intros Hle Hblock. cbn [retry_loop].
  apply Z.leb_le in Hle. rewrite Hle.
  destruct (attempt_request_blocked a h env Hblock)
    as (h1 & evs1 & -> & Hc1 & Hp1 & Hb1 & Ht1 & Htl1).
  pose proof (on_error_frame circuitOpenError h1 env) as (Hc2 & Hp2 & evs2 & Ht2 & _ & _ & Htl2).
  pose proof (on_error_breaker circuitOpenError h1 env) as Hb2.
  rewrite circuitOpenError_not_retryable, andb_false_r.
  set (h2 := on_error circuitOpenError h1 env) in *.
  exists (rethrow (a + 1) circuitOpenError h2),
         (evs1 ++ evs2 ++ [Failure circuitOpenError]
          ++ [GaveUp (a + 1) circuitOpenError])%list.
  split; [reflexivity|].
  apply counts_inv in Hc1 as (? & ? & ? & ? & ?).
  apply counts_inv in Hc2 as (? & ? & ? & ? & ?).
  unfold rethrow, counts. fields.
  split; [congruence|]. split; [congruence|].
  rewrite Ht2, Ht1, <- !app_assoc. split; [reflexivity|].
  autorewrite with readers. rewrite Htl1, Htl2. reflexivity.
Qed.

(** The operation is called and rejects, and the error is not retried. *)
Lemma iteration_rethrows (fuel : nat) (st a : Z)
  (h : ErrorHandler) (env : Env) (e : Error) (env1 : Env) :
  a <= maxRetries h ->
  breaker_blocks (clock env) (circuitBreakerState h) = false ->
  operation a env = (Reject e, env1) ->
  (a + 1 <=? maxRetries h) && isRetryableError e = false ->
  exists h' evs,
    retry_loop operation (S fuel) st a h env = Some (Thrown e, h', env1) /\
    counts h' = (totalRequests (stats h), successfulRequests (stats h),
                 failedRequests (stats h) + 1, totalRetries (stats h),
                 responseTimes (stats h)) /\
    circuitBreakerState h'
    = breaker_failed (clock env1)
        (breaker_checked (clock env) (circuitBreakerState h)) /\
    trace h' = (trace h ++ evs)%list /\
    timeline evs = [Attempt (a + 1) (maxRetries h + 1) (clock env);
                    Invoked a (clock env) (clock env1)].
Proof.
  intros Hle Hadmit Hop Hstop. cbn [retry_loop].
  apply Z.leb_le in Hle. rewrite Hle.
  destruct (attempt_request_admitted a h env _ env1 Hadmit Hop)
    as (h1 & evs1 & -> & Hc1 & Hp1 & Hb1 & Ht1 & Htl1).
  pose proof (on_error_frame e h1 env1) as (Hc2 & Hp2 & evs2 & Ht2 & _ & _ & Htl2).
  pose proof (on_error_breaker e h1 env1) as Hb2.
  set (h2 := on_error e h1 env1) in *.
  pose proof (policy_inv _ _ Hp1) as (Hm1 & _).
  pose proof (policy_inv _ _ Hp2) as (Hm2 & _).
  rewrite Hm2, Hm1, Hstop.
  exists (rethrow (a + 1) e h2),
         (evs1 ++ evs2 ++ [Failure e] ++ [GaveUp (a + 1) e])%list.
  split; [reflexivity|].
  apply counts_inv in Hc1 as (? & ? & ? & ? & ?).
  apply counts_inv in Hc2 as (? & ? & ? & ? & ?).
  unfold rethrow, counts. fields.
  split; [congruence|]. split; [congruence|].
  rewrite Ht2, Ht1, <- !app_assoc. split; [reflexivity|].
  autorewrite with readers. rewrite Htl1, Htl2. reflexivity.
Qed.

(** The operation is called and rejects, and a retry is scheduled: the
    loop goes on after the backoff wait. *)
Lemma iteration_retries (fuel : nat) (st a : Z)
  (h : ErrorHandler) (env : Env) (e : Error) (env1 : Env) :
  breaker_blocks (clock env) (circuitBreakerState h) = false ->
  operation a env = (Reject e, env1) ->
  a + 1 <= maxRetries h -> isRetryableError e = true ->
  exists h2 evs,
    retry_loop operation (S fuel) st a h env
    = retry_loop operation fuel st (a + 1) h2
        (sleep (Z.max 0 (calculateBackoffDelay h a)) env1) /\
    policy h2 = policy h /\
    counts h2 = (totalRequests (stats h), successfulRequests (stats h),
                 failedRequests (stats h), totalRetries (stats h) + 1,
                 responseTimes (stats h)) /\
    circuitBreakerState h2
    = breaker_failed (clock env1)
        (breaker_checked (clock env) (circuitBreakerState h)) /\
    trace h2 = (trace h ++ evs)%list /\
    timeline evs = [Attempt (a + 1) (maxRetries h + 1) (clock env);
                    Invoked a (clock env) (clock env1);
                    Retrying (calculateBackoffDelay h a)].
Proof.
  intros Hadmit Hop Hnext Hretry. cbn [retry_loop].
  assert (Hle : (a <=? maxRetries h) = true) by (apply Z.leb_le; lia).
  rewrite Hle.
  destruct (attempt_request_admitted a h env _ env1 Hadmit Hop)
    as (h1 & evs1 & -> & Hc1 & Hp1 & Hb1 & Ht1 & Htl1).
  pose proof (on_error_frame e h1 env1) as (Hc2 & Hp2 & evs2 & Ht2 & _ & _ & Htl2).
  pose proof (on_error_breaker e h1 env1) as Hb2.
  set (h2 := on_error e h1 env1) in *.
  pose proof (policy_inv _ _ Hp1) as (Hm1 & Hd1 & Hk1).
  pose proof (policy_inv _ _ Hp2) as (Hm2 & Hd2 & Hk2).
  apply Z.leb_le in Hnext. rewrite Hm2, Hm1, Hnext, Hretry. cbn [andb].
  unfold schedule_retry.
  replace (a + 1 - 1) with a by lia.
  set (d := calculateBackoffDelay _ a).
  assert (Hd : d = calculateBackoffDelay h a).
  { subst d. rewrite !calculateBackoffDelay_policy. fields. congruence. }
  clearbody d. subst d.
  eexists. exists (evs1 ++ evs2 ++ [Failure e]
                   ++ [Retrying (calculateBackoffDelay h a)])%list.
  split; [reflexivity|].
  apply counts_inv in Hc1 as (? & ? & ? & ? & ?).
  apply counts_inv in Hc2 as (? & ? & ? & ? & ?).
  unfold counts, policy. fields.
  split; [congruence|]. split; [congruence|]. split; [congruence|].
  rewrite Ht2, Ht1, <- !app_assoc. split; [reflexivity|].
  autorewrite with readers. rewrite Htl1, Htl2. reflexivity.
Qed.

(** A call always completes; what it leaves behind, by the way it
    completes. *)
Lemma execute_completes (form : Settings)
  (h : ErrorHandler) (env : Env) :
  exists c h' env' evs,
    execute operation form h env = Some (c, h', env') /\
    trace h' = (trace h ++ evs)%list /\
    clock env' - clock env = total_busy evs /\
    totalRequests (stats h') = totalRequests (stats h) + 1 /\
    totalRetries (stats h')
    = totalRetries (stats h) + Z.of_nat (length (waits evs)) /\
    match c with
    | Returned (Some r) =>
        successfulRequests (stats h') = successfulRequests (stats h) + 1 /\
        failedRequests (stats h') = failedRequests (stats h) /\
        responseTimes (stats h')
        = (responseTimes (stats h) ++ [clock env' - clock env])%list /\
        exists evs0 i env0,
          evs = (evs0 ++ [Invoked i (clock env0) (clock env'); Completed])%list /\
          operation i env0 = (Resolve r, env')
    | Returned None =>
        form_maxRetries form < 0 /\ evs = [] /\
        successfulRequests (stats h') = successfulRequests (stats h) /\
        failedRequests (stats h') = failedRequests (stats h) /\
        responseTimes (stats h') = responseTimes (stats h)
    | Thrown e =>
        successfulRequests (stats h') = successfulRequests (stats h) /\
        failedRequests (stats h') = failedRequests (stats h) + 1 /\
        responseTimes (stats h') = responseTimes (stats h) /\
        (exists evs0 n, evs = (evs0 ++ [Failure e; GaveUp n e])%list) /\
        (e = circuitOpenError \/
         exists i env0, operation i env0 = (Reject e, env'))
    end.
Proof.
  unfold execute.
  match goal with
  | |- context [retry_loop _ ?f ?st 0 ?h0 env] =>
      destruct (retry_loop_completes f st 0 h0 env)
        as (c & h' & env' & evs & Hrun & Ht & Hb & _ & Hreq & Hret & Hc);
        [fields; lia|]
  end.
  exists c, h', env', evs. split; [exact Hrun|]. fields.
  repeat (split; [assumption|]).
  destruct c as [[r|]|e]; fields; assumption.
Qed.

Lemma execute_enters (form : Settings)
  (h : ErrorHandler) (env : Env) :
  exists h0 fuel,
    execute operation form h env
    = retry_loop operation (S fuel) (clock env) 0 h0 env /\
    policy h0 = (form_maxRetries form, form_baseDelay form, form_backoffType form) /\
    counts h0 = (totalRequests (stats h) + 1, successfulRequests (stats h),
                 failedRequests (stats h), totalRetries (stats h),
                 responseTimes (stats h)) /\
    circuitBreakerState h0 = circuitBreakerState h /\
    trace h0 = trace h.
Proof. unfold execute. eexists. eexists. repeat split. Qed.

End RetryLoop.

(** ** The scenarios of the retry loop *)

(** C1 as stated fails: with the default settings on a new handler, a
    server error that never clears is requested three times, not four; the
    fourth attempt is stopped by the breaker, and the error thrown is the
    breaker's. *)
Lemma always_failing_request_is_called_three_times :
  exists h' env',
    makeRequestWithRetry "server-error" (mkSettings 3 1000 "exponential" 5000)
      new_ErrorHandler (mkEnv 0 (fun _ => 0%Q) 0)
    = Some (Thrown circuitOpenError, h', env') /\
    invocations (trace h') = [0; 1; 2] /\
    length (invocations (trace h')) <> 4%nat.
Proof.
  eexists. eexists. split; [vm_compute; reflexivity|].
  split; [reflexivity | discriminate].
Qed.

(** The first three attempts of a call on a closed breaker with no failure
    counted, under [maxRetries = 3]: each calls the operation, fails and
    schedules a retry; the third failure opens the breaker. *)
Lemma first_three_attempts (operation : Operation) (fuel : nat) (st : Z)
  (h0 : ErrorHandler) (env : Env) (b : Z) (kind : string) (last : option Z) :
  policy h0 = (3, b, kind) ->
  0 <= b ->
  circuitBreakerState h0 = mkBreaker false 0 last 3 30000 ->
  always_fails_retryably operation ->
  let d i := calculateDelay i b kind in
  exists h3 env3 evs s0 s1,
    retry_loop operation (S (S (S (S fuel)))) st 0 h0 env
    = retry_loop operation (S fuel) st 3 h3 (sleep (d 2) env3) /\
    policy h3 = (3, b, kind) /\
    counts h3 = (totalRequests (stats h0), successfulRequests (stats h0),
                 failedRequests (stats h0), totalRetries (stats h0) + 3,
                 responseTimes (stats h0)) /\
    circuitBreakerState h3 = mkBreaker true 3 (Some (clock env3)) 3 30000 /\
    trace h3 = (trace h0 ++ evs)%list /\
    timeline evs
    = [Attempt 1 4 (clock env); Invoked 0 (clock env) s0; Retrying (d 0);
       Attempt 2 4 (s0 + d 0); Invoked 1 (s0 + d 0) s1; Retrying (d 1);
       Attempt 3 4 (s1 + d 1); Invoked 2 (s1 + d 1) (clock env3); Retrying (d 2)].
Proof.
  intros Hp0 Hbase Hb0 Hop d.
  assert (Hd0 : 0 <= d 0) by (apply calculateDelay_nonneg; lia).
  assert (Hd1 : 0 <= d 1) by (apply calculateDelay_nonneg; lia).
  assert (Hd2 : 0 <= d 2) by (apply calculateDelay_nonneg; lia).
  pose proof (policy_is _ _ _ _ Hp0) as (Hm0 & Hbd0 & Hk0).
  (* first attempt *)
  destruct (Hop 0 env) as (e0 & He0 & Hr0).
  destruct (operation 0 env) as [o0 env1] eqn:E0. cbn [fst] in He0. subst o0.
  destruct (iteration_retries operation (S (S (S fuel))) st 0 h0 env e0 env1)
    as (h1 & evs1 & -> & Hp1 & Hc1 & Hb1 & Ht1 & Htl1);
    [rewrite Hb0; reflexivity | exact E0 | rewrite Hm0; lia | exact Hr0 |].
  rewrite Hb0, breaker_checked_closed, breaker_failed_closed in Hb1.
  change (3 <=? 0 + 1) with false in Hb1. rewrite Hp0 in Hp1.
  rewrite calculateBackoffDelay_policy, Hm0, Hbd0, Hk0 in *.
  fold (d 0) in *. replace (Z.max 0 (d 0)) with (d 0) by lia.
  pose proof (policy_is _ _ _ _ Hp1) as (Hm1 & Hbd1 & Hk1).
  (* second attempt *)
  set (env1' := sleep (d 0) env1).
  destruct (Hop 1 env1') as (e1 & He1 & Hr1).
  destruct (operation 1 env1') as [o1 env2] eqn:E1. cbn [fst] in He1. subst o1.
  destruct (iteration_retries operation (S (S fuel)) st (0 + 1) h1 env1' e1 env2)
    as (h2 & evs2 & -> & Hp2 & Hc2 & Hb2 & Ht2 & Htl2);
    [rewrite Hb1; reflexivity | exact E1 | rewrite Hm1; lia | exact Hr1 |].
  rewrite Hb1, breaker_checked_closed, breaker_failed_closed in Hb2.
  change (3 <=? 0 + 1 + 1) with false in Hb2. rewrite Hp1 in Hp2.
  rewrite calculateBackoffDelay_policy, Hm1, Hbd1, Hk1 in *.
  change (0 + 1) with 1 in *. change (1 + 1) with 2 in *.
  fold (d 1) in *. replace (Z.max 0 (d 1)) with (d 1) by lia.
  pose proof (policy_is _ _ _ _ Hp2) as (Hm2 & Hbd2 & Hk2).
  (* third attempt: its failure opens the breaker *)
  set (env2' := sleep (d 1) env2).
  destruct (Hop 2 env2') as (e2 & He2 & Hr2).
  destruct (operation 2 env2') as [o2 env3] eqn:E2. cbn [fst] in He2. subst o2.
  destruct (iteration_retries operation (S fuel) st 2 h2 env2' e2 env3)
    as (h3 & evs3 & -> & Hp3 & Hc3 & Hb3 & Ht3 & Htl3);
    [rewrite Hb2; reflexivity | exact E2 | rewrite Hm2; lia | exact Hr2 |].
  rewrite Hb2, breaker_checked_closed, breaker_failed_closed in Hb3.
  change (3 <=? 2 + 1) with true in Hb3. rewrite Hp2 in Hp3.
  rewrite calculateBackoffDelay_policy, Hm2, Hbd2, Hk2 in *.
  change (2 + 1) with 3 in *.
  fold (d 2) in *. replace (Z.max 0 (d 2)) with (d 2) by lia.
  exists h3, env3, (evs1 ++ evs2 ++ evs3)%list, (clock env1), (clock env2).
  split; [reflexivity|]. split; [exact Hp3|].
  apply counts_is in Hc1 as (Hq1 & Hs1 & Hf1 & Hr1' & Ht1').
  apply counts_is in Hc2 as (Hq2 & Hs2 & Hf2 & Hr2' & Ht2').
  apply counts_is in Hc3 as (Hq3 & Hs3 & Hf3 & Hr3' & Ht3').
  split.
  { unfold counts. rewrite Hq3, Hs3, Hf3, Hr3', Ht3', Hq2, Hs2, Hf2, Hr2', Ht2',
      Hq1, Hs1, Hf1, Hr1', Ht1'.
    replace (totalRetries (stats h0) + 1 + 1 + 1) with (totalRetries (stats h0) + 3)
      by lia.
    reflexivity. }
  split; [exact Hb3|].
  split; [rewrite Ht3, Ht2, Ht1, <- !app_assoc; reflexivity|].
  autorewrite with readers. rewrite Htl1, Htl2, Htl3. reflexivity.
Qed.

(** C1, amended.  Policy [maxRetries = 3] with a base delay that is not
    negative and a third backoff delay that a timer takes (at most
    [TIMEOUT_MAX]; the first two are no longer than the third); an
    operation that always fails with a retryable error; a breaker that is
    closed with no failure counted (threshold 3, timeout 30000 ms).  The
    call makes four attempts and throws; [totalRetries] grows by exactly 3
    and [failedRequests] by exactly 1.  Each retry waits its backoff delay
    after the failure before it: [d 0], [d 1], [d 2], which are 1000, 2000,
    4000 ms for the base delay 1000 and the kind exponential.  The first
    three attempts call the operation, and the third
    failure opens the breaker.  When the third wait is shorter than the
    timeout of the breaker, the fourth attempt is stopped by the breaker:
    the operation is called three times and the error thrown is the
    breaker's.  Only when the third wait is 30000 ms or longer does the
    fourth attempt call the operation, and the call throws its error. *)
Theorem three_retries_of_a_failing_operation (operation : Operation)
  (form : Settings) (h : ErrorHandler) (env : Env) :
  form_maxRetries form = 3 ->
  0 <= form_baseDelay form ->
  calculateDelay 2 (form_baseDelay form) (form_backoffType form) <= TIMEOUT_MAX ->
  isOpen (circuitBreakerState h) = false ->
  failureCount (circuitBreakerState h) = 0 ->
  threshold (circuitBreakerState h) = 3 ->
  timeout (circuitBreakerState h) = 30000 ->
  always_fails_retryably operation ->
  let d i := calculateDelay i (form_baseDelay form) (form_backoffType form) in
  exists c h' env' evs s0 s1 s2 rest,
    execute operation form h env = Some (c, h', env') /\
    trace h' = (trace h ++ evs)%list /\
    timeline evs
    = ([Attempt 1 4 (clock env); Invoked 0 (clock env) s0; Retrying (d 0);
        Attempt 2 4 (s0 + d 0); Invoked 1 (s0 + d 0) s1; Retrying (d 1);
        Attempt 3 4 (s1 + d 1); Invoked 2 (s1 + d 1) s2; Retrying (d 2);
        Attempt 4 4 (s2 + d 2)] ++ rest)%list /\
    ((d 2 < 30000 /\ c = Thrown circuitOpenError /\ rest = [] /\
      invocations evs = [0; 1; 2]) \/
     (30000 <= d 2 <= TIMEOUT_MAX /\
      (exists e, c = Thrown e /\ isRetryableError e = true) /\
      rest = [Invoked 3 (s2 + d 2) (clock env')] /\
      invocations evs = [0; 1; 2; 3])) /\
    waits evs = [d 0; d 1; d 2] /\
    waits_fit_timer evs /\
    (form_baseDelay form = 1000 -> form_backoffType form = "exponential" ->
     waits evs = [1000; 2000; 4000] /\ d 2 < 30000) /\
    totalRetries (stats h') = totalRetries (stats h) + 3 /\
    failedRequests (stats h') = failedRequests (stats h) + 1 /\
    successfulRequests (stats h') = successfulRequests (stats h) /\
    totalRequests (stats h') = totalRequests (stats h) + 1.
Proof.
  intros Hmax Hbase Htimer Hclosed Hcount Hthr Hto Hop d.
  assert (Hfit : Forall (fun w => w <= TIMEOUT_MAX) [d 0; d 1; d 2]).
  { pose proof (calculateDelay_grows 0 (form_baseDelay form) (form_backoffType form)
                  ltac:(lia) Hbase) as H01.
    pose proof (calculateDelay_grows 1 (form_baseDelay form) (form_backoffType form)
                  ltac:(lia) Hbase) as H12.
    change (0 + 1) with 1 in H01. change (1 + 1) with 2 in H12.
    subst d. cbv beta. repeat constructor; lia. }
  unfold execute.
  set (h0 := with_current _ _).
  assert (Hp0 : policy h0 = (3, form_baseDelay form, form_backoffType form))
    by (unfold policy; subst h0; fields; rewrite Hmax; reflexivity).
  assert (Hc0 : counts h0 = (totalRequests (stats h) + 1, successfulRequests (stats h),
                             failedRequests (stats h), totalRetries (stats h),
                             responseTimes (stats h))) by reflexivity.
  assert (Hb0 : circuitBreakerState h0
                = mkBreaker false 0 (lastFailureTime (circuitBreakerState h)) 3 30000).
  { change (circuitBreakerState h0) with (circuitBreakerState h).
    destruct (circuitBreakerState h); fields; congruence. }
  assert (Ht0 : trace h0 = trace h) by reflexivity.
  replace (maxRetries h0) with 3 by (symmetry; apply (policy_is _ _ _ _ Hp0)).
  change (S (Z.to_nat (3 + 1))) with 5%nat.
  clearbody h0.
  destruct (first_three_attempts operation 1 (clock env) h0 env _ _ _
              Hp0 Hbase Hb0 Hop)
    as (h3 & env3 & evs3 & s0 & s1 & -> & Hp3 & Hc3 & Hb3 & Ht3 & Htl3).
  change (calculateDelay 0 (form_baseDelay form) (form_backoffType form))
    with (d 0) in *.
  change (calculateDelay 1 (form_baseDelay form) (form_backoffType form))
    with (d 1) in *.
  change (calculateDelay 2 (form_baseDelay form) (form_backoffType form))
    with (d 2) in *.
  pose proof (policy_is _ _ _ _ Hp3) as (Hm3 & _).
  apply counts_is in Hc3 as (Hq3 & Hs3 & Hf3 & Hr3 & _).
  apply counts_is in Hc0 as (Hq0 & Hs0 & Hf0 & Hr0 & _).
  set (env3' := sleep (d 2) env3).
  assert (Hnow : clock env3' = clock env3 + d 2) by reflexivity.
  assert (Hexp : form_baseDelay form = 1000 -> form_backoffType form = "exponential" ->
                 [d 0; d 1; d 2] = [1000; 2000; 4000] /\ d 2 < 30000).
  { intros Hb Hk. subst d. cbv beta. rewrite Hb, Hk. split; [reflexivity | vm_compute; reflexivity]. }
  destruct (Z.ltb_spec (d 2) 30000) as [Hshort|Hlong].
  - (* the breaker stops the fourth attempt *)
    destruct (iteration_blocked operation 1 (clock env) 3 h3 env3')
      as (h4 & evs4 & -> & Hc4 & _ & Ht4 & Htl4).
    { rewrite Hm3. lia. }
    { rewrite Hb3. unfold breaker_blocks. fields. rewrite Hnow.
      replace (30000 <=? clock env3 + d 2 - clock env3) with false
        by (symmetry; apply Z.leb_gt; lia).
      reflexivity. }
    rewrite Hm3, Hnow in Htl4. change (3 + 1) with 4 in Htl4.
    apply counts_is in Hc4 as (Hq4 & Hs4 & Hf4 & Hr4 & _).
    assert (Htl : timeline (evs3 ++ evs4)
                  = (timeline evs3 ++ [Attempt 4 4 (clock env3 + d 2)])%list)
      by (autorewrite with readers; rewrite Htl4; reflexivity).
    exists (Thrown circuitOpenError), h4, env3', (evs3 ++ evs4)%list,
           s0, s1, (clock env3), [].
    split; [reflexivity|].
    split; [rewrite Ht4, Ht3, Ht0, <- !app_assoc; reflexivity|].
    split; [rewrite Htl, Htl3; reflexivity|].
    split.
    { left. repeat split; try assumption.
      rewrite <- invocations_timeline, Htl, Htl3. reflexivity. }
    split; [rewrite <- waits_timeline, Htl, Htl3; reflexivity|].
    split.
    { unfold waits_fit_timer. rewrite <- waits_timeline, Htl, Htl3. exact Hfit. }
    split.
    { intros Hb Hk. destruct (Hexp Hb Hk) as [<- ?]. split; [|assumption].
      rewrite <- waits_timeline, Htl, Htl3. reflexivity. }
    repeat split; lia.
  - (* the timeout has passed: the fourth attempt calls the operation *)
    destruct (Hop 3 env3') as (e3 & He3 & Hr3').
    destruct (operation 3 env3') as [o3 env4] eqn:E3. cbn [fst] in He3. subst o3.
    destruct (iteration_rethrows operation 1 (clock env) 3 h3 env3' e3 env4)
      as (h4 & evs4 & -> & Hc4 & _ & Ht4 & Htl4).
    { rewrite Hm3. lia. }
    { rewrite Hb3. unfold breaker_blocks. fields. rewrite Hnow.
      replace (30000 <=? clock env3 + d 2 - clock env3) with true
        by (symmetry; apply Z.leb_le; lia).
      reflexivity. }
    { exact E3. }
    { rewrite Hm3. reflexivity. }
    rewrite Hm3, Hnow in Htl4. change (3 + 1) with 4 in Htl4.
    apply counts_is in Hc4 as (Hq4 & Hs4 & Hf4 & Hr4 & _).
    assert (Htl : timeline (evs3 ++ evs4)
                  = (timeline evs3 ++ [Attempt 4 4 (clock env3 + d 2);
                                       Invoked 3 (clock env3 + d 2) (clock env4)])%list)
      by (autorewrite with readers; rewrite Htl4; reflexivity).
    exists (Thrown e3), h4, env4, (evs3 ++ evs4)%list,
           s0, s1, (clock env3), [Invoked 3 (clock env3 + d 2) (clock env4)].
    split; [reflexivity|].
    split; [rewrite Ht4, Ht3, Ht0, <- !app_assoc; reflexivity|].
    split; [rewrite Htl, Htl3; reflexivity|].
    split.
    { right. split; [subst d; cbv beta in *; lia|]. split; [exists e3; auto|].
      split; [reflexivity|].
      rewrite <- invocations_timeline, Htl, Htl3. reflexivity. }
    split; [rewrite <- waits_timeline, Htl, Htl3; reflexivity|].
    split.
    { unfold waits_fit_timer. rewrite <- waits_timeline, Htl, Htl3. exact Hfit. }
    split.
    { intros Hb Hk. destruct (Hexp Hb Hk) as [<- ?]. split; [|assumption].
      rewrite <- waits_timeline, Htl, Htl3. reflexivity. }
    repeat split; lia.
Qed.

(** A request that answers at once with a 503, under the default settings
    on a new handler at the time 0: the attempts begin at 0, 1000, 3000 and
    7000 ms, and the fourth is stopped by the breaker. *)
Lemma three_retries_of_a_failing_operation_witness :
  exists h' env' evs,
    execute (fun _ env => (Reject (mkError "Service Unavailable (503)"), env))
      (mkSettings 3 1000 "exponential" 5000) new_ErrorHandler
      (mkEnv 0 (fun _ => 0%Q) 0)
    = Some (Thrown circuitOpenError, h', env') /\
    timeline evs
    = [Attempt 1 4 0; Invoked 0 0 0; Retrying 1000;
       Attempt 2 4 1000; Invoked 1 1000 1000; Retrying 2000;
       Attempt 3 4 3000; Invoked 2 3000 3000; Retrying 4000;
       Attempt 4 4 7000] /\
    waits evs = [1000; 2000; 4000] /\
    totalRetries (stats h') = 0 + 3.
Proof.
  destruct (three_retries_of_a_failing_operation
              (fun _ env => (Reject (mkError "Service Unavailable (503)"), env))
              (mkSettings 3 1000 "exponential" 5000) new_ErrorHandler
              (mkEnv 0 (fun _ => 0%Q) 0)
              eq_refl ltac:(simpl; lia) ltac:(vm_compute; discriminate)
              eq_refl eq_refl eq_refl eq_refl
              ltac:(intros a env; eexists; split; reflexivity))
    as (c & h' & env' & evs & s0 & s1 & s2 & rest & Hrun & Ht & Htl & _ & _ & _ & Hw & Hr & _).
  vm_compute in Hrun. injection Hrun as <- <- <-.
  eexists. eexists. exists evs. split; [vm_compute; reflexivity|].
  split; [|split; [exact (proj1 (Hw eq_refl eq_refl)) | exact Hr]].
  vm_compute in Ht. subst evs. reflexivity.
Defined.

(** C7.  When the first attempt calls the operation (the breaker lets it
    through) and the operation fails with an error that is not retryable,
    the call makes that one attempt and that one call of the operation,
    schedules no retry, leaves [totalRetries] as it was, counts one failed
    request and throws that error at once. *)
Theorem non_retryable_error_ends_the_call (operation : Operation)
  (form : Settings) (h : ErrorHandler) (env : Env) (e : Error) (env1 : Env) :
  0 <= form_maxRetries form ->
  fst (isCircuitBreakerOpen (clock env) h) = false ->
  operation 0 env = (Reject e, env1) ->
  isRetryableError e = false ->
  exists h' evs,
    execute operation form h env = Some (Thrown e, h', env1) /\
    trace h' = (trace h ++ evs)%list /\
    timeline evs = [Attempt 1 (form_maxRetries form + 1) (clock env);
                    Invoked 0 (clock env) (clock env1)] /\
    invocations evs = [0] /\
    waits evs = [] /\
    totalRetries (stats h') = totalRetries (stats h) /\
    failedRequests (stats h') = failedRequests (stats h) + 1 /\
    successfulRequests (stats h') = successfulRequests (stats h) /\
    totalRequests (stats h') = totalRequests (stats h) + 1.
Proof.
  intros Hbudget Hadmit Hop Hclass.
  destruct (execute_enters operation form h env)
    as (h0 & fuel & -> & Hp0 & Hc0 & Hb0 & Ht0).
  apply policy_is in Hp0 as (Hm0 & _).
  rewrite (proj1 (isCircuitBreakerOpen_breaker _ _)), <- Hb0 in Hadmit.
  destruct (iteration_rethrows operation fuel (clock env) 0 h0 env e env1)
    as (h' & evs & -> & Hc & _ & Ht & Htl);
    [lia | exact Hadmit | exact Hop | rewrite Hclass; apply andb_false_r |].
  exists h', evs. split; [reflexivity|].
  split; [rewrite Ht, Ht0; reflexivity|].
  rewrite Hm0 in Htl. change (0 + 1) with 1 in Htl.
  split; [exact Htl|].
  split; [rewrite <- invocations_timeline, Htl; reflexivity|].
  split; [rewrite <- waits_timeline, Htl; reflexivity|].
  apply counts_is in Hc as (Hq & Hs & Hf & Hr & _).
  apply counts_is in Hc0 as (Hq0 & Hs0 & Hf0 & Hr0 & _).
  repeat split; lia.
Qed.

(** The unauthorized request with the default settings on a new handler. *)
Lemma non_retryable_error_ends_the_call_witness :
  exists h' evs,
    makeRequestWithRetry "unauthorized" (mkSettings 3 1000 "exponential" 5000)
      new_ErrorHandler (mkEnv 0 (fun _ => 0%Q) 0)
    = Some (Thrown (mkError "Unauthorized (401) - Invalid credentials"), h',
            mkEnv 500 (fun _ => 0%Q) 1) /\
    invocations evs = [0] /\ waits evs = [] /\
    totalRetries (stats h') = totalRetries (stats new_ErrorHandler).
Proof.
  destruct (non_retryable_error_ends_the_call
              (simulateAPIRequest "unauthorized")
              (mkSettings 3 1000 "exponential" 5000) new_ErrorHandler
              (mkEnv 0 (fun _ => 0%Q) 0)
              (mkError "Unauthorized (401) - Invalid credentials")
              (mkEnv 500 (fun _ => 0%Q) 1)
              ltac:(simpl; lia) eq_refl eq_refl eq_refl)
    as (h' & evs & Hrun & _ & _ & Hi & Hw & Hr & _).
  exists h', evs. auto.
Defined.

(** ** Calls on an open breaker *)

(** C2.  What the code does with a call while the breaker is open: it
    throws the breaker's error at once, without a call of the operation and
    without a retry ([totalRetries] is as before, one failed request is
    counted).  Contrary to the claim, the rejection passes through the
    [catch] block of the loop like a failure of the operation: it raises
    [failureCount] by 1 and sets [lastFailureTime] to the time of the
    rejection. *)
Theorem blocked_call_is_counted_as_failure (operation : Operation)
  (form : Settings) (h : ErrorHandler) (env : Env) :
  0 <= form_maxRetries form ->
  fst (isCircuitBreakerOpen (clock env) h) = true ->
  exists h' evs,
    execute operation form h env = Some (Thrown circuitOpenError, h', env) /\
    trace h' = (trace h ++ evs)%list /\
    invocations evs = [] /\
    waits evs = [] /\
    totalRetries (stats h') = totalRetries (stats h) /\
    failedRequests (stats h') = failedRequests (stats h) + 1 /\
    isOpen (circuitBreakerState h') = true /\
    failureCount (circuitBreakerState h')
    = failureCount (circuitBreakerState h) + 1 /\
    lastFailureTime (circuitBreakerState h') = Some (clock env).
Proof.
  intros Hbudget Hblock.
  destruct (execute_enters operation form h env)
    as (h0 & fuel & -> & Hp0 & Hc0 & Hb0 & Ht0).
  apply policy_is in Hp0 as (Hm0 & _).
  rewrite (proj1 (isCircuitBreakerOpen_breaker _ _)), <- Hb0 in Hblock.
  destruct (iteration_blocked operation fuel (clock env) 0 h0 env)
    as (h' & evs & -> & Hc & Hb & Ht & Htl); [lia | exact Hblock |].
  exists h', evs. split; [reflexivity|].
  split; [rewrite Ht, Ht0; reflexivity|].
  split; [rewrite <- invocations_timeline, Htl; reflexivity|].
  split; [rewrite <- waits_timeline, Htl; reflexivity|].
  apply counts_is in Hc as (_ & _ & Hf & Hr & _).
  apply counts_is in Hc0 as (_ & _ & Hf0 & Hr0 & _).
  split; [lia|]. split; [lia|].
  rewrite Hb, <- Hb0. unfold breaker_blocks in Hblock.
  apply andb_true_iff in Hblock as [Hopen _].
  unfold breaker_failed. fields. rewrite Hopen. repeat split.
Qed.

(** The breaker opened at the time 0 with three failures counted; a call
    at 1000 ms leaves four failures counted and the last failure at 1000. *)
Lemma blocked_call_is_counted_as_failure_witness :
  exists h' evs,
    execute (simulateAPIRequest "server-error")
      (mkSettings 3 1000 "exponential" 5000)
      (with_breaker (fun _ => mkBreaker true 3 (Some 0) 3 30000) new_ErrorHandler)
      (mkEnv 1000 (fun _ => 0%Q) 0)
    = Some (Thrown circuitOpenError, h', mkEnv 1000 (fun _ => 0%Q) 0) /\
    invocations evs = [] /\
    failureCount (circuitBreakerState h') = 3 + 1 /\
    lastFailureTime (circuitBreakerState h') = Some 1000.
Proof.
  destruct (blocked_call_is_counted_as_failure
              (simulateAPIRequest "server-error")
              (mkSettings 3 1000 "exponential" 5000)
              (with_breaker (fun _ => mkBreaker true 3 (Some 0) 3 30000)
                            new_ErrorHandler)
              (mkEnv 1000 (fun _ => 0%Q) 0)
              ltac:(simpl; lia) eq_refl)
    as (h' & evs & Hrun & _ & Hi & _ & _ & _ & _ & Hfc & Hlast).
  exists h', evs. auto.
Defined.

(** The guard of [ErrorUtils.createCircuitBreaker] rejects before its [try]
    block: a rejected call changes nothing of its state. *)
Lemma guarded_call_blocked (threshold timeout : Z) (outcome : Settled)
  (latency now : Z) (g : Guard) :
  g_isOpen g = true ->
  now - default 0 (g_lastFailureTime g) < timeout ->
  guarded_call threshold timeout outcome latency now g
  = (Thrown (mkError "Circuit breaker is open"), g).
Proof.
  intros Hopen Hearly. unfold guarded_call.
  apply Z.ltb_lt in Hearly. rewrite Hopen, Hearly. reflexivity.
Qed.

(** ** The trial after the timeout *)

(** C3.  What the code does with the trial: once the timeout has passed,
    [isCircuitBreakerOpen] resets the breaker before the request is made,
    so a trial that fails (and ends the call) is the first failure of a
    closed breaker.  Contrary to the claim the breaker is then closed, with
    [failureCount] 1, below the threshold 3; [lastFailureTime] is the time
    of the failure. *)
Theorem failed_trial_leaves_breaker_closed (operation : Operation)
  (form : Settings) (h : ErrorHandler) (env : Env) (e : Error) (env1 : Env) :
  0 <= form_maxRetries form ->
  isOpen (circuitBreakerState h) = true ->
  threshold (circuitBreakerState h) = 3 ->
  timeout (circuitBreakerState h)
  <= clock env - default 0 (lastFailureTime (circuitBreakerState h)) ->
  operation 0 env = (Reject e, env1) ->
  (1 <=? form_maxRetries form) && isRetryableError e = false ->
  exists h',
    execute operation form h env = Some (Thrown e, h', env1) /\
    invocations (trace h') = (invocations (trace h) ++ [0])%list /\
    isOpen (circuitBreakerState h') = false /\
    failureCount (circuitBreakerState h') = 1 /\
    lastFailureTime (circuitBreakerState h') = Some (clock env1).
Proof.
  intros Hbudget Hopen Hthr Hlate Hop Hstop.
  destruct (execute_enters operation form h env)
    as (h0 & fuel & -> & Hp0 & Hc0 & Hb0 & Ht0).
  apply policy_is in Hp0 as (Hm0 & _).
  apply Z.leb_le in Hlate.
  destruct (iteration_rethrows operation fuel (clock env) 0 h0 env e env1)
    as (h' & evs & -> & _ & Hb & Ht & Htl).
  - lia.
  - rewrite Hb0. unfold breaker_blocks. rewrite Hopen, Hlate. reflexivity.
  - exact Hop.
  - rewrite Hm0. exact Hstop.
  - exists h'. split; [reflexivity|].
    rewrite Ht, Ht0, invocations_app, <- (invocations_timeline evs), Htl.
    split; [reflexivity|].
    rewrite Hb, Hb0. unfold breaker_checked, breaker_failed.
    rewrite Hopen, Hlate. fields. rewrite Hthr. repeat split.
Qed.

(** The breaker opened at the time 0 with three failures counted; the
    unauthorized request at 30000 ms is the trial. *)
Lemma failed_trial_leaves_breaker_closed_witness :
  exists h',
    makeRequestWithRetry "unauthorized" (mkSettings 3 1000 "exponential" 5000)
      (with_breaker (fun _ => mkBreaker true 3 (Some 0) 3 30000) new_ErrorHandler)
      (mkEnv 30000 (fun _ => 0%Q) 0)
    = Some (Thrown (mkError "Unauthorized (401) - Invalid credentials"), h',
            mkEnv 30500 (fun _ => 0%Q) 1) /\
    isOpen (circuitBreakerState h') = false /\
    failureCount (circuitBreakerState h') = 1.
Proof.
  destruct (failed_trial_leaves_breaker_closed
              (simulateAPIRequest "unauthorized")
              (mkSettings 3 1000 "exponential" 5000)
              (with_breaker (fun _ => mkBreaker true 3 (Some 0) 3 30000)
                            new_ErrorHandler)
              (mkEnv 30000 (fun _ => 0%Q) 0)
              (mkError "Unauthorized (401) - Invalid credentials")
              (mkEnv 30500 (fun _ => 0%Q) 1)
              ltac:(simpl; lia) eq_refl eq_refl ltac:(simpl; lia)
              eq_refl eq_refl)
    as (h' & Hrun & _ & Hopen & Hfc & _).
  exists h'. auto.
Defined.

(** After the timeout the breaker does not stop at one trial: a server
    error that never clears is requested three times in a row before the
    breaker opens again. *)
Example recovery_admits_three_failing_requests :
  exists h' env',
    makeRequestWithRetry "server-error" (mkSettings 3 1000 "exponential" 5000)
      (with_breaker (fun _ => mkBreaker true 3 (Some 0) 3 30000) new_ErrorHandler)
      (mkEnv 30000 (fun _ => 0%Q) 0)
    = Some (Thrown circuitOpenError, h', env') /\
    invocations (trace h') = [0; 1; 2].
Proof. eexists. eexists. split; [vm_compute; reflexivity | reflexivity]. Qed.

(** The guard of [ErrorUtils.createCircuitBreaker] keeps its count through
    the trial: a trial that fails opens it again, with the count above the
    threshold and the time of the failure refreshed. *)
Lemma guarded_call_failed_trial_reopens (timeout latency now count last : Z)
  (e : Error) :
  3 <= count -> timeout <= now - last ->
  guarded_call 3 timeout (Reject e) latency now (mkGuard count (Some last) true)
  = (Thrown e, mkGuard (count + 1) (Some (now + latency)) true).
Proof.
  intros Hcount Hlate. unfold guarded_call. cbn [g_isOpen g_lastFailureTime
    g_failureCount default from_option id].
  replace (now - last <? timeout) with false by (symmetry; apply Z.ltb_ge; lia).
  cbn [andb]. replace (3 <=? count + 1) with true by (symmetry; apply Z.leb_le; lia).
  reflexivity.
Qed.

(** ** How a call completes *)

(** C8 as stated fails: the unauthorized request with the default settings
    on a new handler does not hand an error value back, it throws; so does
    a server error once a budget of no retries is spent. *)
Lemma execute_throws_terminal_failure :
  (exists h' env',
     makeRequestWithRetry "unauthorized" (mkSettings 3 1000 "exponential" 5000)
       new_ErrorHandler (mkEnv 0 (fun _ => 0%Q) 0)
     = Some (Thrown (mkError "Unauthorized (401) - Invalid credentials"), h', env')) /\
  (exists h' env',
     makeRequestWithRetry "server-error" (mkSettings 0 1000 "exponential" 5000)
       new_ErrorHandler (mkEnv 0 (fun _ => 0%Q) 0)
     = Some (Thrown (mkError "Internal Server Error (500)"), h', env')).
Proof. split; eexists; eexists; vm_compute; reflexivity. Qed.

(** C8, amended.  With a retry budget that is not negative, a call always
    completes, and in one of two ways only.  It returns the result of a
    call of the operation that resolved; or it throws: the error thrown is
    the error of the last attempt, which the operation rejected with or
    which the open breaker raised, and the failure has been counted and
    logged before.  No failure is handed back as a returned value, also not
    when the retry budget is spent. *)
Theorem execute_returns_result_or_throws (operation : Operation) (form : Settings)
  (h : ErrorHandler) (env : Env) :
  0 <= form_maxRetries form ->
  exists c h' env' evs,
    execute operation form h env = Some (c, h', env') /\
    trace h' = (trace h ++ evs)%list /\
    ((exists r i env0,
        c = Returned (Some r) /\ operation i env0 = (Resolve r, env') /\
        failedRequests (stats h') = failedRequests (stats h)) \/
     (exists e evs0 n,
        c = Thrown e /\
        evs = (evs0 ++ [Failure e; GaveUp n e])%list /\
        failedRequests (stats h') = failedRequests (stats h) + 1 /\
        (e = circuitOpenError \/
         exists i env0, operation i env0 = (Reject e, env')))).
Proof.
  intros Hbudget.
  destruct (execute_completes operation form h env)
    as (c & h' & env' & evs & Hrun & Ht & _ & _ & _ & Hc).
  exists c, h', env', evs. split; [exact Hrun|]. split; [exact Ht|].
  destruct c as [[r|]|e].
  - destruct Hc as (_ & Hf & _ & evs0 & i & env0 & _ & Hop).
    left. exists r, i, env0. auto.
  - destruct Hc as (Hneg & _). lia.
  - destruct Hc as (_ & Hf & _ & (evs0 & n & Hevs) & Hsrc).
    right. exists e, evs0, n. auto.
Qed.

(** The bad request with the default settings. *)
Lemma execute_returns_result_or_throws_witness :
  exists c h' env' evs,
    execute (simulateAPIRequest "bad-request") (mkSettings 3 1000 "exponential" 5000)
      new_ErrorHandler (mkEnv 0 (fun _ => 0%Q) 0) = Some (c, h', env') /\
    trace h' = (trace new_ErrorHandler ++ evs)%list /\
    ((exists r i env0,
        c = Returned (Some r) /\
        simulateAPIRequest "bad-request" i env0 = (Resolve r, env') /\
        failedRequests (stats h') = failedRequests (stats new_ErrorHandler)) \/
     (exists e evs0 n,
        c = Thrown e /\
        evs = (evs0 ++ [Failure e; GaveUp n e])%list /\
        failedRequests (stats h') = failedRequests (stats new_ErrorHandler) + 1 /\
        (e = circuitOpenError \/
         exists i env0, simulateAPIRequest "bad-request" i env0 = (Reject e, env')))).
Proof.
  apply (execute_returns_result_or_throws (simulateAPIRequest "bad-request")
           (mkSettings 3 1000 "exponential" 5000) new_ErrorHandler
           (mkEnv 0 (fun _ => 0%Q) 0)).
  simpl. lia.
Defined.

(** C9.  With a retry budget that is not negative, a call adds exactly 1
    to [totalRequests] and exactly 1 to exactly one of [successfulRequests]
    (when it returns) and [failedRequests] (when it throws), so the
    statistics balance after it when they balanced before it. *)
Theorem execute_keeps_stats_balanced (operation : Operation) (form : Settings)
  (h : ErrorHandler) (env : Env) :
  0 <= form_maxRetries form ->
  exists c h' env',
    execute operation form h env = Some (c, h', env') /\
    totalRequests (stats h') = totalRequests (stats h) + 1 /\
    match c with
    | Returned (Some _) =>
        successfulRequests (stats h') = successfulRequests (stats h) + 1 /\
        failedRequests (stats h') = failedRequests (stats h)
    | Returned None => False
    | Thrown _ =>
        successfulRequests (stats h') = successfulRequests (stats h) /\
        failedRequests (stats h') = failedRequests (stats h) + 1
    end /\
    (balanced h -> balanced h').
Proof.
  intros Hbudget.
  destruct (execute_completes operation form h env)
    as (c & h' & env' & evs & Hrun & _ & _ & Hreq & _ & Hc).
  exists c, h', env'. split; [exact Hrun|]. split; [exact Hreq|].
  unfold balanced. destruct c as [[r|]|e].
  - destruct Hc as (Hs & Hf & _). repeat split; try assumption. lia.
  - destruct Hc as (Hneg & _). lia.
  - destruct Hc as (Hs & Hf & _). repeat split; try assumption. lia.
Qed.

(** The rate-limited request with the default settings on a new handler. *)
Lemma execute_keeps_stats_balanced_witness :
  exists c h' env',
    execute (simulateAPIRequest "rate-limit") (mkSettings 3 1000 "exponential" 5000)
      new_ErrorHandler (mkEnv 0 (fun _ => 0%Q) 0) = Some (c, h', env') /\
    totalRequests (stats h') = totalRequests (stats new_ErrorHandler) + 1 /\
    match c with
    | Returned (Some _) =>
        successfulRequests (stats h')
        = successfulRequests (stats new_ErrorHandler) + 1 /\
        failedRequests (stats h') = failedRequests (stats new_ErrorHandler)
    | Returned None => False
    | Thrown _ =>
        successfulRequests (stats h') = successfulRequests (stats new_ErrorHandler) /\
        failedRequests (stats h') = failedRequests (stats new_ErrorHandler) + 1
    end /\
    (balanced new_ErrorHandler -> balanced h').
Proof.
  apply (execute_keeps_stats_balanced (simulateAPIRequest "rate-limit")
           (mkSettings 3 1000 "exponential" 5000) new_ErrorHandler
           (mkEnv 0 (fun _ => 0%Q) 0)).
  simpl. lia.
Defined.

(** With a negative retry budget from the settings form the loop is never
    entered: the call returns [undefined] and counts neither a success nor
    a failure. *)
Example negative_budget_never_enters_the_loop :
  exists h',
    makeRequestWithRetry "server-error" (mkSettings (-1) 1000 "exponential" 5000)
      new_ErrorHandler (mkEnv 0 (fun _ => 0%Q) 0)
    = Some (Returned None, h', mkEnv 0 (fun _ => 0%Q) 0) /\
    counts h' = (1, 0, 0, 0, []).
Proof. eexists. split; [vm_compute; reflexivity | reflexivity]. Qed.

(** ** Response times *)

Lemma round_div_nearest (a b : Z) :
  0 < b -> 2 * b * Js.round_div a b - b <= 2 * a < 2 * b * Js.round_div a b + b.
Proof.
  intros Hb. unfold Js.round_div.
  pose proof (Z.div_mod (2 * a + b) (2 * b) ltac:(lia)) as Hdiv.
  pose proof (Z.mod_pos_bound (2 * a + b) (2 * b) ltac:(lia)) as Hmod.
  lia.
Qed.

(** C10.  A call appends to [responseTimes] only when it returns a result,
    and then exactly one entry: the time from the start of the call to the
    settling of the call of the operation that resolved.  When all its
    backoff waits are delays a timer takes, that time is the sum of the
    latencies of all its calls of the operation, the failed ones too, and
    of all its backoff waits.  A call that throws, or whose loop is
    never entered, leaves [responseTimes] and so the displayed average as
    they were.  The displayed average is 0 without entries and otherwise the
    mean of the entries rounded to the nearest integer. *)
Theorem responseTimes_hold_whole_successful_calls (operation : Operation)
  (form : Settings) (h : ErrorHandler) (env : Env) :
  exists c h' env' evs,
    execute operation form h env = Some (c, h', env') /\
    trace h' = (trace h ++ evs)%list /\
    match c with
    | Returned (Some _) =>
        responseTimes (stats h')
        = (responseTimes (stats h) ++ [clock env' - clock env])%list /\
        (waits_fit_timer evs -> clock env' - clock env = total_busy evs)
    | _ =>
        responseTimes (stats h') = responseTimes (stats h) /\
        avgResponseTime (stats h') = avgResponseTime (stats h)
    end /\
    let n := Z.of_nat (length (responseTimes (stats h'))) in
    let sum := fold_left Z.add (responseTimes (stats h')) 0 in
    (n = 0 -> avgResponseTime (stats h') = 0) /\
    (0 < n ->
     2 * n * avgResponseTime (stats h') - n <= 2 * sum
     < 2 * n * avgResponseTime (stats h') + n).
Proof.
  destruct (execute_completes operation form h env)
    as (c & h' & env' & evs & Hrun & Ht & Hb & _ & _ & Hc).
  exists c, h', env', evs. split; [exact Hrun|]. split; [exact Ht|]. split.
  - unfold avgResponseTime. destruct c as [[r|]|e].
    + destruct Hc as (_ & _ & Hrt & _). split; [exact Hrt | intros _; exact Hb].
    + destruct Hc as (_ & _ & _ & _ & ->). split; reflexivity.
    + destruct Hc as (_ & _ & -> & _). split; reflexivity.
  - unfold avgResponseTime. cbv zeta. split.
    + intros ->. reflexivity.
    + intros Hn. apply Z.ltb_lt in Hn as Hn'. rewrite Hn'.
      apply round_div_nearest. exact Hn.
Qed.

(** The rate-limited request with the default settings on a new handler:
    two failed calls of 500 ms, waits of 1000 and 2000 ms, and the call that
    resolves after 500 ms more. *)
Example rate_limit_response_time :
  exists h' env',
    makeRequestWithRetry "rate-limit" (mkSettings 3 1000 "exponential" 5000)
      new_ErrorHandler (mkEnv 0 (fun _ => 0%Q) 0)
    = Some (Returned (Some (mkResponse "Rate limit cleared" 4500)), h', env') /\
    responseTimes (stats h') = [4500] /\ avgResponseTime (stats h') = 4500.
Proof.
  eexists. eexists. split; [vm_compute; reflexivity|]. split; reflexivity.
Qed.

(** * Further properties of the code *)

(** ** The key of the histogram of error types *)

Lemma startsWith_app (p s t : string) :
  Js.startsWith p s = true -> Js.startsWith p (String.append s t) = true.
Proof.
  intros H. apply startsWith_spec in H as [post ->].
  apply startsWith_spec. exists (String.append post t).
  induction p as [|c p IH]; [reflexivity|].
  rewrite !append_cons, IH. reflexivity.
Qed.

Lemma split_head_prefix (sep s : string) :
  exists rest, s = String.append (Js.split_head sep s) rest /\
               (rest = "" \/ Js.startsWith sep rest = true).
Proof.
  induction s as [|c s IH]; simpl.
  - destruct (Js.startsWith sep ""); exists ""; split; auto.
  - destruct (Js.startsWith sep (String c s)) eqn:E.
    + exists (String c s). split; [reflexivity | right; exact E].
    + destruct IH as (rest & Hs & Hrest). exists rest. split; [|exact Hrest].
      rewrite append_cons. congruence.
Qed.

Lemma split_head_none (sep s : string) :
  Js.includes sep s = false -> Js.split_head sep s = s.
Proof.
  induction s as [|c s IH]; simpl.
  - destruct (Js.startsWith sep ""); [discriminate | reflexivity].
  - destruct (Js.startsWith sep (String c s)); [discriminate|].
    intros H. rewrite (IH H). reflexivity.
Qed.

Lemma split_head_clean (sep s : string) :
  sep <> "" -> Js.includes sep (Js.split_head sep s) = false.
Proof.
  intros Hsep. induction s as [|c s IH]; simpl.
  - destruct (Js.startsWith sep "") eqn:E; simpl; rewrite ?E; [|reflexivity].
    destruct sep; [congruence | discriminate E].
  - destruct (Js.startsWith sep (String c s)) eqn:E.
    + simpl. destruct sep; [congruence | reflexivity].
    + simpl. rewrite IH.
      destruct (Js.startsWith sep (String c (Js.split_head sep s))) eqn:E'; [|reflexivity].
      destruct (split_head_prefix sep s) as (rest & Hs & _).
      apply (startsWith_app _ _ rest) in E'.
      rewrite append_cons, <- Hs in E'. congruence.
Qed.

(** X1.  The key under which a failure is counted is the text of the
    message before its first [" ("]: a prefix of the message that holds no
    [" ("] and is followed by one or by nothing.  A message without [" ("]
    is its own key, and so is a message that begins with [" ("]; the key of
    a message that is not empty is not empty. *)
Theorem errorName_is_the_text_before_the_code (error : Error) :
  (exists rest, message error = String.append (errorName error) rest) /\
  (~ occurs " (" (message error) -> errorName error = message error) /\
  (Js.startsWith " (" (message error) = true -> errorName error = message error) /\
  (Js.startsWith " (" (message error) = false ->
   ~ occurs " (" (errorName error) /\
   exists rest, message error = String.append (errorName error) rest /\
                (rest = "" \/ Js.startsWith " (" rest = true)) /\
  (message error <> "" -> errorName error <> "").
Proof.
  unfold errorName. set (s := message error).
  destruct (split_head_prefix " (" s) as (rest & Hs & Hrest).
  assert (Hclean := split_head_clean " (" s ltac:(discriminate)).
  assert (Hself : exists rest', s = String.append s rest').
  { exists "". clear. induction s as [|c s IH]; [reflexivity|].
    rewrite append_cons, <- IH. reflexivity. }
  split; [|split; [|split; [|split]]].
  - destruct (String.eqb (Js.split_head " (" s) ""); [exact Hself|].
    exists rest. exact Hs.
  - intros Hno. rewrite split_head_none.
    + destruct (String.eqb s ""); reflexivity.
    + destruct (Js.includes " (" s) eqn:E; [|reflexivity].
      apply includes_spec in E. contradiction.
  - intros Hstart. destruct s as [|c s']; [discriminate|].
    cbn [Js.split_head]. rewrite Hstart. reflexivity.
  - intros Hstart. destruct s as [|c s'].
    + split; [|exists ""; split; [reflexivity | left; reflexivity]].
      intros Hocc. apply includes_spec in Hocc. discriminate Hocc.
    + cbn [Js.split_head] in *. rewrite Hstart in *.
      change (String.eqb (String c (Js.split_head " (" s')) "") with false.
      cbv iota. split.
      * intros Hocc. apply includes_spec in Hocc. congruence.
      * exists rest. split; assumption.
  - intros Hne. destruct (String.eqb_spec (Js.split_head " (" s) ""); assumption.
Qed.

(** The server error of the simulator is counted under its text without
    the status code. *)
Lemma errorName_is_the_text_before_the_code_witness :
  ~ occurs " (" (errorName (mkError "Internal Server Error (500)")) /\
  errorName (mkError "Request timeout") = "Request timeout".
Proof.
  split.
  - apply (proj1 (proj2 (proj2 (proj2
             (errorName_is_the_text_before_the_code
                (mkError "Internal Server Error (500)"))))) eq_refl).
  - apply (proj1 (proj2 (errorName_is_the_text_before_the_code
                           (mkError "Request timeout")))).
    intros H. apply includes_spec in H. discriminate H.
Defined.

(** The [catch] block counts the failure under that key. *)
Lemma on_error_histogram (error : Error) (h : ErrorHandler) (env : Env) :
  errorTypes (stats (on_error error h env))
  = <[errorName error :=
        default 0 (errorTypes (stats h) !! errorName error) + 1]>
      (errorTypes (stats h)).
Proof.
  unfold on_error. fields.
  rewrite (proj1 (increment_frame _ _)). reflexivity.
Qed.

(** ** The simulated request *)

(** X2.  Whatever the scenario, the attempt and the random numbers, an
    error the simulated request rejects with is retryable exactly in the
    scenarios timeout, server-error and rate-limit, and not retryable
    exactly in the scenarios unauthorized, not-found and bad-request; a
    scenario of any other name never rejects. *)
Theorem simulated_errors_are_classified_by_scenario (errorType : string)
  (attempt : Z) (env : Env) (e : Error) (env' : Env) :
  simulateAPIRequest errorType attempt env = (Reject e, env') ->
  (isRetryableError e = true <->
   In errorType ["timeout"; "server-error"; "rate-limit"]) /\
  (isRetryableError e = false <->
   In errorType ["unauthorized"; "not-found"; "bad-request"]).
Proof.
  unfold simulateAPIRequest.
  destruct (Math_random env) as [r env1].
  set (env2 := sleep _ env1).
  destruct (String.eqb_spec errorType "timeout") as [->|Hn1].
  { destruct (Math_random env2) as [p env3].
    destruct (Q_ltb p (7 # 10)); intros [= <- <-].
    split; split; intros H; try reflexivity; try (simpl; tauto);
      try discriminate H.
    simpl in H. intuition discriminate. }
  destruct (String.eqb_spec errorType "server-error") as [->|Hn2].
  { destruct (Math_random env2) as [p env3].
    destruct (Q_ltb p (6 # 10)); intros [= <- <-].
    split; split; intros H; try reflexivity; try (simpl; tauto);
      try discriminate H.
    simpl in H. intuition discriminate. }
  destruct (String.eqb_spec errorType "rate-limit") as [->|Hn3].
  { destruct (attempt <? 2); intros [= <- <-].
    split; split; intros H; try reflexivity; try (simpl; tauto);
      try discriminate H.
    simpl in H. intuition discriminate. }
  destruct (String.eqb_spec errorType "unauthorized") as [->|Hn4].
  { intros [= <- <-].
    split; split; intros H; try reflexivity; try (simpl; tauto);
      try discriminate H.
    simpl in H. intuition discriminate. }
  destruct (String.eqb_spec errorType "not-found") as [->|Hn5].
  { intros [= <- <-].
    split; split; intros H; try reflexivity; try (simpl; tauto);
      try discriminate H.
    simpl in H. intuition discriminate. }
  destruct (String.eqb_spec errorType "bad-request") as [->|Hn6].
  { intros [= <- <-].
    split; split; intros H; try reflexivity; try (simpl; tauto);
      try discriminate H.
    simpl in H. intuition discriminate. }
  intros [=].
Qed.

(** The first attempt of the scenario rate-limit. *)
Lemma simulated_errors_are_classified_by_scenario_witness :
  isRetryableError (mkError "Too Many Requests (429)") = true <->
  In "rate-limit" ["timeout"; "server-error"; "rate-limit"].
Proof.
  apply (proj1 (simulated_errors_are_classified_by_scenario "rate-limit" 0
                  (mkEnv 0 (fun _ => 0%Q) 0)
                  (mkError "Too Many Requests (429)")
                  (mkEnv 500 (fun _ => 0%Q) 1) eq_refl)).
Defined.

(** X3.  With a random number in the range of [Math.random], at least 0
    and below 1, a simulated request settles no sooner than 500 ms and no
    later than 2500 ms after it was made, whatever the scenario; it draws
    one random number, and a second one in the scenarios timeout and
    server-error only. *)
Theorem simulated_request_takes_half_a_second_to_two_and_a_half
  (errorType : string) (attempt : Z) (env : Env) :
  (0 <= draws env (drawn env))%Q -> (draws env (drawn env) < 1)%Q ->
  let env' := snd (simulateAPIRequest errorType attempt env) in
  500 <= clock env' - clock env <= 2500 /\
  draws env' = draws env /\
  drawn env'
  = (drawn env +
     if String.eqb errorType "timeout" || String.eqb errorType "server-error"
     then 2 else 1)%nat.
Proof.
  intros Hlo Hhi. unfold simulateAPIRequest, Math_random.
  set (r := draws env (drawn env)) in *.
  assert (Hfloor : 500 <= Qfloor (r * 2000 + 500) < 2500).
  { split.
    - pose proof (Qfloor_resp_le (inject_Z 500) (r * 2000 + 500)
                    ltac:(unfold inject_Z; lra)) as H.
      rewrite Qfloor_Z in H. exact H.
    - apply Z.lt_nge. intros Hge.
      assert (H : (inject_Z 2500 <= r * 2000 + 500)%Q).
      { eapply Qle_trans; [|apply Qfloor_le].
        rewrite <- Zle_Qle. exact Hge. }
      unfold inject_Z in H. lra. }
  cbv zeta.
  destruct (String.eqb errorType "timeout").
  { destruct (Q_ltb _ _); cbn [snd fst clock draws drawn sleep orb];
      (split; [lia | split; [reflexivity | lia]]). }
  destruct (String.eqb errorType "server-error").
  { destruct (Q_ltb _ _); cbn [snd fst clock draws drawn sleep orb];
      (split; [lia | split; [reflexivity | lia]]). }
  destruct (String.eqb errorType "rate-limit").
  { destruct (attempt <? 2); cbn [snd fst clock draws drawn sleep orb];
      (split; [lia | split; [reflexivity | lia]]). }
  destruct (String.eqb errorType "unauthorized");
    [cbn [snd fst clock draws drawn sleep orb];
     split; [lia | split; [reflexivity | lia]]|].
  destruct (String.eqb errorType "not-found");
    [cbn [snd fst clock draws drawn sleep orb];
     split; [lia | split; [reflexivity | lia]]|].
  destruct (String.eqb errorType "bad-request");
    cbn [snd fst clock draws drawn sleep orb];
    (split; [lia | split; [reflexivity | lia]]).
Qed.

(** A random number of one half: 1500 ms. *)
Lemma simulated_request_takes_half_a_second_to_two_and_a_half_witness :
  500 <= clock (snd (simulateAPIRequest "not-found" 0
                       (mkEnv 0 (fun _ => (1 # 2)%Q) 0))) - 0 <= 2500.
Proof.
  apply (proj1 (simulated_request_takes_half_a_second_to_two_and_a_half
                  "not-found" 0 (mkEnv 0 (fun _ => (1 # 2)%Q) 0)
                  ltac:(vm_compute; discriminate) ltac:(vm_compute; reflexivity))).
Defined.

(** ** Backoff delays *)

(** X4.  With an attempt index and a base delay that are not negative, and
    as long as the operands and the delay of the next retry are integers a
    double holds exactly, the backoff delay never shrinks from one retry to
    the next, whatever the kind; for the kind exponential it doubles, for
    linear it grows by the base delay.  The delay of the retry before is
    then computed exactly as well. *)
Theorem calculateDelay_never_shrinks (attempt baseDelay : Z) (backoffType : string) :
  0 <= attempt -> 0 <= baseDelay ->
  exact_delay (attempt + 1) baseDelay backoffType = true ->
  calculateDelay attempt baseDelay backoffType
  <= calculateDelay (attempt + 1) baseDelay backoffType /\
  (backoffType = "exponential" ->
   calculateDelay (attempt + 1) baseDelay backoffType
   = 2 * calculateDelay attempt baseDelay backoffType) /\
  (backoffType = "linear" ->
   calculateDelay (attempt + 1) baseDelay backoffType
   = calculateDelay attempt baseDelay backoffType + baseDelay) /\
  exact_delay attempt baseDelay backoffType = true.
Proof.
  intros Ha Hb Hexact.
  split; [apply calculateDelay_grows; assumption|].
  assert (Hpow : 2 ^ (attempt + 1) = 2 * 2 ^ attempt)
    by (rewrite Z.pow_add_r by lia; lia).
  split; [|split].
  - intros ->. unfold calculateDelay. cbn [String.eqb Ascii.eqb Bool.eqb].
    rewrite Hpow. ring.
  - intros ->. unfold calculateDelay. cbn [String.eqb Ascii.eqb Bool.eqb].
    ring.
  - apply exact_delay_before; assumption.
Qed.

(** The default settings: 8000 ms after 4000 ms. *)
Lemma calculateDelay_never_shrinks_witness :
  calculateDelay (2 + 1) 1000 "exponential"
  = 2 * calculateDelay 2 1000 "exponential".
Proof.
  apply (proj1 (proj2 (calculateDelay_never_shrinks 2 1000 "exponential"
                         ltac:(lia) ltac:(lia) eq_refl)) eq_refl).
Defined.

(** ** The log of the page *)

Lemma last_n_short {A : Type} (n : nat) (l : list A) :
  (length l <= n)%nat -> last_n n l = l.
Proof.
  intros H. unfold last_n. replace (length l - n)%nat with 0%nat by lia.
  reflexivity.
Qed.

Lemma last_n_length {A : Type} (n : nat) (l : list A) :
  length (last_n n l) = Nat.min n (length l).
Proof.
  unfold last_n. rewrite length_skipn.
  destruct (Nat.min_spec n (length l)) as [[? ->]|[? ->]]; lia.
Qed.

Lemma last_n_push {A : Type} (n : nat) (l : list A) (x : A) :
  (1 <= n)%nat -> last_n n (last_n n l ++ [x]) = last_n n (l ++ [x]).
Proof.
  intros Hn. destruct (Nat.le_gt_cases (length l) n) as [Hle|Hgt].
  - rewrite (last_n_short n l Hle). reflexivity.
  - unfold last_n at 1 3. rewrite !length_app, last_n_length. cbn [length].
    rewrite Nat.min_l by lia.
    replace (n + 1 - n)%nat with 1%nat by lia.
    unfold last_n.
    replace (length l + 1 - n)%nat with (1 + (length l - n))%nat by lia.
    rewrite <- skipn_skipn. f_equal.
    rewrite skipn_app.
    replace (length l - n - length l)%nat with 0%nat by lia. reflexivity.
Qed.

Lemma last_n_last_n {A : Type} (n m : nat) (l : list A) :
  (n <= m)%nat -> last_n n (last_n m l) = last_n n l.
Proof.
  intros Hnm. unfold last_n. rewrite length_skipn, skipn_skipn. f_equal. lia.
Qed.

Lemma last_n_app {A : Type} (n : nat) (x y : list A) :
  (1 <= n)%nat -> last_n n (last_n n x ++ y) = last_n n (x ++ y).
Proof.
  intros Hn. induction y as [|z y IH] using rev_ind.
  - rewrite !app_nil_r. apply last_n_last_n. lia.
  - rewrite (app_assoc (last_n n x) y [z]), (app_assoc x y [z]).
    rewrite <- (last_n_push n (last_n n x ++ y) z Hn), IH.
    apply last_n_push. exact Hn.
Qed.

Lemma log_keeps_last_50 (ts msg ty : string) (logEntries : list Log.Entry) :
  (length logEntries <= 50)%nat ->
  Log.log ts msg ty logEntries
  = last_n 50 (logEntries ++ [Log.mkEntry ts msg ty]).
Proof.
  intros H. unfold Log.log, last_n. rewrite !length_app. cbn [length].
  destruct (Nat.ltb_spec 50 (length logEntries + 1)) as [Hfull|Hroom].
  - replace (length logEntries + 1 - 50)%nat with 1%nat by lia.
    destruct (logEntries ++ [Log.mkEntry ts msg ty])%list; reflexivity.
  - replace (length logEntries + 1 - 50)%nat with 0%nat by lia. reflexivity.
Qed.

(** X5.  The log never holds more than 50 entries: after any number of
    calls of [log] it holds the last 50 of all the entries logged, in the
    order they were logged, and [renderLog] shows the last 20 of them:
    older entries are gone for good. *)
Theorem log_keeps_the_latest_entries (entries logEntries : list Log.Entry) :
  (length logEntries <= 50)%nat ->
  Log.log_all entries logEntries = last_n 50 (logEntries ++ entries) /\
  (length (Log.log_all entries logEntries) <= 50)%nat /\
  Log.renderLog (Log.log_all entries logEntries)
  = last_n 20 (logEntries ++ entries).
Proof.
  intros Hcap.
  assert (Hall : Log.log_all entries logEntries = last_n 50 (logEntries ++ entries)).
  { revert logEntries Hcap.
    induction entries as [|e entries IH]; intros logEntries Hcap.
    - cbn. rewrite app_nil_r, last_n_short; [reflexivity | exact Hcap].
    - unfold Log.log_all. cbn [fold_left]. fold (Log.log_all entries).
      destruct e as [ts msg ty]. cbn [Log.timestamp Log.message Log.type].
      rewrite (log_keeps_last_50 ts msg ty logEntries Hcap).
      rewrite IH by (rewrite last_n_length; apply Nat.le_min_l).
      rewrite last_n_app by lia. rewrite <- app_assoc. reflexivity. }
  rewrite Hall. split; [reflexivity|]. split.
  - rewrite last_n_length. apply Nat.le_min_l.
  - unfold Log.renderLog. apply last_n_last_n. lia.
Qed.

(** Sixty entries logged on an empty log: the first ten are gone. *)
Lemma log_keeps_the_latest_entries_witness :
  length (Log.log_all (repeat (Log.mkEntry "12:00:00" "Attempt" "processing") 60) [])
  = 50%nat.
Proof.
  rewrite (proj1 (log_keeps_the_latest_entries
                    (repeat (Log.mkEntry "12:00:00" "Attempt" "processing") 60) []
                    ltac:(cbn; lia))).
  reflexivity.
Defined.

(** ** The breaker of [ErrorUtils.createCircuitBreaker] *)

Lemma guarded_call_consistent (threshold timeout : Z) (call : GuardedCall)
  (g : Guard) :
  0 < threshold -> guard_consistent threshold g ->
  guard_consistent threshold
    (snd (guarded_call threshold timeout (guarded_outcome call)
            (guarded_latency call) (guarded_now call) g)).
Proof.
  intros Hthr (Hopen & Hlast & Hcount). unfold guarded_call, guard_consistent.
  destruct (g_isOpen g && _) eqn:Hblocked; cbn [snd].
  - auto.
  - destruct (guarded_outcome call) as [result|error]; cbn [snd g_isOpen
      g_failureCount g_lastFailureTime].
    + repeat split; try lia; discriminate.
    + destruct (Z.leb_spec threshold (g_failureCount g + 1)) as [Hge|Hlt];
        cbn [g_isOpen g_failureCount g_lastFailureTime];
        repeat split; try lia; discriminate.
Qed.

(** X6.  Between the calls of a function made by
    [ErrorUtils.createCircuitBreaker] with a threshold above 0, whatever
    the calls, their times and their outcomes: the breaker is open exactly
    when the failures counted have reached the threshold, an open breaker
    has a time of last failure, and the count is not negative. *)
Theorem guard_is_open_exactly_at_the_threshold (threshold timeout : Z)
  (calls : list GuardedCall) :
  0 < threshold ->
  guard_consistent threshold
    (guarded_session threshold timeout calls (mkGuard 0 None false)).
Proof.
  intros Hthr. unfold guarded_session.
  assert (Hinit : guard_consistent threshold (mkGuard 0 None false)).
  { unfold guard_consistent. cbn. repeat split; try lia; discriminate. }
  revert Hinit. generalize (mkGuard 0 None false).
  induction calls as [|call calls IH]; intros g Hg; [exact Hg|].
  cbn [fold_left]. apply IH. apply guarded_call_consistent; assumption.
Qed.

(** Two failures and a success under the threshold 2. *)
Lemma guard_is_open_exactly_at_the_threshold_witness :
  guard_consistent 2
    (guarded_session 2 30000
       [mkGuardedCall 0 (Reject (mkError "Request timeout")) 10;
        mkGuardedCall 20 (Reject (mkError "Request timeout")) 10;
        mkGuardedCall 40000 (Resolve (mkResponse "ok" 40000)) 10]
       (mkGuard 0 None false)).
Proof.
  apply (guard_is_open_exactly_at_the_threshold 2 30000). lia.
Defined.

(** X7.  While that breaker is open, calls made less than the timeout
    after the last failure are all rejected and change nothing, however
    many they are: they do not postpone the recovery.  The first call made
    the timeout or more after the last failure is let through, and when it
    succeeds the breaker is closed with no failure counted. *)
Theorem guard_rejections_do_not_postpone_recovery (threshold timeout : Z)
  (calls : list GuardedCall) (g : Guard) (last : Z) :
  g_isOpen g = true ->
  g_lastFailureTime g = Some last ->
  Forall (fun call => guarded_now call - last < timeout) calls ->
  guarded_session threshold timeout calls g = g /\
  Forall (fun call =>
            fst (guarded_call threshold timeout (guarded_outcome call)
                   (guarded_latency call) (guarded_now call) g)
            = Thrown (mkError "Circuit breaker is open")) calls /\
  forall (now latency : Z) (result : Response),
    timeout <= now - last ->
    guarded_call threshold timeout (Resolve result) latency now
      (guarded_session threshold timeout calls g)
    = (Returned (Some result), mkGuard 0 (Some last) false).
Proof.
  intros Hopen Hlast Hearly.
  assert (Hsame : guarded_session threshold timeout calls g = g).
  { unfold guarded_session. induction Hearly as [|call calls Hcall _ IH];
      [reflexivity|].
    cbn [fold_left]. rewrite guarded_call_blocked; [exact IH | exact Hopen |].
    rewrite Hlast. exact Hcall. }
  split; [exact Hsame|]. split.
  - eapply Forall_impl; [exact Hearly|]. intros call Hcall.
    rewrite guarded_call_blocked; [reflexivity | exact Hopen |].
    rewrite Hlast. exact Hcall.
  - intros now latency result Hlate. rewrite Hsame. unfold guarded_call.
    rewrite Hopen, Hlast. cbn [default from_option id andb].
    replace (now - last <? timeout) with false
      by (symmetry; apply Z.ltb_ge; exact Hlate).
    reflexivity.
Qed.

(** Opened at the time 1000: two calls within the 30 seconds, then one
    after them. *)
Lemma guard_rejections_do_not_postpone_recovery_witness :
  guarded_call 3 30000 (Resolve (mkResponse "ok" 31000)) 10 31000
    (guarded_session 3 30000
       [mkGuardedCall 2000 (Resolve (mkResponse "ok" 2000)) 10;
        mkGuardedCall 30999 (Resolve (mkResponse "ok" 30999)) 10]
       (mkGuard 3 (Some 1000) true))
  = (Returned (Some (mkResponse "ok" 31000)), mkGuard 0 (Some 1000) false).
Proof.
  apply (proj2 (proj2 (guard_rejections_do_not_postpone_recovery 3 30000
                         [mkGuardedCall 2000 (Resolve (mkResponse "ok" 2000)) 10;
                          mkGuardedCall 30999 (Resolve (mkResponse "ok" 30999)) 10]
                         (mkGuard 3 (Some 1000) true) 1000 eq_refl eq_refl
                         ltac:(repeat constructor; cbn; lia)))).
  lia.
Defined.

(** ** [ErrorUtils.retryWithBackoff] *)

Lemma indices_cons (a : Z) (n : nat) :
  indices a (S n) = a :: indices (a + 1) n.
Proof.
  unfold indices. cbn [seq map]. f_equal; [lia|].
  rewrite <- seq_shift, map_map. apply map_ext. intros i. lia.
Qed.

Lemma indices_snoc (a : Z) (n : nat) :
  indices a (S n) = (indices a n ++ [a + Z.of_nat n])%list.
Proof. unfold indices. rewrite seq_S, map_app. reflexivity. Qed.

Lemma indices_length (a : Z) (n : nat) : length (indices a n) = n.
Proof. unfold indices. rewrite length_map, length_seq. reflexivity. Qed.

(** The loop of [retryWithBackoff] entered at the attempt [a] within the
    budget. *)
Lemma backoff_loop_runs (fn : Thunk) (maxRetries baseDelay : Z)
  (backoffType : string) (fuel : nat) :
  forall (a : Z) (lastError : option Error) (env : Env) (evs : list Event),
    0 <= a <= maxRetries ->
    (Z.to_nat (maxRetries - a) < fuel)%nat ->
    exists s env' new n,
      backoff_loop fn fuel maxRetries baseDelay backoffType a lastError env evs
      = Some (s, env', (evs ++ new)%list) /\
      a + Z.of_nat n <= maxRetries /\
      invocations new = indices a (S n) /\
      waits new
      = map (fun i => calculateDelay i baseDelay backoffType) (indices a n) /\
      clock env' - clock env = total_busy new /\
      match s with
      | Fulfilled result =>
          exists env0, fn env0 = (Resolve result, env')
      | Rejected last =>
          a + Z.of_nat n = maxRetries /\
          exists e env0, last = Some e /\ fn env0 = (Reject e, env')
      end.
Proof.
  induction fuel as [|fuel IH]; intros a lastError env evs Ha Hfuel; [lia|].
  cbn [backoff_loop].
  replace (a <=? maxRetries) with true by (symmetry; apply Z.leb_le; lia).
  destruct (fn env) as [outcome env1] eqn:Efn.
  destruct outcome as [result|error].
  - exists (Fulfilled result), env1, [Invoked a (clock env) (clock env1)], 0%nat.
    split; [reflexivity|]. split; [lia|]. split; [cbn; f_equal; lia|].
    split; [reflexivity|]. split; [unfold total_busy; cbn; lia|].
    exists env. exact Efn.
  - destruct (Z.eqb_spec a maxRetries) as [Hlast|Hmore].
    + exists (Rejected (Some error)), env1,
             [Invoked a (clock env) (clock env1)], 0%nat.
      split; [reflexivity|]. split; [lia|]. split; [cbn; f_equal; lia|].
      split; [reflexivity|]. split; [unfold total_busy; cbn; lia|].
      split; [lia|]. exists error, env. split; [reflexivity | exact Efn].
    + set (d := calculateDelay a baseDelay backoffType).
      destruct (IH (a + 1) (Some error) (sleep (Z.max 0 d) env1)
                  ((evs ++ [Invoked a (clock env) (clock env1)])
                   ++ [Retrying d])%list)
        as (s & env' & new & n & Hrun & Hn & Hinv & Hw & Hb & Hs);
        [lia | lia |].
      exists s, env',
             ([Invoked a (clock env) (clock env1); Retrying d] ++ new)%list, (S n).
      split; [rewrite Hrun, <- !app_assoc; reflexivity|].
      split; [lia|].
      split; [rewrite invocations_app, Hinv, (indices_cons a (S n)); reflexivity|].
      split; [rewrite waits_app, Hw, (indices_cons a n); reflexivity|].
      split.
      { rewrite total_busy_app, <- Hb. unfold total_busy. cbn. lia. }
      destruct s as [result|last].
      * exact Hs.
      * destruct Hs as (Hend & Hlast). split; [lia | exact Hlast].
Qed.

(** X8.  [retryWithBackoff] with a budget that is not negative calls [fn]
    at least once and at most [maxRetries + 1] times, and waits the backoff
    delay of the attempt between two calls and nowhere else; when these
    waits are delays a timer takes, it takes as long as the calls and the
    waits together.  It returns the result of the
    first call that resolves; it throws only after [maxRetries + 1] calls,
    and then the error of the last call, whatever the errors were: it asks
    no classifier.  With a negative budget it never calls [fn] and throws
    [undefined]. *)
Theorem retryWithBackoff_calls_until_success_or_budget (fn : Thunk)
  (maxRetries baseDelay : Z) (backoffType : string) (env : Env) :
  (maxRetries < 0 ->
   retryWithBackoff fn maxRetries baseDelay backoffType env
   = Some (Rejected None, env, [])) /\
  (0 <= maxRetries ->
   exists s env' evs n,
     retryWithBackoff fn maxRetries baseDelay backoffType env
     = Some (s, env', evs) /\
     Z.of_nat n <= maxRetries /\
     invocations evs = indices 0 (S n) /\
     waits evs
     = map (fun i => calculateDelay i baseDelay backoffType) (indices 0 n) /\
     (waits_fit_timer evs -> clock env' - clock env = total_busy evs) /\
     match s with
     | Fulfilled result => exists env0, fn env0 = (Resolve result, env')
     | Rejected last =>
         Z.of_nat n = maxRetries /\
         exists e env0, last = Some e /\ fn env0 = (Reject e, env')
     end).
Proof.
  unfold retryWithBackoff. split.
  - intros Hneg. cbn [backoff_loop].
    replace (0 <=? maxRetries) with false by (symmetry; apply Z.leb_gt; lia).
    reflexivity.
  - intros Hbudget.
    destruct (backoff_loop_runs fn maxRetries baseDelay backoffType
                (S (Z.to_nat (maxRetries + 1))) 0 None env [])
      as (s & env' & new & n & Hrun & Hn & Hinv & Hw & Hb & Hs); [lia | lia |].
    exists s, env', new, n. cbn [app] in Hrun.
    split; [exact Hrun|]. split; [lia|]. split; [exact Hinv|].
    split; [exact Hw|]. split; [intros _; exact Hb|].
    destruct s; [exact Hs|]. destruct Hs as (Hend & Hlast).
    split; [lia | exact Hlast].
Qed.

(** A function that always fails with a 401, which [isRetryableError]
    refuses, under a budget of two retries: three calls all the same. *)
Lemma retryWithBackoff_calls_until_success_or_budget_witness :
  exists s env' evs,
    retryWithBackoff
      (fun env => (Reject (mkError "Unauthorized (401)"), sleep 100 env))
      2 1000 "exponential" (mkEnv 0 (fun _ => 0%Q) 0)
    = Some (s, env', evs) /\
    invocations evs = [0; 1; 2] /\ waits evs = [1000; 2000].
Proof.
  destruct (proj2 (retryWithBackoff_calls_until_success_or_budget
                     (fun env => (Reject (mkError "Unauthorized (401)"),
                                  sleep 100 env))
                     2 1000 "exponential" (mkEnv 0 (fun _ => 0%Q) 0))
              ltac:(lia))
    as (s & env' & evs & n & Hrun & _).
  exists s, env', evs. split; [exact Hrun|].
  vm_compute in Hrun. injection Hrun as <- <- <-. split; reflexivity.
Defined.

(** ** A rule for the retry loop *)

(** To show that every completion of the loop satisfies [Q], give an
    invariant [I] of the head of the loop and go through the four ways an
    iteration ends. *)
Lemma retry_loop_rule (operation : Operation) (st : Z)
  (I : Z -> ErrorHandler -> Env -> Prop)
  (Q : Completion -> ErrorHandler -> Env -> Prop) :
  (forall a h env, I a h env -> maxRetries h < a -> Q (Returned None) h env) ->
  (forall a h env r h1 env1,
     I a h env -> a <= maxRetries h ->
     attempt_request operation a h env = (Resolve r, h1, env1) ->
     Q (Returned (Some r)) (on_success st h1 env1) env1) ->
  (forall a h env e h1 env1,
     I a h env -> a <= maxRetries h ->
     attempt_request operation a h env = (Reject e, h1, env1) ->
     (a + 1 <=? maxRetries (on_error e h1 env1)) && isRetryableError e = false ->
     Q (Thrown e) (rethrow (a + 1) e (on_error e h1 env1)) env1) ->
  (forall a h env e h1 env1,
     I a h env -> a <= maxRetries h ->
     attempt_request operation a h env = (Reject e, h1, env1) ->
     (a + 1 <=? maxRetries (on_error e h1 env1)) && isRetryableError e = true ->
     I (a + 1) (fst (schedule_retry (a + 1) (on_error e h1 env1) env1))
       (snd (schedule_retry (a + 1) (on_error e h1 env1) env1))) ->
  forall fuel a h env c h' env',
    I a h env ->
    retry_loop operation fuel st a h env = Some (c, h', env') ->
    Q c h' env'.
Proof.
  intros Hexit Hok Hthrow Hretry.
  induction fuel as [|fuel IH]; intros a h env c h' env' Hinv Hrun;
    [discriminate Hrun|].
  cbn [retry_loop] in Hrun.
  destruct (Z.leb_spec a (maxRetries h)) as [Hle|Hgt].
  2:{ injection Hrun as <- <- <-. eapply Hexit; eassumption. }
  destruct (attempt_request operation a h env) as [[o h1] env1] eqn:Ereq.
  destruct o as [r|e].
  - injection Hrun as <- <- <-. eapply Hok; eassumption.
  - destruct ((a + 1 <=? maxRetries (on_error e h1 env1)) && isRetryableError e)
      eqn:Econd.
    + specialize (Hretry a h env e h1 env1 Hinv Hle Ereq Econd).
      destruct (schedule_retry (a + 1) (on_error e h1 env1) env1) as [h2 env2].
      cbn [fst snd] in Hretry. exact (IH _ _ _ _ _ _ Hretry Hrun).
    + injection Hrun as <- <- <-. eapply Hthrow; eassumption.
Qed.

(** What the [try] block does to the rest of the handler. *)
Lemma attempt_request_state (operation : Operation) (a : Z)
  (h : ErrorHandler) (env : Env) (o : Settled) (h1 : ErrorHandler) (env1 : Env) :
  attempt_request operation a h env = (o, h1, env1) ->
  circuitBreakerState h1 = breaker_checked (clock env) (circuitBreakerState h) /\
  currentRequest h1 = begin_attempt (a + 1) (currentRequest h) /\
  requestTimeout h1 = requestTimeout h /\
  errorTypes (stats h1) = errorTypes (stats h) /\
  (breaker_blocks (clock env) (circuitBreakerState h) = true ->
   o = Reject circuitOpenError /\ env1 = env /\
   exists evs, trace h1 = (trace h ++ evs)%list /\
               timeline evs = [Attempt (a + 1) (maxRetries h + 1) (clock env)]) /\
  (breaker_blocks (clock env) (circuitBreakerState h) = false ->
   operation a env = (o, env1) /\
   exists evs, trace h1 = (trace h ++ evs)%list /\
               timeline evs = [Attempt (a + 1) (maxRetries h + 1) (clock env);
                               Invoked a (clock env) (clock env1)]).
Proof.
  intros Hreq.
  assert (Hcb : circuitBreakerState h1
                = breaker_checked (clock env) (circuitBreakerState h) /\
                currentRequest h1 = begin_attempt (a + 1) (currentRequest h) /\
                requestTimeout h1 = requestTimeout h /\
                errorTypes (stats h1) = errorTypes (stats h)).
  { revert Hreq. unfold attempt_request, isCircuitBreakerOpen, breaker_checked,
      resetCircuitBreaker. fields.
    destruct (isOpen (circuitBreakerState h)); cbn [andb].
    - destruct (timeout (circuitBreakerState h) <=? _).
      + destruct (operation a env) as [o' env']. intros [= <- <- <-].
        repeat split.
      + intros [= <- <- <-]. repeat split.
    - destruct (operation a env) as [o' env']. intros [= <- <- <-].
      repeat split. }
  destruct Hcb as (H1 & H2 & H3 & H4).
  split; [exact H1|]. split; [exact H2|]. split; [exact H3|]. split; [exact H4|].
  split.
  - intros Hblock.
    destruct (attempt_request_blocked operation a h env Hblock)
      as (h1' & evs & Hreq' & _ & _ & _ & Ht & Htl).
    rewrite Hreq in Hreq'. injection Hreq' as -> -> ->.
    split; [reflexivity|]. split; [reflexivity|]. exists evs. auto.
  - intros Hadmit. destruct (operation a env) as [o' env'] eqn:Eop.
    destruct (attempt_request_admitted operation a h env o' env' Hadmit Eop)
      as (h1' & evs & Hreq' & _ & _ & _ & Ht & Htl).
    rewrite Hreq in Hreq'. injection Hreq' as -> -> ->.
    split; [reflexivity|]. exists evs. auto.
Qed.

(** ** The budget and the schedule of the retries *)

Lemma indices_next (a : Z) :
  0 <= a ->
  indices 0 (Z.to_nat (a + 1)) = (indices 0 (Z.to_nat a) ++ [a])%list.
Proof.
  intros Ha. replace (Z.to_nat (a + 1)) with (S (Z.to_nat a)) by lia.
  rewrite indices_snoc. do 2 f_equal. lia.
Qed.

(** The loop entered at the attempt 0 in [h0]: what its trace holds when
    it completes. *)
Lemma retry_loop_schedule (operation : Operation) (st : Z) (h0 : ErrorHandler)
  (fuel : nat) (env : Env) (c : Completion) (h' : ErrorHandler) (env' : Env) :
  retry_loop operation fuel st 0 h0 env = Some (c, h', env') ->
  exists evs n k,
    trace h' = (trace h0 ++ evs)%list /\
    waits evs
    = map (fun i => calculateDelay i (baseDelay h0) (backoffType h0))
          (indices 0 n) /\
    invocations evs = indices 0 k /\
    (n <= k <= n + 1)%nat /\
    Z.of_nat n <= Z.max 0 (maxRetries h0) /\
    match c with
    | Returned (Some _) => k = S n
    | Returned None => k = 0%nat /\ n = 0%nat
    | Thrown e => k = n -> e = circuitOpenError
    end.
Proof.
  set (delay := fun i => calculateDelay i (baseDelay h0) (backoffType h0)).
  apply (retry_loop_rule operation st
           (fun a h env =>
              policy h = policy h0 /\ 0 <= a /\ (a = 0 \/ a <= maxRetries h0) /\
              exists evs, trace h = (trace h0 ++ evs)%list /\
                          waits evs = map delay (indices 0 (Z.to_nat a)) /\
                          invocations evs = indices 0 (Z.to_nat a))
           (fun c h' env' =>
              exists evs n k,
                trace h' = (trace h0 ++ evs)%list /\
                waits evs = map delay (indices 0 n) /\
                invocations evs = indices 0 k /\
                (n <= k <= n + 1)%nat /\
                Z.of_nat n <= Z.max 0 (maxRetries h0) /\
                match c with
                | Returned (Some _) => k = S n
                | Returned None => k = 0%nat /\ n = 0%nat
                | Thrown e => k = n -> e = circuitOpenError
                end)).
  - (* the loop is not entered *)
    intros a h env1 (Hp & Ha & Hbound & evs & Ht & Hw & Hi) Hgt.
    pose proof (policy_inv _ _ Hp) as (Hm & _).
    assert (a = 0) as -> by lia.
    exists evs, 0%nat, 0%nat. cbn in Hw, Hi. repeat split; auto; lia.
  - (* the request resolves *)
    intros a h env1 r h1 env2 (Hp & Ha & Hbound & evs & Ht & Hw & Hi) Hle Hreq.
    pose proof (policy_inv _ _ Hp) as (Hm & _).
    destruct (attempt_request_state operation a h env1 _ _ _ Hreq)
      as (_ & _ & _ & _ & Hblocked & Hadmitted).
    destruct (breaker_blocks (clock env1) (circuitBreakerState h)) eqn:Eb.
    { destruct (Hblocked eq_refl) as (Habs & _). discriminate Habs. }
    destruct (Hadmitted eq_refl) as (_ & evs1 & Ht1 & Htl1).
    exists (evs ++ evs1 ++ [Completed])%list, (Z.to_nat a), (S (Z.to_nat a)).
    unfold on_success, resetCircuitBreaker. fields.
    rewrite Ht1, Ht, <- !app_assoc. split; [reflexivity|].
    rewrite !waits_app, !invocations_app, Hw, Hi.
    rewrite <- (waits_timeline evs1), <- (invocations_timeline evs1), Htl1.
    cbn [waits invocations flat_map app]. rewrite ?app_nil_r, indices_snoc.
    repeat split; try lia. do 2 f_equal. lia.
  - (* the error is rethrown *)
    intros a h env1 e h1 env2 (Hp & Ha & Hbound & evs & Ht & Hw & Hi) Hle Hreq _.
    pose proof (policy_inv _ _ Hp) as (Hm & _).
    destruct (attempt_request_state operation a h env1 _ _ _ Hreq)
      as (_ & _ & _ & _ & Hblocked & Hadmitted).
    pose proof (on_error_frame e h1 env2) as (_ & _ & evs2 & Ht2 & _ & Hw2 & Htl2).
    unfold rethrow. fields. rewrite Ht2.
    destruct (breaker_blocks (clock env1) (circuitBreakerState h)) eqn:Eb.
    + destruct (Hblocked eq_refl) as (He & _ & evs1 & Ht1 & Htl1).
      injection He as ->.
      exists (evs ++ evs1 ++ evs2 ++ [Failure circuitOpenError]
              ++ [GaveUp (a + 1) circuitOpenError])%list,
             (Z.to_nat a), (Z.to_nat a).
      rewrite Ht1, Ht, <- !app_assoc. split; [reflexivity|].
      rewrite !waits_app, !invocations_app, Hw, Hi, Hw2.
      rewrite <- (waits_timeline evs1), <- (invocations_timeline evs1),
        <- (invocations_timeline evs2), Htl1, Htl2.
      cbn [waits invocations flat_map app]. rewrite ?app_nil_r.
      repeat split; lia.
    + destruct (Hadmitted eq_refl) as (_ & evs1 & Ht1 & Htl1).
      exists (evs ++ evs1 ++ evs2 ++ [Failure e] ++ [GaveUp (a + 1) e])%list,
             (Z.to_nat a), (S (Z.to_nat a)).
      rewrite Ht1, Ht, <- !app_assoc. split; [reflexivity|].
      rewrite !waits_app, !invocations_app, Hw, Hi, Hw2.
      rewrite <- (waits_timeline evs1), <- (invocations_timeline evs1),
        <- (invocations_timeline evs2), Htl1, Htl2.
      cbn [waits invocations flat_map app]. rewrite ?app_nil_r, indices_snoc.
      repeat split; try lia. do 2 f_equal. lia.
  - (* a retry is scheduled *)
    intros a h env1 e h1 env2 (Hp & Ha & Hbound & evs & Ht & Hw & Hi) Hle Hreq Hcond.
    pose proof (policy_inv _ _ Hp) as (Hm & Hbd & Hk).
    destruct (attempt_request_frame operation a h env1 _ _ _ Hreq)
      as (_ & Hp1 & _).
    destruct (attempt_request_state operation a h env1 _ _ _ Hreq)
      as (_ & _ & _ & _ & Hblocked & Hadmitted).
    pose proof (on_error_frame e h1 env2) as (_ & Hp2 & evs2 & Ht2 & _ & Hw2 & Htl2).
    apply andb_true_iff in Hcond as (Hnext & Hretry). apply Z.leb_le in Hnext.
    pose proof (policy_inv _ _ Hp1) as (Hm1 & Hbd1 & Hk1).
    pose proof (policy_inv _ _ Hp2) as (Hm2 & Hbd2 & Hk2).
    destruct (breaker_blocks (clock env1) (circuitBreakerState h)) eqn:Eb.
    { destruct (Hblocked eq_refl) as (He & _). injection He as ->.
      rewrite circuitOpenError_not_retryable in Hretry. discriminate Hretry. }
    destruct (Hadmitted eq_refl) as (_ & evs1 & Ht1 & Htl1).
    unfold schedule_retry. cbn [fst snd]. unfold policy. fields.
    split; [congruence|]. split; [lia|]. split; [right; lia|].
    replace (a + 1 - 1) with a by lia.
    rewrite calculateBackoffDelay_policy. fields.
    exists (evs ++ evs1 ++ evs2 ++ [Failure e]
            ++ [Retrying (calculateDelay a (baseDelay h0) (backoffType h0))])%list.
    rewrite Ht2, Ht1, Ht, <- !app_assoc. split; [do 5 f_equal; congruence|].
    rewrite !waits_app, !invocations_app, Hw, Hi, Hw2.
    rewrite <- (waits_timeline evs1), <- (invocations_timeline evs1),
      <- (invocations_timeline evs2), Htl1, Htl2.
    cbn [waits invocations flat_map app]. rewrite ?app_nil_r.
    rewrite (indices_next a Ha), map_app. split; reflexivity.
  - (* at the head of the loop *)
    split; [reflexivity|]. split; [lia|]. split; [left; reflexivity|].
    exists []. rewrite app_nil_r. repeat split.
Qed.

(** X9.  A call never exceeds its retry budget and keeps to the backoff
    schedule.  It schedules [n] retries with [n] at most [maxRetries] (none
    for a negative budget); the retry after the [i]-th failed call waits
    exactly the backoff delay of the index [i - 1], so the waits are the
    first [n] delays of the schedule; [totalRetries] grows by [n].  The
    operation is called with the attempt indices 0, 1, 2 ... in order, [n]
    or [n + 1] times: [n + 1] times when the call returns a result, and [n]
    times only when the breaker has stopped the last attempt. *)
Theorem execute_keeps_budget_and_schedule (operation : Operation)
  (form : Settings) (h : ErrorHandler) (env : Env) :
  exists c h' env' evs n k,
    execute operation form h env = Some (c, h', env') /\
    trace h' = (trace h ++ evs)%list /\
    waits evs
    = map (fun i => calculateDelay i (form_baseDelay form) (form_backoffType form))
          (indices 0 n) /\
    invocations evs = indices 0 k /\
    (n <= k <= n + 1)%nat /\
    Z.of_nat n <= Z.max 0 (form_maxRetries form) /\
    totalRetries (stats h') = totalRetries (stats h) + Z.of_nat n /\
    (forall r, c = Returned (Some r) -> k = S n) /\
    (forall e, c = Thrown e -> k = n -> e = circuitOpenError).
Proof.
  destruct (execute_completes operation form h env)
    as (c & h' & env' & evs & Hrun & Ht & _ & _ & Hretries & _).
  pose proof Hrun as Hrun'. unfold execute in Hrun'.
  apply retry_loop_schedule in Hrun'
    as (evs' & n & k & Ht' & Hw & Hi & Hnk & Hn & Hc).
  fields. rewrite Ht in Ht'. apply app_inv_head in Ht'. subst evs'.
  exists c, h', env', evs, n, k.
  repeat (split; [assumption|]).
  split.
  { rewrite Hretries, Hw, length_map, indices_length. reflexivity. }
  split.
  - intros r ->. exact Hc.
  - intros e ->. exact Hc.
Qed.

(** ** What every reachable handler satisfies *)

Lemma breaker_checked_consistent (now : Z) (cb : CircuitBreakerState) :
  breaker_consistent cb -> breaker_consistent (breaker_checked now cb).
Proof.
  intros Hcb. unfold breaker_checked.
  destruct (isOpen cb && _); [|exact Hcb].
  destruct Hcb as (_ & _ & _ & Hthr & Hto). unfold breaker_consistent.
  cbn [isOpen failureCount lastFailureTime threshold timeout].
  rewrite Hthr. repeat split; try lia; try discriminate; try exact Hto.
Qed.

Lemma breaker_failed_consistent (now : Z) (cb : CircuitBreakerState) :
  breaker_consistent cb -> breaker_consistent (breaker_failed now cb).
Proof.
  intros (Hopen & _ & Hcount & Hthr & Hto). unfold breaker_failed, breaker_consistent.
  cbn [isOpen failureCount lastFailureTime threshold timeout].
  rewrite Hopen, Hthr.
  repeat split; try lia; try discriminate; assumption.
Qed.

(** One call keeps the breaker consistent. *)
Lemma execute_keeps_breaker_consistent (operation : Operation) (form : Settings)
  (h : ErrorHandler) (env : Env) (c : Completion) (h' : ErrorHandler) (env' : Env) :
  breaker_consistent (circuitBreakerState h) ->
  execute operation form h env = Some (c, h', env') ->
  breaker_consistent (circuitBreakerState h').
Proof.
  intros Hcb Hrun. unfold execute in Hrun.
  revert Hrun.
  apply (retry_loop_rule operation (clock env)
           (fun _ h _ => breaker_consistent (circuitBreakerState h))
           (fun _ h' _ => breaker_consistent (circuitBreakerState h'))).
  - intros a h1 env1 Hinv _. exact Hinv.
  - intros a h1 env1 r h2 env2 Hinv _ Hreq.
    apply attempt_request_state in Hreq as (Hb & _).
    apply (breaker_checked_consistent (clock env1)) in Hinv.
    rewrite <- Hb in Hinv. destruct Hinv as (_ & _ & _ & Hthr & Hto).
    unfold on_success, resetCircuitBreaker, breaker_consistent. fields.
    rewrite Hthr. repeat split; try lia; try discriminate; try exact Hto.
  - intros a h1 env1 e h2 env2 Hinv _ Hreq _.
    apply attempt_request_state in Hreq as (Hb & _).
    unfold rethrow. fields. rewrite on_error_breaker, Hb.
    apply breaker_failed_consistent, breaker_checked_consistent, Hinv.
  - intros a h1 env1 e h2 env2 Hinv _ Hreq _.
    apply attempt_request_state in Hreq as (Hb & _).
    unfold schedule_retry. cbn [fst]. fields. rewrite on_error_breaker, Hb.
    apply breaker_failed_consistent, breaker_checked_consistent, Hinv.
  - exact Hcb.
Qed.

(** One call keeps the statistics consistent. *)
Lemma execute_keeps_stats_consistent (operation : Operation) (form : Settings)
  (h : ErrorHandler) (env : Env) (c : Completion) (h' : ErrorHandler) (env' : Env) :
  stats_consistent (stats h) ->
  execute operation form h env = Some (c, h', env') ->
  stats_consistent (stats h').
Proof.
  intros (Hlen & Hs & Hf & Hr & Hsum) Hrun.
  destruct (execute_completes operation form h env)
    as (c0 & h0 & env0 & evs & Hrun0 & _ & _ & Hq & Hret & Hc).
  rewrite Hrun in Hrun0. injection Hrun0 as <- <- <-.
  unfold stats_consistent.
  destruct c as [[r|]|e].
  - destruct Hc as (Hs' & Hf' & Ht' & _). rewrite Ht', length_app. cbn [length].
    repeat split; lia.
  - destruct Hc as (_ & _ & Hs' & Hf' & Ht'). rewrite Ht'. repeat split; lia.
  - destruct Hc as (Hs' & Hf' & Ht' & _). rewrite Ht'. repeat split; lia.
Qed.

(** A session always runs to its end, and what every call keeps holds at
    the end. *)
Lemma session_rule (Inv : ErrorHandler -> Prop) :
  (forall operation form h env c h' env',
     Inv h -> execute operation form h env = Some (c, h', env') -> Inv h') ->
  forall calls h env,
    Inv h -> exists h' env', session calls h env = Some (h', env') /\ Inv h'.
Proof.
  intros Hstep. induction calls as [|call calls IH]; intros h env Hinv.
  - exists h, env. split; [reflexivity | exact Hinv].
  - cbn [session].
    destruct (execute_completes (call_request call) (call_form call) h
                (sleep (call_idle call) env))
      as (c & h1 & env1 & evs & Hrun & _).
    rewrite Hrun. apply IH. eapply Hstep; eassumption.
Qed.

(** X10.  After any succession of top-level calls on a new handler,
    whatever their operations, their settings and the time between them,
    the breaker is open exactly when [failureCount] has reached the
    threshold, an open breaker has a [lastFailureTime], [failureCount] is
    not negative, and threshold and timeout are still 3 and 30000. *)
Theorem breaker_is_open_exactly_at_the_threshold (calls : list Call) (env : Env) :
  exists h' env',
    session calls new_ErrorHandler env = Some (h', env') /\
    breaker_consistent (circuitBreakerState h').
Proof.
  apply (session_rule (fun h => breaker_consistent (circuitBreakerState h))).
  - intros operation form h env0 c h' env' Hinv Hrun.
    eapply execute_keeps_breaker_consistent; eassumption.
  - unfold breaker_consistent. cbn. repeat split; try lia; discriminate.
Qed.

(** X11.  After any succession of top-level calls on a new handler,
    [responseTimes] holds exactly one entry per successful request, no
    counter is negative, and the successes and failures together do not
    exceed [totalRequests]. *)
Theorem statistics_stay_consistent (calls : list Call) (env : Env) :
  exists h' env',
    session calls new_ErrorHandler env = Some (h', env') /\
    stats_consistent (stats h').
Proof.
  apply (session_rule (fun h => stats_consistent (stats h))).
  - intros operation form h env0 c h' env' Hinv Hrun.
    eapply execute_keeps_stats_consistent; eassumption.
  - unfold stats_consistent. cbn. repeat split; lia.
Qed.

(** ** The request the page shows *)

Lemma on_error_current (error : Error) (h : ErrorHandler) (env : Env) :
  currentRequest (on_error error h env) = currentRequest h /\
  requestTimeout (on_error error h env) = requestTimeout h.
Proof.
  unfold on_error, incrementCircuitBreakerFailures. fields.
  destruct (_ <=? _); split; reflexivity.
Qed.

(** X12.  When a call with a budget that is not negative has completed,
    the request shown on the page tells how: its status is success after a
    return and failed after a throw, no retry is pending, [maxAttempts] is
    [maxRetries + 1], and [attempt] is the number of the last attempt, one
    more than the retries the call scheduled, so between 1 and
    [maxAttempts]: the progress shown never passes 100%. *)
Theorem currentRequest_shows_how_the_call_ended (operation : Operation)
  (form : Settings) (h : ErrorHandler) (env : Env) :
  0 <= form_maxRetries form ->
  exists c h' env',
    execute operation form h env = Some (c, h', env') /\
    status (currentRequest h')
    = match c with Returned _ => "success" | Thrown _ => "failed" end /\
    nextRetryTime (currentRequest h') = None /\
    maxAttempts (currentRequest h') = form_maxRetries form + 1 /\
    attempt (currentRequest h')
    = totalRetries (stats h') - totalRetries (stats h) + 1 /\
    1 <= attempt (currentRequest h') <= maxAttempts (currentRequest h').
Proof.
  intros Hbudget.
  destruct (execute_completes operation form h env)
    as (c & h' & env' & evs & Hrun & _ & _ & _ & _ & Hc).
  exists c, h', env'. split; [exact Hrun|].
  assert (Hsome : c <> Returned None).
  { intros ->. destruct Hc as (Hneg & _). lia. }
  clear Hc. unfold execute in Hrun. revert Hrun Hsome.
  set (M := form_maxRetries form). set (R := totalRetries (stats h)).
  apply (retry_loop_rule operation (clock env)
           (fun a h1 _ =>
              maxRetries h1 = M /\ maxAttempts (currentRequest h1) = M + 1 /\
              totalRetries (stats h1) = R + a /\ 0 <= a)
           (fun c h' _ =>
              c <> Returned None ->
              status (currentRequest h')
              = match c with Returned _ => "success" | Thrown _ => "failed" end /\
              nextRetryTime (currentRequest h') = None /\
              maxAttempts (currentRequest h') = M + 1 /\
              attempt (currentRequest h') = totalRetries (stats h') - R + 1 /\
              1 <= attempt (currentRequest h') <= maxAttempts (currentRequest h'))).
  - intros a h1 env1 _ _ Habs. congruence.
  - intros a h1 env1 r h2 env2 (Hm & Hma & Hr & Ha) Hle Hreq _.
    destruct (attempt_request_frame operation a h1 env1 _ _ _ Hreq)
      as (Hc1 & _).
    apply counts_inv in Hc1 as (_ & _ & _ & Hr1 & _).
    apply attempt_request_state in Hreq as (_ & Hcr & _).
    unfold on_success, resetCircuitBreaker. fields. rewrite Hcr, Hr1, Hr.
    cbn [status attempt maxAttempts nextRetryTime begin_attempt settle_current]. rewrite Hma.
    repeat split; lia.
  - intros a h1 env1 e h2 env2 (Hm & Hma & Hr & Ha) Hle Hreq _ _.
    destruct (attempt_request_frame operation a h1 env1 _ _ _ Hreq)
      as (Hc1 & _).
    apply counts_inv in Hc1 as (_ & _ & _ & Hr1 & _).
    apply attempt_request_state in Hreq as (_ & Hcr & _).
    destruct (on_error_frame e h2 env2) as (Hc2 & _).
    apply counts_inv in Hc2 as (_ & _ & _ & Hr2 & _).
    unfold rethrow. fields.
    rewrite (proj1 (on_error_current e h2 env2)), Hcr, Hr2, Hr1, Hr.
    cbn [status attempt maxAttempts nextRetryTime begin_attempt settle_current]. rewrite Hma.
    repeat split; lia.
  - intros a h1 env1 e h2 env2 (Hm & Hma & Hr & Ha) Hle Hreq Hcond.
    destruct (attempt_request_frame operation a h1 env1 _ _ _ Hreq)
      as (Hc1 & Hp1 & _).
    apply counts_inv in Hc1 as (_ & _ & _ & Hr1 & _).
    apply policy_inv in Hp1 as (Hm1 & _).
    apply attempt_request_state in Hreq as (_ & Hcr & _).
    destruct (on_error_frame e h2 env2) as (Hc2 & Hp2 & _).
    apply counts_inv in Hc2 as (_ & _ & _ & Hr2 & _).
    apply policy_inv in Hp2 as (Hm2 & _).
    unfold schedule_retry. cbn [fst snd]. fields.
    rewrite (proj1 (on_error_current e h2 env2)), Hcr, Hr2, Hr1, Hr, Hm2, Hm1.
    cbn [status attempt maxAttempts nextRetryTime begin_attempt settle_current].
    repeat split; try assumption; lia.
  - fields. subst M R. repeat split; lia.
Qed.

(** The unauthorized request with the default settings on a new handler:
    failed at the attempt 1 of 4. *)
Lemma currentRequest_shows_how_the_call_ended_witness :
  exists h' env',
    execute (simulateAPIRequest "unauthorized")
      (mkSettings 3 1000 "exponential" 5000) new_ErrorHandler
      (mkEnv 0 (fun _ => 0%Q) 0)
    = Some (Thrown (mkError "Unauthorized (401) - Invalid credentials"), h', env') /\
    currentRequest h' = mkCurrent "failed" 1 4 None.
Proof.
  destruct (currentRequest_shows_how_the_call_ended
              (simulateAPIRequest "unauthorized")
              (mkSettings 3 1000 "exponential" 5000) new_ErrorHandler
              (mkEnv 0 (fun _ => 0%Q) 0) ltac:(simpl; lia))
    as (c & h' & env' & Hrun & _).
  vm_compute in Hrun. injection Hrun as <- <- <-.
  eexists. eexists. split; reflexivity.
Defined.

(** ** The request timeout *)

Lemma attempt_request_timeout (operation : Operation) (t a : Z)
  (h : ErrorHandler) (env : Env) (o : Settled) (h1 : ErrorHandler) (env1 : Env) :
  attempt_request operation a h env = (o, h1, env1) ->
  attempt_request operation a (set_requestTimeout t h) env
  = (o, set_requestTimeout t h1, env1).
Proof.
  destruct h as [s cb cr m b k rt tr].
  unfold attempt_request, isCircuitBreakerOpen, resetCircuitBreaker,
    set_requestTimeout. fields.
  destruct (isOpen cb).
  - destruct (timeout cb <=? _).
    + destruct (operation a env) as [o' env']. intros [= <- <- <-]. reflexivity.
    + intros [= <- <- <-]. reflexivity.
  - destruct (operation a env) as [o' env']. intros [= <- <- <-]. reflexivity.
Qed.

Lemma on_error_timeout (t : Z) (error : Error) (h : ErrorHandler) (env : Env) :
  on_error error (set_requestTimeout t h) env
  = set_requestTimeout t (on_error error h env).
Proof.
  destruct h as [s cb cr m b k rt tr].
  unfold on_error, incrementCircuitBreakerFailures, set_requestTimeout. fields.
  destruct (threshold cb <=? _); reflexivity.
Qed.

Lemma retry_loop_timeout (operation : Operation) (t st : Z) (fuel : nat) :
  forall a h env c h' env',
    retry_loop operation fuel st a h env = Some (c, h', env') ->
    retry_loop operation fuel st a (set_requestTimeout t h) env
    = Some (c, set_requestTimeout t h', env').
Proof.
  induction fuel as [|fuel IH]; intros a h env c h' env' Hrun;
    [discriminate Hrun|].
  cbn [retry_loop] in Hrun |- *.
  change (maxRetries (set_requestTimeout t h)) with (maxRetries h).
  destruct (a <=? maxRetries h).
  2:{ injection Hrun as <- <- <-. reflexivity. }
  destruct (attempt_request operation a h env) as [[o h1] env1] eqn:Ereq.
  rewrite (attempt_request_timeout operation t a h env o h1 env1 Ereq).
  destruct o as [r|e].
  - injection Hrun as <- <- <-. destruct h1. reflexivity.
  - rewrite on_error_timeout.
    change (maxRetries (set_requestTimeout t (on_error e h1 env1)))
      with (maxRetries (on_error e h1 env1)).
    destruct ((a + 1 <=? maxRetries (on_error e h1 env1)) && isRetryableError e).
    + change (schedule_retry (a + 1) (set_requestTimeout t (on_error e h1 env1)) env1)
        with (set_requestTimeout t (fst (schedule_retry (a + 1) (on_error e h1 env1) env1)),
              snd (schedule_retry (a + 1) (on_error e h1 env1) env1)).
      destruct (schedule_retry (a + 1) (on_error e h1 env1) env1) as [h2 env2].
      cbn [fst snd]. apply IH. exact Hrun.
    + injection Hrun as <- <- <-. reflexivity.
Qed.

(** X13.  The request timeout is stored and never used: the same call
    under settings that differ in the request timeout alone completes the
    same way, at the same time, with the same statistics, breaker and
    trace; the handlers they leave differ in the stored [requestTimeout]
    only.  So the 2000 ms [demonstrateTimeout] sets never take effect:
    [demonstrateTimeout] completes, and it leaves the handler and the clock
    that the request of the scenario timeout leaves under the settings of
    the form alone; it throws what that request throws, and when the request
    returns its result it drops it and returns [undefined]. *)
Theorem requestTimeout_is_never_enforced (operation : Operation)
  (form : Settings) (t : Z) (h : ErrorHandler) (env : Env)
  (c : Completion) (h' : ErrorHandler) (env' : Env) :
  execute operation form h env = Some (c, h', env') ->
  execute operation
    (mkSettings (form_maxRetries form) (form_baseDelay form)
                (form_backoffType form) t) h env
  = Some (c, set_requestTimeout t h', env') /\
  (exists c0 h0 env0,
     makeRequestWithRetry "timeout" form h env = Some (c0, h0, env0) /\
     demonstrateTimeout form h env
     = Some (match c0 with
             | Returned _ => Returned None
             | Thrown error => Thrown error
             end, h0, env0)).
Proof.
  intros Hrun. split.
  - unfold execute in *. fields.
    apply (retry_loop_timeout operation t) in Hrun.
    destruct h as [s cb cr m b k rt tr]. exact Hrun.
  - destruct (execute_completes (simulateAPIRequest "timeout") form h env)
      as (c0 & h0 & env0 & evs & Hrun0 & _).
    exists c0, h0, env0. split; [exact Hrun0|].
    unfold demonstrateTimeout, testNetworkTimeout.
    change (makeRequestWithRetry "timeout" form (set_requestTimeout 2000 h) env)
      with (execute (simulateAPIRequest "timeout") form h env).
    rewrite Hrun0. destruct c0; reflexivity.
Qed.

(** The bad request under a request timeout of 1 ms instead of 5000. *)
Lemma requestTimeout_is_never_enforced_witness :
  exists h' env',
    execute (simulateAPIRequest "bad-request")
      (mkSettings 3 1000 "exponential" 1) new_ErrorHandler
      (mkEnv 0 (fun _ => 0%Q) 0)
    = Some (Thrown (mkError "Bad Request (400) - Invalid request format"),
            set_requestTimeout 1 h', env') /\
    requestTimeout h' = 5000.
Proof.
  destruct (execute_completes (simulateAPIRequest "bad-request")
              (mkSettings 3 1000 "exponential" 5000) new_ErrorHandler
              (mkEnv 0 (fun _ => 0%Q) 0))
    as (c & h' & env' & evs & Hrun & _).
  pose proof (proj1 (requestTimeout_is_never_enforced
                       (simulateAPIRequest "bad-request")
                       (mkSettings 3 1000 "exponential" 5000) 1 new_ErrorHandler
                       (mkEnv 0 (fun _ => 0%Q) 0) c h' env' Hrun)) as H.
  exists h', env'. vm_compute in Hrun. injection Hrun as <- <- <-.
  split; [exact H | reflexivity].
Defined.

(** ** The fallback demonstration *)

(** X14.  [demonstrateFallback] always completes and never throws.  When
    the primary request throws, it returns the fallback object, stamped
    with the time of the failure, after the failure has been counted; when
    the primary request returns, it returns [undefined]: the data of the
    primary request are dropped. *)
Theorem demonstrateFallback_never_throws (form : Settings) (h : ErrorHandler)
  (env : Env) :
  exists r c h' env',
    demonstrateFallback form h env = Some (FallbackReturned r, h', env') /\
    makeRequestWithRetry "server-error" form h env = Some (c, h', env') /\
    match c with
    | Returned _ => r = None
    | Thrown _ =>
        r = Some (mkFallback "Default cached or static data" "fallback"
                             (clock env') true) /\
        failedRequests (stats h') = failedRequests (stats h) + 1
    end.
Proof.
  unfold demonstrateFallback, makeRequestWithRetry.
  destruct (execute_completes (simulateAPIRequest "server-error") form h env)
    as (c & h' & env' & evs & Hrun & _ & _ & _ & _ & Hc).
  rewrite Hrun. destruct c as [x|e].
  - exists None, (Returned x), h', env'. repeat split.
  - destruct Hc as (_ & Hf & _). eexists. exists (Thrown e), h', env'.
    repeat split. exact Hf.
Qed.

(** ** The rate-limit scenario *)

Lemma iteration_succeeds (operation : Operation) (fuel : nat) (st a : Z)
  (h : ErrorHandler) (env : Env) (r : Response) (env1 : Env) :
  a <= maxRetries h ->
  breaker_blocks (clock env) (circuitBreakerState h) = false ->
  operation a env = (Resolve r, env1) ->
  exists h' evs,
    retry_loop operation (S fuel) st a h env
    = Some (Returned (Some r), h', env1) /\
    counts h' = (totalRequests (stats h), successfulRequests (stats h) + 1,
                 failedRequests (stats h), totalRetries (stats h),
                 (responseTimes (stats h) ++ [clock env1 - st])%list) /\
    circuitBreakerState h'
    = mkBreaker false 0 None (threshold (circuitBreakerState h))
                (timeout (circuitBreakerState h)) /\
    trace h' = (trace h ++ evs)%list /\
    timeline evs = [Attempt (a + 1) (maxRetries h + 1) (clock env);
                    Invoked a (clock env) (clock env1)].
Proof.
  intros Hle Hadmit Hop. cbn [retry_loop].
  apply Z.leb_le in Hle. rewrite Hle.
  destruct (attempt_request_admitted operation a h env _ env1 Hadmit Hop)
    as (h1 & evs1 & -> & Hc1 & _ & Hb1 & Ht1 & Htl1).
  exists (on_success st h1 env1), (evs1 ++ [Completed])%list.
  split; [reflexivity|].
  apply counts_inv in Hc1 as (Hq & Hs & Hf & Hr & Hrt).
  unfold on_success, resetCircuitBreaker, counts. fields.
  rewrite Hq, Hs, Hf, Hr, Hrt, Hb1, Ht1, <- app_assoc.
  split; [reflexivity|]. split.
  { unfold breaker_checked. destruct (isOpen _ && _); reflexivity. }
  split; [reflexivity|].
  autorewrite with readers. rewrite Htl1. reflexivity.
Qed.

Lemma rate_limit_rejects (a : Z) (env : Env) :
  a < 2 ->
  simulateAPIRequest "rate-limit" a env
  = (Reject (mkError "Too Many Requests (429)"),
     snd (simulateAPIRequest "rate-limit" a env)).
Proof.
  intros Ha. unfold simulateAPIRequest. cbn [String.eqb Ascii.eqb Bool.eqb].
  destruct (Math_random env) as [r env1].
  replace (a <? 2) with true by (symmetry; apply Z.ltb_lt; exact Ha).
  reflexivity.
Qed.

Lemma rate_limit_resolves (a : Z) (env : Env) :
  2 <= a ->
  simulateAPIRequest "rate-limit" a env
  = (Resolve (mkResponse "Rate limit cleared"
                (clock (snd (simulateAPIRequest "rate-limit" a env)))),
     snd (simulateAPIRequest "rate-limit" a env)).
Proof.
  intros Ha. unfold simulateAPIRequest. cbn [String.eqb Ascii.eqb Bool.eqb].
  destruct (Math_random env) as [r env1].
  replace (a <? 2) with false by (symmetry; apply Z.ltb_ge; exact Ha).
  reflexivity.
Qed.

(** The first two attempts of the scenario on a closed breaker that has
    counted [fc] failures, 0 or 1. *)
Lemma rate_limit_first_two_attempts (fuel : nat) (st : Z) (h0 : ErrorHandler)
  (env : Env) (m b : Z) (kind : string) (fc : Z) (last : option Z) (to : Z) :
  policy h0 = (m, b, kind) -> 2 <= m -> 0 <= b -> 0 <= fc <= 1 ->
  circuitBreakerState h0 = mkBreaker false fc last 3 to ->
  let d i := calculateDelay i b kind in
  exists h2 env2 evs,
    retry_loop (simulateAPIRequest "rate-limit") (S (S fuel)) st 0 h0 env
    = retry_loop (simulateAPIRequest "rate-limit") fuel st 2 h2
        (sleep (d 1) env2) /\
    policy h2 = (m, b, kind) /\
    counts h2 = (totalRequests (stats h0), successfulRequests (stats h0),
                 failedRequests (stats h0), totalRetries (stats h0) + 2,
                 responseTimes (stats h0)) /\
    circuitBreakerState h2
    = mkBreaker (3 <=? fc + 2) (fc + 2) (Some (clock env2)) 3 to /\
    trace h2 = (trace h0 ++ evs)%list /\
    invocations evs = [0; 1] /\ waits evs = [d 0; d 1].
Proof.
  intros Hp0 Hm Hb Hfc Hb0 d.
  assert (Hd0 : 0 <= d 0) by (apply calculateDelay_nonneg; lia).
  assert (Hd1 : 0 <= d 1) by (apply calculateDelay_nonneg; lia).
  pose proof (policy_is _ _ _ _ Hp0) as (Hm0 & Hbd0 & Hk0).
  destruct (iteration_retries (simulateAPIRequest "rate-limit") (S fuel) st 0 h0
              env (mkError "Too Many Requests (429)")
              (snd (simulateAPIRequest "rate-limit" 0 env)))
    as (h1 & evs1 & -> & Hp1 & Hc1 & Hb1 & Ht1 & Htl1);
    [rewrite Hb0; reflexivity | apply rate_limit_rejects; lia
    | rewrite Hm0; lia | reflexivity |].
  set (env1 := snd (simulateAPIRequest "rate-limit" 0 env)) in *.
  rewrite Hb0, breaker_checked_closed, breaker_failed_closed in Hb1.
  replace (3 <=? fc + 1) with false in Hb1 by (symmetry; apply Z.leb_gt; lia).
  rewrite Hp0 in Hp1.
  rewrite calculateBackoffDelay_policy, Hbd0, Hk0 in *.
  fold (d 0) in *. replace (Z.max 0 (d 0)) with (d 0) by lia.
  pose proof (policy_is _ _ _ _ Hp1) as (Hm1 & Hbd1 & Hk1).
  set (env1' := sleep (d 0) env1).
  destruct (iteration_retries (simulateAPIRequest "rate-limit") fuel st (0 + 1) h1
              env1' (mkError "Too Many Requests (429)")
              (snd (simulateAPIRequest "rate-limit" (0 + 1) env1')))
    as (h2 & evs2 & -> & Hp2 & Hc2 & Hb2 & Ht2 & Htl2);
    [rewrite Hb1; reflexivity | apply rate_limit_rejects; lia
    | rewrite Hm1; lia | reflexivity |].
  set (env2 := snd (simulateAPIRequest "rate-limit" (0 + 1) env1')) in *.
  rewrite Hb1, breaker_checked_closed, breaker_failed_closed in Hb2.
  rewrite Hp1 in Hp2.
  rewrite calculateBackoffDelay_policy, Hbd1, Hk1 in *.
  change (0 + 1) with 1 in *. change (1 + 1) with 2 in *.
  fold (d 1) in *. replace (Z.max 0 (d 1)) with (d 1) by lia.
  exists h2, env2, (evs1 ++ evs2)%list.
  split; [reflexivity|]. split; [exact Hp2|].
  apply counts_is in Hc1 as (Hq1 & Hs1 & Hf1 & Hr1 & Hrt1).
  apply counts_is in Hc2 as (Hq2 & Hs2 & Hf2 & Hr2 & Hrt2).
  split.
  { unfold counts. rewrite Hq2, Hs2, Hf2, Hr2, Hrt2, Hq1, Hs1, Hf1, Hr1, Hrt1.
    replace (totalRetries (stats h0) + 1 + 1) with (totalRetries (stats h0) + 2)
      by lia.
    reflexivity. }
  split.
  { rewrite Hb2. replace (fc + 1 + 1) with (fc + 2) by lia. reflexivity. }
  split; [rewrite Ht2, Ht1, <- app_assoc; reflexivity|].
  rewrite <- invocations_timeline, <- waits_timeline.
  autorewrite with readers. rewrite Htl1, Htl2. split; reflexivity.
Qed.

(** X15.  The rate-limit scenario on a closed breaker with no failure
    counted, under a budget of two retries or more and a base delay that is
    not negative: the first two attempts fail with the 429 and are retried
    after the backoff delays [d 0] and [d 1], and the third attempt clears.
    The call returns its result, stamped with the time it settled;
    [totalRetries] grows by 2 and [successfulRequests] by 1, and the two
    failures are forgotten: the breaker is closed with no failure counted. *)
Theorem rate_limit_clears_at_the_third_attempt (form : Settings)
  (h : ErrorHandler) (env : Env) :
  2 <= form_maxRetries form ->
  0 <= form_baseDelay form ->
  isOpen (circuitBreakerState h) = false ->
  failureCount (circuitBreakerState h) = 0 ->
  threshold (circuitBreakerState h) = 3 ->
  let d i := calculateDelay i (form_baseDelay form) (form_backoffType form) in
  exists h' env' evs,
    makeRequestWithRetry "rate-limit" form h env
    = Some (Returned (Some (mkResponse "Rate limit cleared" (clock env'))),
            h', env') /\
    trace h' = (trace h ++ evs)%list /\
    invocations evs = [0; 1; 2] /\
    waits evs = [d 0; d 1] /\
    totalRetries (stats h') = totalRetries (stats h) + 2 /\
    successfulRequests (stats h') = successfulRequests (stats h) + 1 /\
    failedRequests (stats h') = failedRequests (stats h) /\
    responseTimes (stats h')
    = (responseTimes (stats h) ++ [clock env' - clock env])%list /\
    isOpen (circuitBreakerState h') = false /\
    failureCount (circuitBreakerState h') = 0.
Proof.
  intros Hm Hbase Hclosed Hcount Hthr d.
  unfold makeRequestWithRetry, execute.
  set (h0 := with_current _ _).
  assert (Hp0 : policy h0 = (form_maxRetries form, form_baseDelay form,
                             form_backoffType form)) by reflexivity.
  assert (Hc0 : counts h0 = (totalRequests (stats h) + 1, successfulRequests (stats h),
                             failedRequests (stats h), totalRetries (stats h),
                             responseTimes (stats h))) by reflexivity.
  assert (Hb0 : circuitBreakerState h0
                = mkBreaker false 0 (lastFailureTime (circuitBreakerState h)) 3
                            (timeout (circuitBreakerState h))).
  { change (circuitBreakerState h0) with (circuitBreakerState h).
    destruct (circuitBreakerState h); fields; congruence. }
  assert (Ht0 : trace h0 = trace h) by reflexivity.
  replace (maxRetries h0) with (form_maxRetries form) by reflexivity.
  replace (S (Z.to_nat (form_maxRetries form + 1)))
    with (S (S (S (Z.to_nat (form_maxRetries form - 1))))) by lia.
  clearbody h0.
  destruct (rate_limit_first_two_attempts (S (Z.to_nat (form_maxRetries form - 1)))
              (clock env) h0 env _ _ _ 0 _ _ Hp0 Hm Hbase ltac:(lia) Hb0)
    as (h2 & env2 & evs2 & -> & Hp2 & Hc2 & Hb2 & Ht2 & Hi2 & Hw2).
  change (3 <=? 0 + 2) with false in Hb2.
  pose proof (policy_is _ _ _ _ Hp2) as (Hm2 & _).
  set (env2' := sleep _ env2).
  destruct (iteration_succeeds (simulateAPIRequest "rate-limit")
              (Z.to_nat (form_maxRetries form - 1)) (clock env) 2 h2 env2'
              _ _ ltac:(lia) ltac:(rewrite Hb2; reflexivity)
              (rate_limit_resolves 2 env2' ltac:(lia)))
    as (h3 & evs3 & -> & Hc3 & Hb3 & Ht3 & Htl3).
  set (env3 := snd (simulateAPIRequest "rate-limit" 2 env2')) in *.
  exists h3, env3, (evs2 ++ evs3)%list.
  split; [reflexivity|].
  split; [rewrite Ht3, Ht2, Ht0, <- app_assoc; reflexivity|].
  split.
  { rewrite invocations_app, Hi2, <- (invocations_timeline evs3), Htl3.
    reflexivity. }
  split.
  { rewrite waits_app, Hw2, <- (waits_timeline evs3), Htl3. reflexivity. }
  apply counts_is in Hc3 as (Hq3 & Hs3 & Hf3 & Hr3 & Hrt3).
  apply counts_is in Hc2 as (Hq2 & Hs2 & Hf2 & Hr2 & Hrt2).
  apply counts_is in Hc0 as (Hq0 & Hs0 & Hf0 & Hr0 & Hrt0).
  rewrite Hb3, Hrt3, Hrt2, Hrt0. cbn [isOpen failureCount].
  repeat split; lia.
Qed.

(** The default settings on a new handler, all requests taking 500 ms. *)
Lemma rate_limit_clears_at_the_third_attempt_witness :
  exists h' env' evs,
    makeRequestWithRetry "rate-limit" (mkSettings 3 1000 "exponential" 5000)
      new_ErrorHandler (mkEnv 0 (fun _ => 0%Q) 0)
    = Some (Returned (Some (mkResponse "Rate limit cleared" (clock env'))),
            h', env') /\
    invocations evs = [0; 1; 2] /\
    waits evs = [calculateDelay 0 1000 "exponential";
                 calculateDelay 1 1000 "exponential"].
Proof.
  destruct (rate_limit_clears_at_the_third_attempt
              (mkSettings 3 1000 "exponential" 5000) new_ErrorHandler
              (mkEnv 0 (fun _ => 0%Q) 0)
              ltac:(simpl; lia) ltac:(simpl; lia) eq_refl eq_refl eq_refl)
    as (h' & env' & evs & Hrun & _ & Hi & Hw & _).
  exists h', env', evs. auto.
Defined.

(** X16.  The same scenario on a closed breaker that has already counted
    one failure (threshold 3, timeout 30000 ms), with a second backoff wait
    shorter than the timeout: the second 429 opens the breaker, the third
    attempt is stopped by it and the call throws the breaker's error after
    two calls of the operation, although the third attempt would have
    cleared. *)
Theorem one_earlier_failure_defeats_the_rate_limit_scenario (form : Settings)
  (h : ErrorHandler) (env : Env) :
  2 <= form_maxRetries form ->
  0 <= form_baseDelay form ->
  calculateDelay 1 (form_baseDelay form) (form_backoffType form) < 30000 ->
  isOpen (circuitBreakerState h) = false ->
  failureCount (circuitBreakerState h) = 1 ->
  threshold (circuitBreakerState h) = 3 ->
  timeout (circuitBreakerState h) = 30000 ->
  let d i := calculateDelay i (form_baseDelay form) (form_backoffType form) in
  exists h' env' evs,
    makeRequestWithRetry "rate-limit" form h env
    = Some (Thrown circuitOpenError, h', env') /\
    trace h' = (trace h ++ evs)%list /\
    invocations evs = [0; 1] /\
    waits evs = [d 0; d 1] /\
    totalRetries (stats h') = totalRetries (stats h) + 2 /\
    failedRequests (stats h') = failedRequests (stats h) + 1 /\
    successfulRequests (stats h') = successfulRequests (stats h) /\
    isOpen (circuitBreakerState h') = true.
Proof.
  intros Hm Hbase Hshort Hclosed Hcount Hthr Hto d.
  assert (Hd1 : 0 <= d 1) by (apply calculateDelay_nonneg; lia).
  unfold makeRequestWithRetry, execute.
  set (h0 := with_current _ _).
  assert (Hp0 : policy h0 = (form_maxRetries form, form_baseDelay form,
                             form_backoffType form)) by reflexivity.
  assert (Hc0 : counts h0 = (totalRequests (stats h) + 1, successfulRequests (stats h),
                             failedRequests (stats h), totalRetries (stats h),
                             responseTimes (stats h))) by reflexivity.
  assert (Hb0 : circuitBreakerState h0
                = mkBreaker false 1 (lastFailureTime (circuitBreakerState h)) 3 30000).
  { change (circuitBreakerState h0) with (circuitBreakerState h).
    destruct (circuitBreakerState h); fields; congruence. }
  assert (Ht0 : trace h0 = trace h) by reflexivity.
  replace (maxRetries h0) with (form_maxRetries form) by reflexivity.
  replace (S (Z.to_nat (form_maxRetries form + 1)))
    with (S (S (S (Z.to_nat (form_maxRetries form - 1))))) by lia.
  clearbody h0.
  destruct (rate_limit_first_two_attempts (S (Z.to_nat (form_maxRetries form - 1)))
              (clock env) h0 env _ _ _ 1 _ _ Hp0 Hm Hbase ltac:(lia) Hb0)
    as (h2 & env2 & evs2 & -> & Hp2 & Hc2 & Hb2 & Ht2 & Hi2 & Hw2).
  change (3 <=? 1 + 2) with true in Hb2. change (1 + 2) with 3 in Hb2.
  pose proof (policy_is _ _ _ _ Hp2) as (Hm2 & _).
  set (env2' := sleep _ env2).
  destruct (iteration_blocked (simulateAPIRequest "rate-limit")
              (Z.to_nat (form_maxRetries form - 1)) (clock env) 2 h2 env2')
    as (h3 & evs3 & -> & Hc3 & Hb3 & Ht3 & Htl3).
  { lia. }
  { rewrite Hb2. unfold breaker_blocks. subst env2'. fields.
    change (clock (sleep (calculateDelay 1 (form_baseDelay form)
                            (form_backoffType form)) env2))
      with (clock env2 + d 1).
    replace (30000 <=? clock env2 + d 1 - clock env2) with false
      by (symmetry; apply Z.leb_gt; subst d; cbv beta; lia).
    reflexivity. }
  exists h3, env2', (evs2 ++ evs3)%list.
  split; [reflexivity|].
  split; [rewrite Ht3, Ht2, Ht0, <- app_assoc; reflexivity|].
  split.
  { rewrite invocations_app, Hi2, <- (invocations_timeline evs3), Htl3.
    reflexivity. }
  split.
  { rewrite waits_app, Hw2, <- (waits_timeline evs3), Htl3. reflexivity. }
  apply counts_is in Hc3 as (Hq3 & Hs3 & Hf3 & Hr3 & Hrt3).
  apply counts_is in Hc2 as (Hq2 & Hs2 & Hf2 & Hr2 & Hrt2).
  apply counts_is in Hc0 as (Hq0 & Hs0 & Hf0 & Hr0 & Hrt0).
  rewrite Hb3, Hb2. cbn [isOpen breaker_failed orb].
  repeat split; lia.
Qed.

(** The default settings, after one unauthorized request has failed. *)
Lemma one_earlier_failure_defeats_the_rate_limit_scenario_witness :
  exists h' env' evs,
    makeRequestWithRetry "rate-limit" (mkSettings 3 1000 "exponential" 5000)
      (with_breaker (fun _ => mkBreaker false 1 (Some 500) 3 30000) new_ErrorHandler)
      (mkEnv 500 (fun _ => 0%Q) 1)
    = Some (Thrown circuitOpenError, h', env') /\
    invocations evs = [0; 1].
Proof.
  destruct (one_earlier_failure_defeats_the_rate_limit_scenario
              (mkSettings 3 1000 "exponential" 5000)
              (with_breaker (fun _ => mkBreaker false 1 (Some 500) 3 30000)
                            new_ErrorHandler)
              (mkEnv 500 (fun _ => 0%Q) 1)
              ltac:(simpl; lia) ltac:(simpl; lia) ltac:(vm_compute; reflexivity)
              eq_refl eq_refl eq_refl eq_refl)
    as (h' & env' & evs & Hrun & _ & Hi & _).
  exists h', env', evs. auto.
Defined.

(** ** Calls that keep coming while the breaker is open *)

(** X17.  On an open breaker whose last failure is not older than the
    present moment, calls that follow one another by less than the 30000 ms
    of the timeout never reach the operation, however many they are: each
    is rejected, counted as a failed request and as a failure of the
    breaker, and moves [lastFailureTime] to its own time, so the breaker
    stays open. *)
Theorem calls_in_quick_succession_keep_the_breaker_open (calls : list Call)
  (h : ErrorHandler) (env : Env) (last : Z) :
  isOpen (circuitBreakerState h) = true ->
  timeout (circuitBreakerState h) = 30000 ->
  lastFailureTime (circuitBreakerState h) = Some last ->
  clock env <= last ->
  Forall (fun call => call_idle call < 30000 /\
                      0 <= form_maxRetries (call_form call)) calls ->
  exists h' env',
    session calls h env = Some (h', env') /\
    invocations (trace h') = invocations (trace h) /\
    failedRequests (stats h')
    = failedRequests (stats h) + Z.of_nat (length calls) /\
    failureCount (circuitBreakerState h')
    = failureCount (circuitBreakerState h) + Z.of_nat (length calls) /\
    isOpen (circuitBreakerState h') = true /\
    (calls <> [] -> lastFailureTime (circuitBreakerState h') = Some (clock env')).
Proof.
  intros Hopen Hto Hlast Hnow Hcalls.
  revert h env last Hopen Hto Hlast Hnow.
  induction Hcalls as [|call calls (Hidle & Hbudget) _ IH];
    intros h env last Hopen Hto Hlast Hnow.
  - exists h, env. cbn. repeat split; try lia; congruence.
  - cbn [session]. set (env1 := sleep (call_idle call) env).
    assert (Hclock : clock env1 = clock env + call_idle call) by reflexivity.
    destruct (execute_enters (call_request call) (call_form call) h env1)
      as (h0 & fuel & -> & Hp0 & Hc0 & Hb0 & Ht0).
    apply policy_is in Hp0 as (Hm0 & _).
    destruct (iteration_blocked (call_request call) fuel (clock env1) 0 h0 env1)
      as (h1 & evs & -> & Hc1 & Hb1 & Ht1 & Htl1).
    { lia. }
    { rewrite Hb0. unfold breaker_blocks. rewrite Hopen, Hto, Hlast. fields.
      replace (30000 <=? clock env1 - last) with false
        by (symmetry; apply Z.leb_gt; lia).
      reflexivity. }
    rewrite Hb0 in Hb1.
    assert (Hopen1 : isOpen (circuitBreakerState h1) = true)
      by (rewrite Hb1; unfold breaker_failed; fields; rewrite Hopen; reflexivity).
    assert (Hto1 : timeout (circuitBreakerState h1) = 30000)
      by (rewrite Hb1; exact Hto).
    assert (Hlast1 : lastFailureTime (circuitBreakerState h1) = Some (clock env1))
      by (rewrite Hb1; reflexivity).
    destruct (IH h1 env1 (clock env1) Hopen1 Hto1 Hlast1 ltac:(lia))
      as (h' & env' & Hrun & Hi & Hf & Hfc & Hopen' & Hlast').
    exists h', env'. split; [exact Hrun|].
    apply counts_is in Hc1 as (_ & _ & Hf1 & _).
    apply counts_is in Hc0 as (_ & _ & Hf0 & _).
    split.
    { rewrite Hi, Ht1, Ht0, invocations_app, <- (invocations_timeline evs), Htl1.
      apply app_nil_r. }
    split; [rewrite Hf, Hf1, Hf0; cbn [length]; lia|].
    split; [rewrite Hfc, Hb1; cbn [breaker_failed failureCount length]; lia|].
    split; [exact Hopen'|].
    intros _. destruct calls as [|call' calls'].
    + cbn in Hrun. injection Hrun as <- <-. exact Hlast1.
    + apply Hlast'. discriminate.
Qed.

(** The breaker opened at the time 0; three calls, 20 seconds apart. *)
Lemma calls_in_quick_succession_keep_the_breaker_open_witness :
  exists h' env',
    session (repeat (mkCall 20000 (simulateAPIRequest "server-error")
                            (mkSettings 3 1000 "exponential" 5000)) 3)
      (with_breaker (fun _ => mkBreaker true 3 (Some 0) 3 30000) new_ErrorHandler)
      (mkEnv 0 (fun _ => 0%Q) 0) = Some (h', env') /\
    invocations (trace h') = [] /\
    failureCount (circuitBreakerState h') = 3 + 3.
Proof.
  destruct (calls_in_quick_succession_keep_the_breaker_open
              (repeat (mkCall 20000 (simulateAPIRequest "server-error")
                              (mkSettings 3 1000 "exponential" 5000)) 3)
              (with_breaker (fun _ => mkBreaker true 3 (Some 0) 3 30000)
                            new_ErrorHandler)
              (mkEnv 0 (fun _ => 0%Q) 0) 0 eq_refl eq_refl eq_refl
              ltac:(simpl; lia) ltac:(repeat constructor; simpl; lia))
    as (h' & env' & Hrun & Hi & _ & Hfc & _).
  exists h', env'. auto.
Defined.

(** ** Asking the breaker *)

(** X18.  Asking the breaker a second time at the same moment gives the
    same answer and changes nothing more; and once the breaker lets a
    request through at some time, it lets it through at every later time
    as long as no failure is recorded. *)
Theorem isCircuitBreakerOpen_is_stable (now later : Z) (h : ErrorHandler) :
  isCircuitBreakerOpen now (snd (isCircuitBreakerOpen now h))
  = (fst (isCircuitBreakerOpen now h), snd (isCircuitBreakerOpen now h)) /\
  (now <= later ->
   fst (isCircuitBreakerOpen now h) = false ->
   fst (isCircuitBreakerOpen later h) = false /\
   fst (isCircuitBreakerOpen later (snd (isCircuitBreakerOpen now h))) = false).
Proof.
  unfold isCircuitBreakerOpen, resetCircuitBreaker.
  destruct (isOpen (circuitBreakerState h)) eqn:Hopen.
  - destruct (Z.leb_spec (timeout (circuitBreakerState h))
                (now - default 0 (lastFailureTime (circuitBreakerState h))))
      as [Hlate|Hearly]; fields.
    + split; [reflexivity|]. intros Hle _.
      replace (timeout (circuitBreakerState h) <=?
               later - default 0 (lastFailureTime (circuitBreakerState h)))
        with true by (symmetry; apply Z.leb_le; unfold default in *; lia).
      split; reflexivity.
    + rewrite Hopen.
      replace (timeout (circuitBreakerState h) <=?
               now - default 0 (lastFailureTime (circuitBreakerState h)))
        with false by (symmetry; apply Z.leb_gt; exact Hearly).
      split; [reflexivity|]. intros _ Habs. discriminate Habs.
  - fields. rewrite Hopen. split; [reflexivity|]. intros _ _. split; reflexivity.
Qed.

Lemma isCircuitBreakerOpen_is_stable_witness :
  fst (isCircuitBreakerOpen 45000
         (with_breaker (fun _ => mkBreaker true 3 (Some 0) 3 30000)
                       new_ErrorHandler)) = false.
Proof.
  apply (proj2 (isCircuitBreakerOpen_is_stable 30000 45000
                  (with_breaker (fun _ => mkBreaker true 3 (Some 0) 3 30000)
                                new_ErrorHandler))
           ltac:(lia) eq_refl).
Defined.
